(** * HireLens-AI: a shallow embedding of the scoring pipeline

    The development follows the Python sources module by module:
    [utils/pdf_parser.py], [utils/skill_extractor.py], [utils/ats_scorer.py],
    [utils/matcher.py], [utils/ai_feedback.py] and the ORM declarations of
    [models.py] together with the routes that write to the database.

    Conventions of the embedding.
    - A Python [str] is a [string]; a character is a code point below 256
      (Latin-1), classified as CPython classifies it.
    - A Python [float] is an exact rational ([Q]); [round(x, 2)] is rounding
      to the nearest hundredth, ties to even.
    - A Python [set] of strings is a [gset string]; [sorted(list(s))] is a
      sort of its elements by code point.
    - External libraries (spaCy, scikit-learn, pdfplumber, PyMuPDF, the LLM
      clients, [json]) are interfaces, given as type classes; a call that may
      raise returns in [result].
    - The [re] module is embedded as a small backtracking matcher over a
      regular-expression syntax tree, so that every pattern of the sources is
      written down as a term. *)

From Stdlib Require Import ZArith QArith Qround Qminmax Lqa Ascii String List Lia Permutation Sorted.
From stdpp Require Import base option list sorting gmap sets strings.

Set Default Proof Using "Type".
Set Warnings "-register-all,-clear-no-such-hyp".
Local Open Scope Z_scope.

(* ===================================================================== *)
(** * Python values: characters and strings                               *)
(* ===================================================================== *)

Module Py.

(** Exceptions are values; [result] is the outcome of a call that may
    raise. *)
Inductive exn : Type :=
| ValueError (msg : string)
| JSONDecodeError (msg : string)
| OtherError (msg : string).

Inductive result (A : Type) : Type :=
| Ok (a : A)
| Raise (e : exn).
Arguments Ok {A} a.
Arguments Raise {A} e.

Definition bind {A B} (r : result A) (k : A -> result B) : result B :=
  match r with
  | Ok a => k a
  | Raise e => Raise e
  end.

(** [try: body except Exception: handler]. *)
Definition try_except {A} (body : result A) (handler : exn -> result A) : result A :=
  match body with
  | Ok a => Ok a
  | Raise e => handler e
  end.

Definition code (c : ascii) : N := N_of_ascii c.

Definition in_range (lo hi : N) (c : ascii) : bool :=
  ((lo <=? code c) && (code c <=? hi))%N.

Definition is_code (n : N) (c : ascii) : bool := (code c =? n)%N.

(** [Py_UNICODE_ISSPACE] below 256: TAB..CR, FS..US, SPACE, NEL, NBSP. *)
Definition isspace (c : ascii) : bool :=
  in_range 9 13 c || in_range 28 32 c || is_code 133 c || is_code 160 c.

(** [Py_UNICODE_ISALNUM] below 256. *)
Definition isalnum (c : ascii) : bool :=
  in_range 48 57 c || in_range 65 90 c || in_range 97 122 c
  || is_code 170 c || is_code 178 c || is_code 179 c || is_code 181 c
  || is_code 185 c || is_code 186 c || in_range 188 190 c
  || in_range 192 214 c || in_range 216 246 c || in_range 248 255 c.

(** The class [\w] of a [str] pattern. *)
Definition isword (c : ascii) : bool := isalnum c || is_code 95 c.

Definition isdigit (c : ascii) : bool := in_range 48 57 c.

Definition isupper (c : ascii) : bool :=
  in_range 65 90 c || in_range 192 214 c || in_range 216 222 c.

Definition islower (c : ascii) : bool :=
  in_range 97 122 c || is_code 170 c || is_code 181 c || is_code 186 c
  || in_range 223 246 c || in_range 248 255 c.

Definition iscased (c : ascii) : bool := isupper c || islower c.

Definition lower_char (c : ascii) : ascii :=
  if isupper c then ascii_of_N (code c + 32) else c.

(** Upper-casing stays below 256 except for [ß], [µ] and [ÿ]; the sources
    only title-case ASCII strings, and the three are left as they are. *)
Definition upper_char (c : ascii) : ascii :=
  if in_range 97 122 c || in_range 224 246 c || in_range 248 254 c
  then ascii_of_N (code c - 32) else c.

Definition chars := list ascii.

(** The line feed and the double quote, as strings. *)
Definition nl : string := String "010" EmptyString.
Definition dq : string := String "034" EmptyString.

Definition explode (s : string) : chars := list_ascii_of_string s.
Definition implode (l : chars) : string := string_of_list_ascii l.

(** [len(s)], a Python [int]. *)
Definition len (s : string) : Z := Z.of_nat (String.length s).

(** [s.lower()] *)
Definition lower (s : string) : string := implode (map lower_char (explode s)).

(** [s.title()]: a cased character is upper-cased when the character
    before it is not cased and lower-cased otherwise. *)
Fixpoint title_go (prev_cased : bool) (l : chars) : chars :=
  match l with
  | [] => []
  | c :: t =>
      (if prev_cased then lower_char c else upper_char c) :: title_go (iscased c) t
  end.
Definition title (s : string) : string := implode (title_go false (explode s)).

(** [s.replace(old, new)] for one-character [old] and [new]. *)
Definition replace_char (old new : ascii) (l : chars) : chars :=
  map (fun c => if Ascii.eqb c old then new else c) l.

(** [s.lstrip()], [s.rstrip()], [s.strip()] *)
Fixpoint lstrip_chars (l : chars) : chars :=
  match l with
  | [] => []
  | c :: t => if isspace c then lstrip_chars t else l
  end.

Fixpoint rstrip_chars (l : chars) : chars :=
  match l with
  | [] => []
  | c :: t =>
      match rstrip_chars t with
      | [] => if isspace c then [] else [c]
      | t' => c :: t'
      end
  end.

Definition strip_chars (l : chars) : chars := rstrip_chars (lstrip_chars l).
Definition strip (s : string) : string := implode (strip_chars (explode s)).

(** [s.split()]: the maximal runs of non-whitespace characters. *)
Fixpoint split_go (cur : chars) (l : chars) : list chars :=
  match l with
  | [] => match cur with [] => [] | _ => [rev cur] end
  | c :: t =>
      if isspace c
      then match cur with [] => split_go [] t | _ => rev cur :: split_go [] t end
      else split_go (c :: cur) t
  end.
Definition split_chars (l : chars) : list chars := split_go [] l.
Definition split (s : string) : list string := map implode (split_chars (explode s)).

(** [sep.join(parts)] *)
Fixpoint join_chars (sep : chars) (parts : list chars) : chars :=
  match parts with
  | [] => []
  | [p] => p
  | p :: rest => p ++ sep ++ join_chars sep rest
  end.
Definition join (sep : string) (parts : list string) : string :=
  implode (join_chars (explode sep) (map explode parts)).

(** [s[:n]] for [n >= 0] *)
Fixpoint take_chars (n : N) (l : chars) : chars :=
  match l with
  | [] => []
  | c :: t => if (n =? 0)%N then [] else c :: take_chars (N.pred n) t
  end.
Definition take (n : N) (s : string) : string := implode (take_chars n (explode s)).

(** [l[:n]] on a list *)
Definition take_list {A} (n : nat) (l : list A) : list A := firstn n l.

(** [sub in s] *)
Fixpoint starts_with (p l : chars) : bool :=
  match p, l with
  | [], _ => true
  | _ :: _, [] => false
  | a :: p', b :: l' => Ascii.eqb a b && starts_with p' l'
  end.

Fixpoint contains_chars (p l : chars) : bool :=
  starts_with p l ||
  match l with
  | [] => false
  | _ :: t => contains_chars p t
  end.
Definition contains (sub s : string) : bool := contains_chars (explode sub) (explode s).

(** Two whitespace characters next to each other. *)
Fixpoint has_space_pair (l : chars) : bool :=
  match l with
  | c :: (d :: _) as t => (isspace c && isspace d) || has_space_pair t
  | _ => false
  end.

(** Truthiness of a [str]. *)
Definition truthy (s : string) : bool :=
  match s with EmptyString => false | _ => true end.

(** [sorted(list(s))] for a set of strings: increasing by code point. *)
Definition sorted_set (s : gset string) : list string :=
  merge_sort String.le (elements s).

(** [set(l)] *)
Definition set_of (l : list string) : gset string := list_to_set l.

(** Truthiness of a set. *)
Definition nonempty (s : gset string) : bool := negb (bool_decide (s = ∅)).

(** [l.sort(key=..., reverse=True)] is stable: of two elements with equal
    keys the one that came first stays first.  [key_lt x y] says that the
    key of [x] is strictly below the key of [y]. *)
Section StableSort.
Context {A : Type} (key_lt : A -> A -> bool).

Fixpoint insert_desc (x : A) (l : list A) : list A :=
  match l with
  | [] => [x]
  | y :: t => if key_lt x y then y :: insert_desc x t else x :: l
  end.

Definition sort_desc (l : list A) : list A :=
  fold_right insert_desc [] l.

(** [a] may stand before [b] in the result: its key is not below the
    key of [b]. *)
Definition not_below (a b : A) : Prop := key_lt a b = false.
End StableSort.

End Py.

(* ===================================================================== *)
(** * The [re] module                                                      *)
(* ===================================================================== *)

Module Re.
Import Py.

(** Syntax of the patterns that occur in the sources.  [Star] is the
    greedy [*], [Lazy] the reluctant [*?]; [+], [?] and [{n,}] are
    derived below.  A pattern has at most one capturing group. *)
Inductive regex : Type :=
| Eps
| Chr (c : ascii)
| Cls (p : ascii -> bool)
| Bnd
| Cat (r1 r2 : regex)
| Alt (r1 r2 : regex)
| Star (r : regex)
| Lazy (r : regex)
| Grp (r : regex).

Definition Plus (r : regex) : regex := Cat r (Star r).
Definition Opt (r : regex) : regex := Alt r Eps.
Definition Any : regex := Cls (fun _ => true).

Fixpoint Rep (n : nat) (r : regex) : regex :=
  match n with
  | O => Eps
  | S k => Cat r (Rep k r)
  end.

Definition AtLeast (n : nat) (r : regex) : regex := Cat (Rep n r) (Star r).

(** A literal, as [re.escape] makes one. *)
Fixpoint lit_chars (l : chars) : regex :=
  match l with
  | [] => Eps
  | [c] => Chr c
  | c :: t => Cat (Chr c) (lit_chars t)
  end.
Definition Lit (s : string) : regex := lit_chars (explode s).

Definition one_of (s : string) (c : ascii) : bool :=
  existsb (Ascii.eqb c) (explode s).

Fixpoint has_group (r : regex) : bool :=
  match r with
  | Grp _ => true
  | Cat a b | Alt a b => has_group a || has_group b
  | Star a | Lazy a => has_group a
  | _ => false
  end.

(** A position in the subject: the character before it, the characters
    from it on, and the text of the group if it has been closed. *)
Record state : Type := State {
  prev : option ascii;
  rest : chars;
  grp : option chars
}.

Definition word_before (st : state) : bool :=
  match prev st with Some c => isword c | None => false end.

Definition word_after (st : state) : bool :=
  match rest st with c :: _ => isword c | [] => false end.

Definition step_char (p : ascii -> bool) (st : state) : list state :=
  match rest st with
  | c :: t => if p c then [State (Some c) t (grp st)] else []
  | [] => []
  end.

(** The characters between two positions of one subject. *)
Definition consumed (st st' : state) : chars :=
  firstn (length (rest st) - length (rest st')) (rest st).

Definition shorter (st' st : state) : bool :=
  Nat.ltb (length (rest st')) (length (rest st)).

(** Iteration of a body: each round must consume a character, as the
    matcher of CPython stops a loop whose body matched the empty string. *)
Fixpoint star_loop (body : state -> list state) (greedy : bool)
    (fuel : nat) (st : state) : list state :=
  match fuel with
  | O => [st]
  | S k =>
      let more :=
        flat_map (fun st' => if shorter st' st then star_loop body greedy k st' else [])
                 (body st) in
      if greedy then more ++ [st] else st :: more
  end.

(** All the ways of matching [r] from a position, in the order in which a
    backtracking matcher tries them. *)
Fixpoint ends (r : regex) (st : state) : list state :=
  match r with
  | Eps => [st]
  | Chr c => step_char (Ascii.eqb c) st
  | Cls p => step_char p st
  | Bnd => if xorb (word_before st) (word_after st) then [st] else []
  | Cat a b => flat_map (ends b) (ends a st)
  | Alt a b => ends a st ++ ends b st
  | Star a => star_loop (ends a) true (length (rest st)) st
  | Lazy a => star_loop (ends a) false (length (rest st)) st
  | Grp a => map (fun st' => State (prev st') (rest st') (Some (consumed st st'))) (ends a st)
  end.

(** A match object: [group(0)] and [group(1)]. *)
Record rmatch : Type := Match {
  whole : string;
  group1 : option string
}.

Definition match_at (r : regex) (p : option ascii) (l : chars) : option (nat * rmatch) :=
  match ends r (State p l None) with
  | st' :: _ =>
      let n := (length l - length (rest st'))%nat in
      Some (n, Match (implode (firstn n l)) (implode <$> grp st'))
  | [] => None
  end.

(** [re.finditer]: leftmost matches that do not overlap.  [skip] counts
    the characters of the last match that are still to be passed. *)
Fixpoint scan (r : regex) (p : option ascii) (l : chars) (skip : nat) : list rmatch :=
  match skip with
  | S k =>
      match l with
      | [] => []
      | c :: t => scan r (Some c) t k
      end
  | O =>
      match match_at r p l with
      | Some (n, m) =>
          m :: match l with
               | [] => []
               | c :: t => scan r (Some c) t (Nat.pred n)
               end
      | None =>
          match l with
          | [] => []
          | c :: t => scan r (Some c) t O
          end
      end
  end.

Definition finditer (r : regex) (s : string) : list rmatch :=
  scan r None (explode s) O.

(** [re.search(r, s)] as a truth value. *)
Definition search (r : regex) (s : string) : option rmatch :=
  head (finditer r s).

Definition found (r : regex) (s : string) : bool :=
  match search r s with Some _ => true | None => false end.

(** [re.findall(r, s)]: the group if the pattern has one, else the whole
    match. *)
Definition findall (r : regex) (s : string) : list string :=
  map (fun m => if has_group r then default EmptyString (group1 m) else whole m)
      (finditer r s).

(** [re.sub(r, repl, s)] for a replacement without back-references. *)
Fixpoint sub_go (r : regex) (repl : chars) (p : option ascii) (l : chars)
    (skip : nat) : chars :=
  match skip with
  | S k =>
      match l with
      | [] => []
      | c :: t => sub_go r repl (Some c) t k
      end
  | O =>
      match match_at r p l with
      | Some (n, _) =>
          repl ++ match l with
                  | [] => []
                  | c :: t =>
                      match n with
                      | O => c :: sub_go r repl (Some c) t O
                      | S k => sub_go r repl (Some c) t k
                      end
                  end
      | None =>
          match l with
          | [] => []
          | c :: t => c :: sub_go r repl (Some c) t O
          end
      end
  end.

Definition sub (r : regex) (repl : string) (s : string) : string :=
  implode (sub_go r (explode repl) None (explode s) O).

(** Two substitutions written out on the characters, against which [sub]
    is checked below.  [span_len p l] is the length of the longest prefix
    of [l] in the class [p]; [replace_class] replaces every character of a
    class; [squeeze] replaces every run of a class once. *)
Fixpoint span_len (p : ascii -> bool) (l : chars) : nat :=
  match l with
  | c :: t => if p c then S (span_len p t) else O
  | [] => O
  end.

Definition replace_class (p : ascii -> bool) (repl : chars) (l : chars) : chars :=
  flat_map (fun c => if p c then repl else [c]) l.

Fixpoint squeeze (p : ascii -> bool) (repl : chars) (in_run : bool) (l : chars) : chars :=
  match l with
  | [] => []
  | c :: t =>
      if p c then (if in_run then [] else repl) ++ squeeze p repl true t
      else c :: squeeze p repl false t
  end.

End Re.


(* ===================================================================== *)
(** * Numbers                                                              *)
(* ===================================================================== *)

(** A Python [float] is modelled by the rational number it stands for, and
    the arithmetic on it is exact.  The code computes in binary64, so where
    an exact value lies on or next to a tie, the last decimal of a rounded
    score can differ between the code and the model.  What is stated below
    about scores does not depend on it: bounds, the order of scores, and
    the equality of two runs of one computation. *)
Module Num.
Local Open Scope Q_scope.

(** Nearest integer, ties to the even one. *)
Definition round_half_even (q : Q) : Z :=
  let f := Qfloor q in
  match Qcompare (q - inject_Z f) (1 # 2) with
  | Lt => f
  | Gt => (f + 1)%Z
  | Eq => if Z.even f then f else (f + 1)%Z
  end.

(** [round(x, 2)] *)
Definition round2 (q : Q) : Q := Qmake (round_half_even (q * 100)) 100.

(** [len(l)] as a number. *)
Definition count {A} (l : list A) : Q := inject_Z (Z.of_nat (length l)).

(** [len(s)] of a set, as a number. *)
Definition card (s : gset string) : Q := inject_Z (Z.of_nat (size s)).

(** [sum(xs)]: the additions start from [0] and go left to right. *)
Definition sum (xs : list Q) : Q := fold_left Qplus xs 0.

Definition Qltb (a b : Q) : bool := negb (Qle_bool b a).
End Num.

(* ===================================================================== *)
(** * Interfaces of the external libraries                                *)
(* ===================================================================== *)

(** spaCy: a loaded pipeline maps a text to a document, of which the
    sources read the tokens and the noun chunks. *)
Module Spacy.
Record Token : Type := {
  text : string;
  pos_ : string;
  is_stop : bool
}.

Record Doc : Type := {
  tokens : list Token;
  noun_chunks : list string
}.

Class Model : Type := { nlp : string -> Doc }.
End Spacy.

(** scikit-learn: [TfidfVectorizer(...).fit_transform([a, b])] followed by
    [cosine_similarity] of the two rows; either call may raise. *)
Module Sklearn.
Class Tfidf : Type := { tfidf_cosine : string -> string -> Py.result Q }.
End Sklearn.

(** pdfplumber and PyMuPDF: the texts of the pages of a document.
    [page.extract_text()] of pdfplumber may return [None]. *)
Module PdfLibs.
Definition bytes : Type := list Byte.byte.

Class Extractors : Type := {
  pdfplumber_pages : bytes -> Py.result (list (option string));
  fitz_pages : bytes -> Py.result (list string)
}.
End PdfLibs.

(** JSON values, as [json.loads] returns them. *)
Module Json.
Inductive value : Type :=
| Null
| Bool (b : bool)
| Int (n : Z)
| Float (q : Q)
| Str (s : string)
| Arr (l : list value)
| Obj (kv : list (string * value)).


End Json.

(** The environment of the process and the clients of the two providers.
    [import openai] and [import google.generativeai] may fail; a chat call
    takes the key and the prompt and returns the text of the answer. *)
Module Llm.
Class Env : Type := {
  getenv : string -> option string;
  import_openai : Py.result unit;
  openai_chat : string -> string -> Py.result string;
  import_genai : Py.result unit;
  gemini_generate : string -> string -> Py.result string;
  json_loads : string -> Py.result Json.value
}.
End Llm.

(* ===================================================================== *)
(** * utils/skill_extractor.py                                            *)
(* ===================================================================== *)

Module SkillExtractor.
Import Py Re.

(** The three dictionaries.  They are Python sets; they are only iterated
    over, and what is found goes into a set, so their order is immaterial. *)
Definition TECHNICAL_SKILLS : list string := [
  (* Programming Languages *)
  "python"; "java"; "javascript"; "typescript"; "c++"; "c#"; "ruby"; "php"; "swift"; "kotlin";
  "go"; "rust"; "scala"; "r"; "matlab"; "perl"; "shell"; "bash"; "powershell"; "sql";
  (* Web Technologies *)
  "html"; "css"; "react"; "angular"; "vue"; "nodejs"; "express"; "django"; "flask"; "fastapi";
  "spring"; "asp.net"; "laravel"; "rails"; "jquery"; "bootstrap"; "tailwind"; "sass"; "webpack";
  (* Databases *)
  "mysql"; "postgresql"; "mongodb"; "redis"; "oracle"; "sql server"; "sqlite"; "cassandra";
  "dynamodb"; "elasticsearch"; "firebase"; "mariadb"; "neo4j";
  (* Cloud & DevOps *)
  "aws"; "azure"; "gcp"; "docker"; "kubernetes"; "jenkins"; "gitlab"; "github"; "ci/cd";
  "terraform"; "ansible"; "chef"; "puppet"; "circleci"; "travis ci";
  (* AI/ML *)
  "tensorflow"; "pytorch"; "keras"; "scikit-learn"; "pandas"; "numpy"; "opencv"; "nlp";
  "machine learning"; "deep learning"; "neural networks"; "computer vision"; "data science";
  (* Tools & Platforms *)
  "git"; "linux"; "unix"; "windows"; "macos"; "jira"; "confluence"; "slack"; "notion";
  "figma"; "adobe"; "photoshop"; "illustrator"; "sketch"; "invision";
  (* Methodologies *)
  "agile"; "scrum"; "kanban"; "devops"; "microservices"; "rest api"; "graphql"; "soap";
  "tdd"; "bdd"; "oauth"; "jwt"; "websocket"; "grpc"
].

Definition SOFT_SKILLS : list string := [
  "leadership"; "communication"; "teamwork"; "problem solving"; "critical thinking";
  "time management"; "adaptability"; "creativity"; "collaboration"; "analytical";
  "decision making"; "interpersonal"; "presentation"; "negotiation"; "conflict resolution";
  "emotional intelligence"; "mentoring"; "coaching"; "strategic thinking"; "innovation";
  "customer service"; "attention to detail"; "multitasking"; "organization"; "self-motivated"
].

Definition TOOLS : list string := [
  "vscode"; "visual studio"; "intellij"; "pycharm"; "eclipse"; "sublime"; "atom";
  "postman"; "insomnia"; "swagger"; "tableau"; "power bi"; "excel"; "word"; "powerpoint";
  "trello"; "asana"; "monday"; "salesforce"; "hubspot"; "google analytics"; "mixpanel";
  "amplitude"; "segment"; "datadog"; "new relic"; "splunk"; "grafana"; "prometheus"
].

(** The dictionary returned by [extract_skills]. *)
Record Skills : Type := {
  all_skills : list string;
  technical_skills : list string;
  soft_skills : list string;
  tools : list string
}.

Definition no_skills : Skills :=
  {| all_skills := []; technical_skills := []; soft_skills := []; tools := [] |}.

(** [r'\b' + re.escape(skill) + r'\b'] *)
Definition word_pattern (skill : string) : regex := Cat Bnd (Cat (Lit skill) Bnd).

(** One of the three dictionary loops: every entry found between word
    boundaries is added, title-cased, to the set. *)
Definition dictionary_found (dictionary : list string) (text_lower : string) : gset string :=
  fold_left
    (fun found skill =>
       if Re.found (word_pattern skill) text_lower then found ∪ {[ title skill ]} else found)
    dictionary ∅.

Definition hyphen_or_space : regex := Cls (one_of "- ").

(** [\b( ... )\b] with the group around the whole alternative. *)
Definition bounded (r : regex) : regex := Cat Bnd (Cat (Grp r) Bnd).

Definition programming_patterns : list regex := [
  bounded (Alt (Cat (Lit "object") (Cat hyphen_or_space (Lit "oriented programming"))) (Lit "oop"));
  bounded (Lit "functional programming");
  bounded (Cat (Lit "data structure") (Opt (Chr "s")));
  bounded (Cat (Lit "algorithm") (Opt (Chr "s")));
  bounded (Cat (Lit "design pattern") (Opt (Chr "s")));
  bounded (Lit "api development");
  bounded (Lit "database design");
  bounded (Lit "ui/ux");
  bounded (Alt (Cat (Lit "front") (Cat hyphen_or_space (Lit "end"))) (Lit "frontend"));
  bounded (Alt (Cat (Lit "back") (Cat hyphen_or_space (Lit "end"))) (Lit "backend"));
  bounded (Alt (Cat (Lit "full") (Cat hyphen_or_space (Lit "stack"))) (Lit "fullstack"))
].

(** The loop over [programming_patterns]: every match is added,
    title-cased, to the technical skills. *)
Definition patterns_found (technical_found : gset string) (text_lower : string) : gset string :=
  fold_left
    (fun found pattern =>
       fold_left (fun found m => found ∪ {[ title m ]}) (findall pattern text_lower) found)
    programming_patterns technical_found.

Section WithModel.
Context `{Spacy.Model}.

(** [extract_skills(text)].  The argument is a [str], so of the guard
    only [not text] remains.  The document and [noun_chunks] are computed
    as in the source, which does not use them afterwards. *)
Definition extract_skills (text : string) : Skills :=
  if negb (truthy text) then no_skills else
  let text_lower := lower text in
  let technical_found := dictionary_found TECHNICAL_SKILLS text_lower in
  let soft_found := dictionary_found SOFT_SKILLS text_lower in
  let tools_found := dictionary_found TOOLS text_lower in
  let doc := Spacy.nlp (take 100000 text) in
  let noun_chunks := map lower (Spacy.noun_chunks doc) in
  let technical_found := patterns_found technical_found text_lower in
  let all_skills := technical_found ∪ soft_found ∪ tools_found in
  {| all_skills := sorted_set all_skills;
     technical_skills := sorted_set technical_found;
     soft_skills := sorted_set soft_found;
     tools := sorted_set tools_found |}.

(** [Counter(keywords)]: the distinct words in the order of their first
    occurrence, each with its number of occurrences. *)
Fixpoint counter_add (w : string) (c : list (string * nat)) : list (string * nat) :=
  match c with
  | [] => [(w, 1%nat)]
  | (w', n) :: t => if String.eqb w w' then (w', S n) :: t else (w', n) :: counter_add w t
  end.

Definition Counter (words : list string) : list (string * nat) :=
  fold_left (fun c w => counter_add w c) words [].

(** [c.most_common(n)] *)
Definition most_common (n : nat) (c : list (string * nat)) : list (string * nat) :=
  firstn n (sort_desc (fun x y => Nat.ltb (snd x) (snd y)) c).

(** [extract_keywords(text)] *)
Definition extract_keywords (text : string) : list string :=
  if negb (truthy text) || (len (strip text) <? 10) then [] else
  let doc := Spacy.nlp (take 100000 text) in
  let keywords :=
    map (fun token => lower (Spacy.text token))
        (filter (fun token =>
                   (String.eqb (Spacy.pos_ token) "NOUN" || String.eqb (Spacy.pos_ token) "PROPN")
                   && negb (Spacy.is_stop token)
                   && (2 <? len (Spacy.text token)))
                (Spacy.tokens doc)) in
  let keyword_freq := Counter keywords in
  map fst (most_common 50 keyword_freq).
End WithModel.

Definition action_verbs : list string := [
  "achieved"; "improved"; "developed"; "created"; "designed"; "implemented"; "managed";
  "led"; "coordinated"; "executed"; "launched"; "established"; "initiated"; "built";
  "streamlined"; "optimized"; "increased"; "reduced"; "enhanced"; "transformed";
  "delivered"; "spearheaded"; "pioneered"; "orchestrated"; "facilitated"; "generated";
  "resolved"; "accelerated"; "maximized"; "strengthened"; "collaborated"; "conducted";
  "analyzed"; "evaluated"; "strategized"; "formulated"; "demonstrated"; "exceeded"
].

(** [count_action_verbs(text)] *)
Definition count_action_verbs (text : string) : Z :=
  let text_lower := lower text in
  fold_left
    (fun count verb => count + Z.of_nat (length (findall (word_pattern verb) text_lower)))
    action_verbs 0.

End SkillExtractor.

(* ===================================================================== *)
(** * utils/ats_scorer.py                                                 *)
(* ===================================================================== *)

Module AtsScorer.
Import Py Re Num SkillExtractor.
Local Open Scope Q_scope.

(** The dictionary [scores], and also the dictionary that is returned. *)
Record Scores : Type := {
  overall_score : Q;
  keyword_density : Q;
  formatting : Q;
  action_verbs : Q;
  experience : Q;
  skill_match : Q
}.

Definition important_sections : list string := [
  "experience"; "education"; "skills"; "projects"; "certifications";
  "summary"; "objective"; "achievements"; "work history"
].

Definition upper_az (c : ascii) : bool := in_range 65 90 c.
Definition lower_az (c : ascii) : bool := in_range 97 122 c.

(** [\b[A-Za-z0-9._%+-]+@[A-Za-z0-9.-]+\.[A-Z|a-z]{2,}\b] *)
Definition email_pattern : regex :=
  Cat Bnd
    (Cat (Plus (Cls (fun c => upper_az c || lower_az c || isdigit c || one_of "._%+-" c)))
    (Cat (Chr "@")
    (Cat (Plus (Cls (fun c => upper_az c || lower_az c || isdigit c || one_of ".-" c)))
    (Cat (Chr ".")
    (Cat (AtLeast 2 (Cls (fun c => upper_az c || one_of "|" c || lower_az c)))
         Bnd))))).

(** [\b\d{3}[-.]?\d{3}[-.]?\d{4}\b] *)
Definition phone_pattern : regex :=
  Cat Bnd
    (Cat (Rep 3 (Cls isdigit))
    (Cat (Opt (Cls (one_of "-.")))
    (Cat (Rep 3 (Cls isdigit))
    (Cat (Opt (Cls (one_of "-.")))
    (Cat (Rep 4 (Cls isdigit))
         Bnd))))).

Definition month : regex :=
  Grp (fold_right Alt (Lit "dec")
         (map Lit ["jan"; "feb"; "mar"; "apr"; "may"; "jun"; "jul"; "aug"; "sep"; "oct"; "nov"])).

(** The class [[-–]]: the en dash lies above the characters of the model,
    which leaves the hyphen. *)
Definition dash : regex := Cls (one_of "-").

Definition date_patterns : list regex := [
  (* \b(jan|...|dec)[a-z]*\s+\d{4}\b *)
  Cat Bnd (Cat month (Cat (Star (Cls lower_az)) (Cat (Plus (Cls isspace)) (Cat (Rep 4 (Cls isdigit)) Bnd))));
  (* \b\d{4}\s*[-–]\s*\d{4}\b *)
  Cat Bnd (Cat (Rep 4 (Cls isdigit)) (Cat (Star (Cls isspace)) (Cat dash
    (Cat (Star (Cls isspace)) (Cat (Rep 4 (Cls isdigit)) Bnd)))));
  (* \b\d{4}\s*[-–]\s*present\b *)
  Cat Bnd (Cat (Rep 4 (Cls isdigit)) (Cat (Star (Cls isspace)) (Cat dash
    (Cat (Star (Cls isspace)) (Cat (Lit "present") Bnd)))))
].

(** Of the six bullet indicators the four typographic ones lie above the
    characters of the model. *)
Definition bullet_indicators : list string := ["-"; "*"].

(** [\b\d+[%$kKmM]?\b] *)
Definition number_pattern : regex :=
  Cat Bnd (Cat (Plus (Cls isdigit)) (Cat (Opt (Cls (one_of "%$kKmM"))) Bnd)).

Definition experience_keywords : list string := [
  "developed"; "managed"; "led"; "implemented"; "designed";
  "created"; "improved"; "increased"; "reduced"; "achieved"
].

(** [sum(1 for x in xs if p(x))] *)
Definition count_if {A} (p : A -> bool) (xs : list A) : Q := count (filter p xs).

Definition weight_keyword_density : Q := 0.40.
Definition weight_formatting : Q := 0.20.
Definition weight_action_verbs : Q := 0.15.
Definition weight_experience : Q := 0.15.
Definition weight_skill_match : Q := 0.10.

(** [sum(scores[key] * weights[key] for key in scores)], the keys in the
    order in which [scores] was built. *)
Definition weighted_sum (kd f av ex sm : Q) : Q :=
  Num.sum [kd * weight_keyword_density; f * weight_formatting; av * weight_action_verbs;
           ex * weight_experience; sm * weight_skill_match].

Section WithModel.
Context `{Spacy.Model}.

(** 1. Keyword density *)
Definition keyword_density_score (resume_text : string) : Q :=
  let technical_skills := SkillExtractor.technical_skills (extract_skills resume_text) in
  let text_lower := lower resume_text in
  let sections_found := count_if (fun section => contains section text_lower) important_sections in
  let section_score := Qmin (sections_found / 6 * 100) 100 in
  let keywords := extract_keywords resume_text in
  let keyword_score := Qmin (count keywords / 30 * 100) 100 in
  let tech_skill_score := Qmin (count technical_skills / 10 * 100) 100 in
  (section_score + keyword_score + tech_skill_score) / 3.

(** 2. Resume formatting *)
Definition formatting_score (resume_text : string) : Q :=
  let text_lower := lower resume_text in
  let formatting_score := 0 in
  let formatting_score :=
    if Re.found email_pattern resume_text then formatting_score + 20 else formatting_score in
  let formatting_score :=
    if Re.found phone_pattern resume_text then formatting_score + 20 else formatting_score in
  let dates_found := existsb (fun pattern => Re.found pattern text_lower) date_patterns in
  let formatting_score :=
    if dates_found then formatting_score + 20 else formatting_score in
  let has_bullets := existsb (fun indicator => contains indicator resume_text) bullet_indicators in
  let formatting_score :=
    if has_bullets then formatting_score + 20 else formatting_score in
  let word_count := Z.of_nat (length (split resume_text)) in
  if ((400 <=? word_count) && (word_count <=? 2000))%Z then formatting_score + 20
  else if (300 <? word_count)%Z then formatting_score + 10
  else formatting_score.

(** 3. Action verbs *)
Definition action_verbs_score (resume_text : string) : Q :=
  let action_verb_count := count_action_verbs resume_text in
  Qmin (inject_Z action_verb_count / 15 * 100) 100.

(** 4. Experience relevance *)
Definition experience_score (resume_text : string) : Q :=
  let text_lower := lower resume_text in
  let experience_score := 0 in
  let numbers := findall number_pattern resume_text in
  let experience_score :=
    if (5 <=? Z.of_nat (length numbers))%Z then experience_score + 50
    else if (2 <=? Z.of_nat (length numbers))%Z then experience_score + 25
    else experience_score in
  let exp_count := count_if (fun keyword => contains keyword text_lower) experience_keywords in
  experience_score + Qmin (exp_count / 5 * 50) 50.

(** 5. Skill match with the job *)
Definition skill_match_score (resume_text job_description : string) : Q :=
  let all_skills := SkillExtractor.all_skills (extract_skills resume_text) in
  if truthy job_description then
    let job_skills := extract_skills job_description in
    let job_all_skills := set_of (map lower (SkillExtractor.all_skills job_skills)) in
    let resume_all_skills := set_of (map lower all_skills) in
    if nonempty job_all_skills then
      let matched_skills := resume_all_skills ∩ job_all_skills in
      let match_ratio := card matched_skills / card job_all_skills in
      match_ratio * 100
    else 50
  else 50.

(** [calculate_ats_score(resume_text, job_description)] *)
Definition calculate_ats_score (resume_text job_description : string) : Scores :=
  let kd := keyword_density_score resume_text in
  let f := formatting_score resume_text in
  let av := action_verbs_score resume_text in
  let ex := experience_score resume_text in
  let sm := skill_match_score resume_text job_description in
  let final_score := weighted_sum kd f av ex sm in
  {| overall_score := round2 final_score;
     keyword_density := round2 kd;
     formatting := round2 f;
     action_verbs := round2 av;
     experience := round2 ex;
     skill_match := round2 sm |}.
End WithModel.

(** [get_score_interpretation(score)] *)
Definition get_score_interpretation (score : Q) : string :=
  if Qle_bool 80 score then "Excellent - Your resume is highly optimized for ATS systems"
  else if Qle_bool 70 score then "Good - Your resume should pass most ATS systems"
  else if Qle_bool 60 score then "Fair - Your resume needs some improvements"
  else if Qle_bool 50 score then "Poor - Your resume may not pass ATS screening"
  else "Critical - Your resume needs significant improvements".

End AtsScorer.

(* ===================================================================== *)
(** * utils/matcher.py                                                    *)
(* ===================================================================== *)

Module Matcher.
Import Py Re Num SkillExtractor.
Local Open Scope Q_scope.

(** The dictionary returned by [calculate_match_score]. *)
Record MatchResult : Type := {
  match_percentage : Q;
  matched_skills : list string;
  missing_skills : list string;
  matched_technical_skills : list string;
  missing_technical_skills : list string;
  cosine_similarity : Q
}.

Section WithLibraries.
Context `{Spacy.Model} `{Sklearn.Tfidf}.

(** The four sets of lower-cased skills. *)
Definition resume_all_skills (resume_text : string) : gset string :=
  set_of (map lower (all_skills (extract_skills resume_text))).
Definition job_all_skills (job_description : string) : gset string :=
  set_of (map lower (all_skills (extract_skills job_description))).
Definition resume_technical (resume_text : string) : gset string :=
  set_of (map lower (technical_skills (extract_skills resume_text))).
Definition job_technical (job_description : string) : gset string :=
  set_of (map lower (technical_skills (extract_skills job_description))).

Definition skill_match_rate (resume_text job_description : string) : Q :=
  let matched_skills := resume_all_skills resume_text ∩ job_all_skills job_description in
  if nonempty (job_all_skills job_description)
  then card matched_skills / card (job_all_skills job_description)
  else 0.5.

Definition technical_match_rate (resume_text job_description : string) : Q :=
  let matched_technical := resume_technical resume_text ∩ job_technical job_description in
  if nonempty (job_technical job_description)
  then card matched_technical / card (job_technical job_description)
  else 0.5.

(** The [try] block: the default stays unless both texts are long
    enough and the vectorizer and the similarity return. *)
Definition cosine_try (resume_text job_description : string) : result Q :=
  let cosine_sim := 0.5 in
  if ((10 <? len (strip resume_text)) && (10 <? len (strip job_description)))%Z
  then bind (Sklearn.tfidf_cosine resume_text job_description) (fun c => Ok c)
  else Ok cosine_sim.

(** [cosine_sim] after the [try] statement: the handler prints a
    warning and leaves the default. *)
Definition cosine_sim (resume_text job_description : string) : result Q :=
  try_except (cosine_try resume_text job_description) (fun _ => Ok 0.5).

(** [calculate_match_score(resume_text, job_description)] *)
Definition calculate_match_score (resume_text job_description : string)
    : result MatchResult :=
  let matched_skills := resume_all_skills resume_text ∩ job_all_skills job_description in
  let missing_skills := job_all_skills job_description ∖ resume_all_skills resume_text in
  let matched_technical := resume_technical resume_text ∩ job_technical job_description in
  let missing_technical := job_technical job_description ∖ resume_technical resume_text in
  let skill_match_rate := skill_match_rate resume_text job_description in
  let technical_match_rate := technical_match_rate resume_text job_description in
  bind (cosine_sim resume_text job_description) (fun cosine_sim =>
  let final_match :=
    (skill_match_rate * 0.40 + technical_match_rate * 0.30 + cosine_sim * 0.30) * 100 in
  Ok {| match_percentage := round2 final_match;
        matched_skills := sorted_set matched_skills;
        missing_skills := sorted_set missing_skills;
        matched_technical_skills := sorted_set matched_technical;
        missing_technical_skills := sorted_set missing_technical;
        cosine_similarity := round2 (cosine_sim * 100) |}).

(** The loop of [rank_resumes]: one pair per resume, in order. *)
Fixpoint rank_loop (idx : Z) (resumes : list string) (job_description : string)
    : result (list (Z * Q)) :=
  match resumes with
  | [] => Ok []
  | resume :: more =>
      bind (calculate_match_score resume job_description) (fun match_result =>
      bind (rank_loop (idx + 1) more job_description) (fun scores =>
      Ok ((idx, match_percentage match_result) :: scores)))
  end.

(** [rank_resumes(resumes, job_description)] *)
Definition rank_resumes (resumes : list string) (job_description : string)
    : result (list (Z * Q)) :=
  bind (rank_loop 0 resumes job_description) (fun scores =>
  Ok (sort_desc (fun x y => Qltb (snd x) (snd y)) scores)).
End WithLibraries.

(** [get_match_interpretation(score)] *)
Definition get_match_interpretation (score : Q) : string :=
  if Qle_bool 80 score then "Excellent Match - You're a strong candidate for this position"
  else if Qle_bool 70 score then "Good Match - Your profile aligns well with the job requirements"
  else if Qle_bool 60 score then "Fair Match - You meet some of the job requirements"
  else if Qle_bool 50 score then "Moderate Match - Consider developing additional skills"
  else "Low Match - Significant skill gap exists for this position".

End Matcher.

(* ===================================================================== *)
(** * utils/pdf_parser.py                                                 *)
(* ===================================================================== *)

Module PdfParser.
Import Py Re PdfLibs.

(** Which extractor was called; [parse_pdf] returns the calls it made, in
    order, next to its outcome. *)
Inductive call : Type :=
| CallPdfplumber
| CallPyMuPDF.

Section WithLibraries.
Context `{Extractors}.

(** [extract_text_with_pdfplumber(file_content)] *)
Definition extract_text_with_pdfplumber (file_content : bytes) : string :=
  match pdfplumber_pages file_content with
  | Ok pages =>
      let text :=
        fold_left
          (fun text page_text =>
             match page_text with
             | Some page_text =>
                 if truthy page_text then text +:+ page_text +:+ nl else text
             | None => text
             end)
          pages "" in
      strip text
  | Raise _ => ""
  end.

(** [extract_text_with_pymupdf(file_content)] *)
Definition extract_text_with_pymupdf (file_content : bytes) : string :=
  match fitz_pages file_content with
  | Ok pages =>
      let text := fold_left (fun text page_text => text +:+ page_text +:+ nl) pages "" in
      strip text
  | Raise _ => ""
  end.

(** [parse_pdf(file_content)] *)
Definition parse_pdf (file_content : bytes) : list call * result string :=
  match file_content with
  | [] => ([], Raise (ValueError "Empty PDF file provided"))
  | _ =>
      let text := extract_text_with_pdfplumber file_content in
      let calls := [CallPdfplumber] in
      let '(calls, text) :=
        if negb (truthy text) || (len text <? 50)
        then (calls ++ [CallPyMuPDF], extract_text_with_pymupdf file_content)
        else (calls, text) in
      if negb (truthy text)
      then (calls, Raise (ValueError
              "Could not extract text from PDF. Please ensure the PDF contains readable text."))
      else (calls, Ok text)
  end.

(** The condition under which [parse_pdf] turns to PyMuPDF, and the text
    it goes on with. *)
Definition falls_back (file_content : bytes) : bool :=
  let text := extract_text_with_pdfplumber file_content in
  negb (truthy text) || (len text <? 50).

Definition selected (file_content : bytes) : string :=
  if falls_back file_content
  then extract_text_with_pymupdf file_content
  else extract_text_with_pdfplumber file_content.
End WithLibraries.

(** Python values that may reach [clean_text]. *)
Inductive value : Type :=
| VNone
| VInt (n : Z)
| VBytes (b : bytes)
| VStr (s : string).

Definition value_truthy (v : value) : bool :=
  match v with
  | VNone => false
  | VInt n => negb (n =? 0)
  | VBytes b => match b with [] => false | _ => true end
  | VStr s => truthy s
  end.

Definition isinstance_str (v : value) : bool :=
  match v with VStr _ => true | _ => false end.

(** The class [[^\w\s.,\-()#+/@]] *)
Definition special (c : ascii) : bool :=
  negb (isword c || isspace c || one_of ".,-()#+/@" c).

(** [clean_text(text)] *)
Definition clean_text (text : value) : string :=
  if negb (value_truthy text) || negb (isinstance_str text) then "" else
  match text with
  | VStr text =>
      let text := implode (replace_char "013" " " (replace_char "000" " " (explode text))) in
      let text := join " " (split text) in
      let text := Re.sub (Cls special) " " text in
      let text := Re.sub (Plus (Cls isspace)) " " text in
      let text := if 1000000 <? len text then take 1000000 text else text in
      strip text
  | _ => ""
  end.

(** The text after the two substitutions of [clean_text]. *)
Definition substituted (l : chars) : chars :=
  squeeze isspace [" "%char] false (replace_class special [" "%char] l).

(** The three properties that the substitutions establish and that
    truncation and stripping keep. *)
Record tidy (l : chars) : Prop := {
  tidy_allowed : Forall (fun c => special c = false) l;
  tidy_spaces : Forall (fun c => isspace c = true -> c = " "%char) l;
  tidy_pairs : has_space_pair l = false
}.

End PdfParser.

(* ===================================================================== *)
(** * utils/ai_feedback.py                                                *)
(* ===================================================================== *)

Module AiFeedback.
Import Py Re Llm.

Section WithEnv.
Context `{Env}.

(** [AI_PROVIDER = os.getenv("AI_PROVIDER", "gemini").lower()] *)
Definition AI_PROVIDER : string := lower (default "gemini" (getenv "AI_PROVIDER")).

(** The prompt of [get_ai_feedback]. *)
Definition make_prompt (resume_text : string) (extracted_skills : list string)
    (job_description : string) (missing_skills : list string) : string :=
  join nl [
    "You are a professional ATS resume evaluator and recruiter with 10+ years of experience.";
    "";
    "Analyze this resume text:";
    take 3000 resume_text;
    "";
    "Extracted Skills:";
    join ", " (take_list 30 extracted_skills);
    "";
    "Target Job Description:";
    (if truthy job_description then take 2000 job_description
     else "General professional resume evaluation");
    "";
    "Missing Skills:";
    (match missing_skills with
     | [] => "None identified"
     | _ => join ", " (take_list 20 missing_skills)
     end);
    "";
    "Provide a detailed analysis in JSON format with the following structure:";
    "{";
    "    " +:+ dq +:+ "ats_score" +:+ dq +:+ ": <number 0-100>,";
    "    " +:+ dq +:+ "missing_skills" +:+ dq +:+ ": [<list of critical missing skills>],";
    "    " +:+ dq +:+ "improvements" +:+ dq +:+ ": [";
    "        " +:+ dq +:+ "5 specific improvements to increase ATS ranking" +:+ dq;
    "    ],";
    "    " +:+ dq +:+ "rewritten_bullets" +:+ dq +:+ ": [";
    "        " +:+ dq
      +:+ "3 rewritten bullet points using strong action verbs and quantifiable metrics" +:+ dq;
    "    ],";
    "    " +:+ dq +:+ "recruiter_summary" +:+ dq +:+ ": " +:+ dq
      +:+ "A 2-3 sentence summary of the candidate's profile and fit for the role" +:+ dq;
    "}";
    "";
    "Focus on:";
    "1. ATS optimization techniques";
    "2. Quantifiable achievements";
    "3. Action verb usage";
    "4. Keyword optimization";
    "5. Skill gaps";
    "";
    "Return ONLY valid JSON, no additional text."
  ].

(** [```json\s*(\{.*?\})\s*```] with [re.DOTALL] *)
Definition fenced_json : regex :=
  Cat (Lit "```json")
    (Cat (Star (Cls isspace))
    (Cat (Grp (Cat (Chr "{") (Cat (Lazy Any) (Chr "}"))))
    (Cat (Star (Cls isspace))
         (Lit "```")))).

(** [\{.*\}] with [re.DOTALL] *)
Definition bare_json : regex := Cat (Chr "{") (Cat (Star Any) (Chr "}")).

(** The text that [extract_json] hands to [json.loads]: the group of
    the fenced block, else the outermost braces, else the whole text. *)
Definition json_candidate (text : string) : string :=
  match Re.search fenced_json text with
  | Some json_match => default "" (group1 json_match)
  | None =>
      match Re.search bare_json text with
      | Some json_match => whole json_match
      | None => text
      end
  end.

(** [extract_json(text)] *)
Definition extract_json (text : string) : result Json.value :=
  let text := json_candidate text in
  try_except (json_loads text)
    (fun e =>
       match e with
       | JSONDecodeError _ => Raise (ValueError "Could not parse AI response as JSON")
       | _ => Raise e
       end).

(** [get_openai_feedback(prompt)]; the handler prints and raises again. *)
Definition get_openai_feedback (prompt : string) : result Json.value :=
  try_except
    (bind import_openai (fun _ =>
     let api_key := getenv "OPENAI_API_KEY" in
     match api_key with
     | Some (String _ _ as api_key) =>
         bind (openai_chat api_key prompt) (fun content =>
         let feedback_text := strip content in
         extract_json feedback_text)
     | _ => Raise (ValueError "OpenAI API key not found")
     end))
    (fun e => Raise e).

(** [get_gemini_feedback(prompt)] *)
Definition get_gemini_feedback (prompt : string) : result Json.value :=
  try_except
    (bind import_genai (fun _ =>
     let api_key := getenv "GEMINI_API_KEY" in
     match api_key with
     | Some (String _ _ as api_key) =>
         bind (gemini_generate api_key prompt) (fun response_text =>
         let feedback_text := strip response_text in
         extract_json feedback_text)
     | _ => Raise (ValueError "Gemini API key not found")
     end))
    (fun e => Raise e).
End WithEnv.

Definition default_improvements : list string := [
  "Add quantifiable achievements with specific metrics (e.g., 'Increased sales by 25%')";
  "Use strong action verbs at the start of each bullet point (e.g., 'Developed', 'Led', 'Implemented')";
  "Include relevant technical skills and tools mentioned in the job description";
  "Optimize your resume format for ATS by using standard section headings";
  "Add a professional summary highlighting your key qualifications and career objectives"
].

Definition default_rewritten_bullets : list string := [
  "Developed and implemented scalable web applications using React and Node.js, resulting in 40% faster page load times";
  "Led a cross-functional team of 5 developers to deliver a mission-critical project 2 weeks ahead of schedule";
  "Optimized database queries and reduced server response time by 35%, improving overall system performance"
].

(** The f-string of [recruiter_summary]. *)
Definition default_summary (extracted_skills missing_skills : list string) : string :=
  "Candidate demonstrates strong technical skills including "
  +:+ join ", " (take_list 5 extracted_skills)
  +:+ ". To improve chances, focus on quantifying achievements and addressing skill gaps in "
  +:+ (match missing_skills with
       | [] => "emerging technologies"
       | _ => join ", " (take_list 3 missing_skills)
       end)
  +:+ ". Overall profile shows good potential with room for optimization.".

(** [get_default_feedback(extracted_skills, missing_skills)] *)
Definition get_default_feedback (extracted_skills missing_skills : list string) : Json.value :=
  Json.Obj [
    ("ats_score", Json.Int 70);
    ("missing_skills",
      Json.Arr (map Json.Str
        (match missing_skills with [] => [] | _ => take_list 10 missing_skills end)));
    ("improvements", Json.Arr (map Json.Str default_improvements));
    ("rewritten_bullets", Json.Arr (map Json.Str default_rewritten_bullets));
    ("recruiter_summary", Json.Str (default_summary extracted_skills missing_skills))
  ].

Section WithEnv.
Context `{Env}.

(** [get_ai_feedback(resume_text, extracted_skills, job_description,
    missing_skills)]; [missing_skills] defaults to [None]. *)
Definition get_ai_feedback (resume_text : string) (extracted_skills : list string)
    (job_description : string) (missing_skills : option (list string))
    : result Json.value :=
  let missing_skills := default [] missing_skills in
  let prompt := make_prompt resume_text extracted_skills job_description missing_skills in
  try_except
    (if String.eqb AI_PROVIDER "openai" then get_openai_feedback prompt
     else if String.eqb AI_PROVIDER "gemini" then get_gemini_feedback prompt
     else Ok (get_default_feedback extracted_skills missing_skills))
    (fun e => Ok (get_default_feedback extracted_skills missing_skills)).


End WithEnv.

End AiFeedback.

(* ===================================================================== *)
(** * models.py and the routes that write to the database                  *)
(* ===================================================================== *)

Module Models.

(** The rows of the four tables; the primary key is the key of the table,
    [created_at] plays no part and is left out. *)
Record User : Type := {
  email : string;
  password_hash : string
}.

Record Resume : Type := {
  user_id : Z;
  filename : string;
  raw_text : string;
  extracted_skills : list string;
  technical_skills : list string;
  soft_skills : list string;
  tools : list string;
  ats_score : Q
}.

Record Job : Type := {
  title : string;
  description : string;
  required_skills : list string
}.

Record JobMatch : Type := {
  resume_id : Z;
  job_id : Z;
  match_percentage : Q;
  missing_skills : list string;
  ai_feedback : option string
}.

(** The database: one finite map per table. *)
Record DB : Type := {
  users : gmap Z User;
  resumes : gmap Z Resume;
  jobs : gmap Z Job;
  job_matches : gmap Z JobMatch
}.

Definition empty_db : DB :=
  {| users := ∅; resumes := ∅; jobs := ∅; job_matches := ∅ |}.

(** The key given to a new row: one more than the largest key. *)
Definition next_id {V} (table : gmap Z V) : Z :=
  1 + set_fold Z.max 0 (dom table).

(** [db.add(row); db.commit()] *)
Definition add_user (u : User) (db : DB) : DB :=
  {| users := <[next_id (users db) := u]> (users db);
     resumes := resumes db; jobs := jobs db; job_matches := job_matches db |}.

Definition add_resume (r : Resume) (db : DB) : DB :=
  {| users := users db;
     resumes := <[next_id (resumes db) := r]> (resumes db);
     jobs := jobs db; job_matches := job_matches db |}.

Definition add_job (j : Job) (db : DB) : DB :=
  {| users := users db; resumes := resumes db;
     jobs := <[next_id (jobs db) := j]> (jobs db);
     job_matches := job_matches db |}.

Definition add_job_match (m : JobMatch) (db : DB) : DB :=
  {| users := users db; resumes := resumes db; jobs := jobs db;
     job_matches := <[next_id (job_matches db) := m]> (job_matches db) |}.

(** [session.delete(resume)]: [Resume.job_matches] is declared with
    [cascade="all, delete-orphan"], so the matches of the resume go with
    it. *)
Definition session_delete_resume (rid : Z) (db : DB) : DB :=
  {| users := users db;
     resumes := delete rid (resumes db);
     jobs := jobs db;
     job_matches := filter (fun km => resume_id km.2 ≠ rid) (job_matches db) |}.

(** [session.delete(job)]: [Job.job_matches] has the same cascade. *)
Definition session_delete_job (jid : Z) (db : DB) : DB :=
  {| users := users db;
     resumes := resumes db;
     jobs := delete jid (jobs db);
     job_matches := filter (fun km => job_id km.2 ≠ jid) (job_matches db) |}.

(** The three relationships: [User.resumes], [Resume.job_matches] and
    [Job.job_matches], as the session loads them. *)
Definition resumes_of (uid : Z) (db : DB) : gmap Z Resume :=
  filter (fun kr => user_id kr.2 = uid) (resumes db).

Definition matches_of_resume (rid : Z) (db : DB) : gmap Z JobMatch :=
  filter (fun km => resume_id km.2 = rid) (job_matches db).

Definition matches_of_job (jid : Z) (db : DB) : gmap Z JobMatch :=
  filter (fun km => job_id km.2 = jid) (job_matches db).

(** [session.delete(user)]: [User.resumes] is declared with
    [cascade="all, delete-orphan"]; each resume of the user is deleted as
    [session.delete] deletes it, and then the user. *)
Definition session_delete_user (uid : Z) (db : DB) : DB :=
  let db := set_fold session_delete_resume db (dom (resumes_of uid db)) in
  {| users := delete uid (users db);
     resumes := resumes db; jobs := jobs db; job_matches := job_matches db |}.

(** Modelled from the spec: [get_current_user] of [auth.py], which is not
    among the sources.  A request acts for a stored user (a Resume belongs
    to exactly one User); without one the request is rejected. *)
Definition get_current_user (uid : Z) (db : DB) : option Z :=
  if bool_decide (is_Some (users db !! uid)) then Some uid else None.

(** [register] of [main.py]: the email must be new. *)
Definition register (u : User) (db : DB) : DB :=
  if bool_decide (map_Exists (fun _ u' => email u' = email u) (users db))
  then db else add_user u db.

(** [upload_resume] of [resume.py], from the point where the analysis has
    produced the row: it is stored under the current user. *)
Definition upload_resume (uid : Z) (r : Resume) (db : DB) : DB :=
  match get_current_user uid db with
  | Some current_user =>
      add_resume {| user_id := current_user; filename := filename r; raw_text := raw_text r;
                    extracted_skills := extracted_skills r;
                    technical_skills := technical_skills r;
                    soft_skills := soft_skills r; tools := tools r;
                    ats_score := ats_score r |} db
  | None => db
  end.

(** [create_job] of [jobs.py] *)
Definition create_job (uid : Z) (j : Job) (db : DB) : DB :=
  match get_current_user uid db with
  | Some _ => add_job j db
  | None => db
  end.

(** [delete_resume] of [resume.py]: the resume must exist and belong to
    the current user, otherwise the answer is 404 and nothing changes. *)
Definition delete_resume (uid rid : Z) (db : DB) : DB :=
  match get_current_user uid db with
  | Some current_user =>
      match resumes db !! rid with
      | Some resume =>
          if bool_decide (user_id resume = current_user)
          then session_delete_resume rid db
          else db
      | None => db
      end
  | None => db
  end.

(** Modelled from the spec: no route of the sources stores a JobMatch.  A
    JobMatch references exactly one Resume and one Job, so a match is stored
    for a stored resume and a stored job only. *)
Definition store_job_match (m : JobMatch) (db : DB) : DB :=
  if bool_decide (is_Some (resumes db !! resume_id m))
     && bool_decide (is_Some (jobs db !! job_id m))
  then add_job_match m db else db.

(** The operations that create or delete rows. *)
Inductive op : Type :=
| Register (u : User)
| UploadResume (uid : Z) (r : Resume)
| CreateJob (uid : Z) (j : Job)
| StoreJobMatch (m : JobMatch)
| DeleteResume (uid rid : Z)
| DeleteUser (uid : Z)
| DeleteJob (jid : Z).

Definition step (db : DB) (o : op) : DB :=
  match o with
  | Register u => register u db
  | UploadResume uid r => upload_resume uid r db
  | CreateJob uid j => create_job uid j db
  | StoreJobMatch m => store_job_match m db
  | DeleteResume uid rid => delete_resume uid rid db
  | DeleteUser uid => session_delete_user uid db
  | DeleteJob jid => session_delete_job jid db
  end.

Definition run (ops : list op) (db : DB) : DB := fold_left step ops db.

(** Every reference of a row leads to a stored row. *)
Definition resumes_have_users (db : DB) : Prop :=
  ∀ rid r, resumes db !! rid = Some r → is_Some (users db !! user_id r).

Definition matches_have_resumes (db : DB) : Prop :=
  ∀ mid m, job_matches db !! mid = Some m → is_Some (resumes db !! resume_id m).

Definition matches_have_jobs (db : DB) : Prop :=
  ∀ mid m, job_matches db !! mid = Some m → is_Some (jobs db !! job_id m).

Definition integrity (db : DB) : Prop :=
  resumes_have_users db ∧ matches_have_resumes db ∧ matches_have_jobs db.

End Models.

(* ===================================================================== *)
(** * Notions used to state further properties                             *)
(* ===================================================================== *)

Module Notions.
Import Py Re SkillExtractor.

(** The test of the loop of [extract_keywords] on a token. *)
Definition is_keyword_token (token : Spacy.Token) : bool :=
  (String.eqb (Spacy.pos_ token) "NOUN" || String.eqb (Spacy.pos_ token) "PROPN")
  && negb (Spacy.is_stop token)
  && (2 <? len (Spacy.text token)).

(** The list [keywords] of [extract_keywords] before it is counted. *)
Definition keyword_candidates `{Spacy.Model} (text : string) : list string :=
  map (fun token => lower (Spacy.text token))
      (filter is_keyword_token (Spacy.tokens (Spacy.nlp (take 100000 text)))).

(** [c[w]] for a counter. *)
Fixpoint counted (c : list (string * nat)) (w : string) : nat :=
  match c with
  | [] => O
  | (w', n) :: t => if String.eqb w w' then n else counted t w
  end.

(** One pair of [rank_resumes] stands before another: its score is higher,
    or the scores are equal and its index is lower. *)
Definition ranks_before (p q : Z * Q) : Prop :=
  (snd q < snd p)%Q \/ ((snd p == snd q)%Q /\ fst p < fst q).

(** The key comparison of the sort in [rank_resumes]. *)
Definition score_lt (x y : Z * Q) : bool := Num.Qltb (snd x) (snd y).

(** [text[:1_000_000]] when the text is longer, on characters. *)
Definition truncate (l : chars) : chars :=
  if 1000000 <? Z.of_nat (length l) then take_chars 1000000 l else l.

(** The steps of [clean_text] on the characters of a non-empty string, with
    the two substitutions written out. *)
Definition clean_chars (l : chars) : chars :=
  strip_chars
    (truncate
       (squeeze isspace [" "%char] false
          (replace_class PdfParser.special [" "%char]
             (join_chars [" "%char]
                (split_chars (replace_char "013" " " (replace_char "000" " " l))))))).

(** No two users have the same email. *)
Definition emails_unique (db : Models.DB) : Prop :=
  forall k1 k2 u1 u2,
    Models.users db !! k1 = Some u1 -> Models.users db !! k2 = Some u2 ->
    Models.email u1 = Models.email u2 -> k1 = k2.

End Notions.


(* ===================================================================== *)
(** * resume.py: the routes                                                *)
(* ===================================================================== *)

Module ResumeRoutes.
Import Py PdfLibs PdfParser Models.

(** [HTTPException(status_code=..., detail=...)] *)
Record HTTPException : Type := {
  status_code : Z;
  detail : string
}.

(** The outcome of a request.  The dependency [get_current_user] runs
    before the route; when it refuses the request the route does not run. *)
Inductive response (A : Type) : Type :=
| Unauthorized
| Failed (e : HTTPException)
| Returned (a : A).
Arguments Unauthorized {A}.
Arguments Failed {A} e.
Arguments Returned {A} a.

(** What the [try] block of [upload_resume] may raise: an [HTTPException]
    of the route, or an exception of the code it calls. *)
Inductive raised : Type :=
| Http (e : HTTPException)
| Exn (e : exn).

(** [s.endswith(suffix)] *)
Definition endswith (suffix s : string) : bool :=
  starts_with (rev (explode suffix)) (rev (explode s)).

Definition not_found : HTTPException :=
  {| status_code := 404; detail := "Resume not found" |}.

(** [db.query(Resume).filter(Resume.id == resume_id,
    Resume.user_id == current_user.id).first()] *)
Definition query_resume (resume_id current_user : Z) (db : DB) : option Resume :=
  match resumes db !! resume_id with
  | Some resume => if bool_decide (user_id resume = current_user) then Some resume else None
  | None => None
  end.

Section WithLibraries.
Context `{Spacy.Model} `{Extractors}.

(** The [try] block of [upload_resume] up to the new row.  The size of the
    file is the number of its bytes. *)
Definition upload_try (file_filename : string) (content : bytes) (current_user : Z)
  : raised + Resume :=
  let file_size := Z.of_nat (length content) in
  if 10 * 1024 * 1024 <? file_size
  then inl (Http {| status_code := 413; detail := "File too large. Maximum size is 10MB." |})
  else
    match snd (parse_pdf content) with
    | Raise e => inl (Exn e)
    | Ok raw_text =>
        let cleaned_text := clean_text (VStr raw_text) in
        if len cleaned_text <? 100
        then inl (Http {| status_code := 400;
                          detail := "Resume text is too short. Please upload a complete resume." |})
        else
          let skills_data := SkillExtractor.extract_skills cleaned_text in
          let ats_result := AtsScorer.calculate_ats_score cleaned_text "" in
          inr {| user_id := current_user;
                 filename := file_filename;
                 raw_text := cleaned_text;
                 extracted_skills := SkillExtractor.all_skills skills_data;
                 technical_skills := SkillExtractor.technical_skills skills_data;
                 soft_skills := SkillExtractor.soft_skills skills_data;
                 tools := SkillExtractor.tools skills_data;
                 ats_score := AtsScorer.overall_score ats_result |}
    end.

(** [upload_resume(file, current_user, db)]: the answer, which on success
    is the new row with its key, and the database afterwards.  A
    [JSONDecodeError] is a [ValueError]. *)
Definition upload_resume (file_filename : string) (content : bytes) (uid : Z) (db : DB)
  : response (Z * Resume) * DB :=
  match get_current_user uid db with
  | None => (Unauthorized, db)
  | Some current_user =>
      if negb (endswith ".pdf" file_filename)
      then (Failed {| status_code := 400; detail := "Only PDF files are allowed" |}, db)
      else
        match upload_try file_filename content current_user with
        | inr new_resume =>
            (Returned (next_id (resumes db), new_resume), add_resume new_resume db)
        | inl (Exn (ValueError e)) | inl (Exn (JSONDecodeError e)) =>
            (Failed {| status_code := 400; detail := e |}, db)
        | inl (Http e) => (Failed e, db)
        | inl (Exn (OtherError _)) =>
            (Failed {| status_code := 500;
                       detail := "Error processing resume. Please ensure the PDF is valid and contains readable text." |},
             db)
        end
  end.

(** [get_user_resumes(current_user, db)]: the rows with their keys. *)
Definition get_user_resumes (uid : Z) (db : DB) : response (gmap Z Resume) :=
  match get_current_user uid db with
  | None => Unauthorized
  | Some current_user => Returned (resumes_of current_user db)
  end.

(** [get_resume(resume_id, current_user, db)] *)
Definition get_resume (resume_id uid : Z) (db : DB) : response Resume :=
  match get_current_user uid db with
  | None => Unauthorized
  | Some current_user =>
      match query_resume resume_id current_user db with
      | None => Failed not_found
      | Some resume => Returned resume
      end
  end.

(** [analyze_resume(resume_id, current_user, db)]: the answer, which on
    success holds the updated row and the breakdown, and the database
    afterwards. *)
Definition analyze_resume (resume_id uid : Z) (db : DB)
  : response (Resume * AtsScorer.Scores) * DB :=
  match get_current_user uid db with
  | None => (Unauthorized, db)
  | Some current_user =>
      match query_resume resume_id current_user db with
      | None => (Failed not_found, db)
      | Some resume =>
          let skills_data := SkillExtractor.extract_skills (raw_text resume) in
          let ats_result := AtsScorer.calculate_ats_score (raw_text resume) "" in
          let resume :=
            {| user_id := user_id resume;
               filename := filename resume;
               raw_text := raw_text resume;
               extracted_skills := SkillExtractor.all_skills skills_data;
               technical_skills := SkillExtractor.technical_skills skills_data;
               soft_skills := SkillExtractor.soft_skills skills_data;
               tools := SkillExtractor.tools skills_data;
               ats_score := AtsScorer.overall_score ats_result |} in
          (Returned (resume, ats_result),
           {| users := users db;
              resumes := <[resume_id := resume]> (resumes db);
              jobs := jobs db;
              job_matches := job_matches db |})
      end
  end.
End WithLibraries.

(** The scores that a row may hold. *)
Definition score_in_range (r : Resume) : Prop := (0 <= ats_score r <= 100)%Q.

End ResumeRoutes.


(* ===================================================================== *)
(** * Sample libraries                                                     *)
(* ===================================================================== *)

(** Instances of the interfaces, on which the statements below are run. *)
Module Samples.
Import Py Llm.

(** Extractors of which the first finds too little and the second a full
    line. *)
Definition short_then_long : PdfLibs.Extractors := {|
  PdfLibs.pdfplumber_pages := fun _ => Ok [Some "Resume"];
  PdfLibs.fitz_pages := fun _ => Ok ["Jane Doe, engineer"]
|}.

(** A pipeline without noun chunks and a vectorizer that raises. *)
Definition plain_model : Spacy.Model :=
  {| Spacy.nlp := fun _ => {| Spacy.tokens := []; Spacy.noun_chunks := [] |} |}.

Definition failing_tfidf : Sklearn.Tfidf :=
  {| Sklearn.tfidf_cosine := fun _ _ => Raise (ValueError "empty vocabulary") |}.


(** A pipeline that finds the noun chunk of the sample text. *)
Definition chunking_model : Spacy.Model :=
  {| Spacy.nlp := fun _ =>
       {| Spacy.tokens := []; Spacy.noun_chunks := ["quantum widgets"] |} |}.

(** A pipeline that splits a text at whitespace and tags every word as a
    noun. *)
Definition nouns_model : Spacy.Model :=
  {| Spacy.nlp := fun text =>
       {| Spacy.tokens :=
            map (fun w => {| Spacy.text := w; Spacy.pos_ := "NOUN"; Spacy.is_stop := false |})
                (split text);
          Spacy.noun_chunks := [] |} |}.

(** A vectorizer under which any two texts are a quarter alike. *)
Definition quarter_tfidf : Sklearn.Tfidf :=
  {| Sklearn.tfidf_cosine := fun _ _ => Ok (1 # 4)%Q |}.

(** A process with a key for Gemini whose model answers with prose. *)
Definition chatty_gemini : Env := {|
  getenv := fun name => if String.eqb name "GEMINI_API_KEY" then Some "key" else None;
  import_openai := Raise (OtherError "No module named 'openai'");
  openai_chat := fun _ _ => Raise (OtherError "unreachable");
  import_genai := Ok tt;
  gemini_generate := fun _ _ => Ok "I cannot help with that";
  json_loads := fun _ => Raise (JSONDecodeError "Expecting value")
|}.

(** A database with two users and one resume of each. *)
Definition alice : Models.User :=
  {| Models.email := "alice@example.com"; Models.password_hash := "$2b$12$a" |}.

Definition bob : Models.User :=
  {| Models.email := "bob@example.com"; Models.password_hash := "$2b$12$b" |}.

Definition analysed (name : string) : Models.Resume :=
  {| Models.user_id := 0; Models.filename := name; Models.raw_text := "Python developer";
     Models.extracted_skills := ["Python"]; Models.technical_skills := ["Python"];
     Models.soft_skills := []; Models.tools := []; Models.ats_score := 50 |}.

Definition two_users : Models.DB :=
  Models.run [Models.Register alice; Models.Register bob;
              Models.UploadResume 1 (analysed "alice.pdf");
              Models.UploadResume 2 (analysed "bob.pdf")] Models.empty_db.

(** Extractors of which the first finds a page of a resume. *)
Definition one_page : PdfLibs.Extractors := {|
  PdfLibs.pdfplumber_pages := fun _ =>
    Ok [Some "Jane Doe, jane@example.com. Python developer with 5 years of experience. Developed and managed SQL databases and led a team of four engineers."];
  PdfLibs.fitz_pages := fun _ => Raise (OtherError "not called")
|}.

(** A process with a key for Gemini whose model answers with an empty JSON
    object. *)
Definition helpful_gemini : Env := {|
  getenv := fun name => if String.eqb name "GEMINI_API_KEY" then Some "key" else None;
  import_openai := Raise (OtherError "No module named 'openai'");
  openai_chat := fun _ _ => Raise (OtherError "unreachable");
  import_genai := Ok tt;
  gemini_generate := fun _ _ => Ok "{}";
  json_loads := fun s =>
    if String.eqb s "{}" then Ok (Json.Obj []) else Raise (JSONDecodeError "Expecting value")
|}.

End Samples.

(* ===================================================================== *)
(** * Facts about Python strings and the matcher                            *)
(* ===================================================================== *)

Module PyFacts.
Import Py.

Lemma explode_implode (l : chars) : explode (implode l) = l.
Proof. apply list_ascii_of_string_of_list_ascii. Qed.

Lemma implode_explode (s : string) : implode (explode s) = s.
Proof. apply string_of_list_ascii_of_string. Qed.

Lemma length_explode (s : string) : length (explode s) = String.length s.
Proof. induction s as [|c s IH]; simpl; [reflexivity | now rewrite IH]. Qed.

Lemma len_implode (l : chars) : len (implode l) = Z.of_nat (length l).
Proof. unfold len. now rewrite <- length_explode, explode_implode. Qed.

Lemma truthy_false (s : string) : truthy s = false -> s = "".
Proof. now destruct s. Qed.

(** ** Prefixes: [take] *)

Lemma take_chars_length (n : N) (l : chars) :
  Z.of_nat (length (take_chars n l)) <= Z.of_N n.
Proof.
  revert n; induction l as [|c t IH]; intros n; simpl; [lia|].
  destruct (N.eqb_spec n 0) as [->|Hn]; simpl; [lia|].
  specialize (IH (N.pred n)). lia.
Qed.

Lemma take_chars_Forall (P : ascii -> Prop) (n : N) (l : chars) :
  Forall P l -> Forall P (take_chars n l).
Proof.
  intros HP; revert n; induction HP as [|c t Hc Ht IH]; intros n; simpl; [constructor|].
  destruct (n =? 0)%N; constructor; auto.
Qed.

Lemma take_chars_head (n : N) (l : chars) (c : ascii) :
  head (take_chars n l) = Some c -> head l = Some c.
Proof. destruct l as [|d t]; simpl; [easy|]. now destruct (n =? 0)%N. Qed.

Lemma take_chars_space_pair (n : N) (l : chars) :
  has_space_pair l = false -> has_space_pair (take_chars n l) = false.
Proof.
  revert n; induction l as [|c t IH]; intros n Hl; simpl; [reflexivity|].
  destruct (n =? 0)%N; [reflexivity|].
  destruct t as [|d t']; [reflexivity|].
  simpl in Hl. apply orb_false_iff in Hl as [Hcd Ht].
  specialize (IH (N.pred n) Ht). simpl in IH |- *.
  destruct (N.pred n =? 0)%N; [reflexivity|].
  now rewrite Hcd, IH.
Qed.

(** ** [strip] *)

Lemma lstrip_Forall (P : ascii -> Prop) (l : chars) :
  Forall P l -> Forall P (lstrip_chars l).
Proof.
  induction 1 as [|c t Hc Ht IH]; simpl; [constructor|].
  destruct (isspace c); [assumption | now constructor].
Qed.

Lemma lstrip_length (l : chars) : (length (lstrip_chars l) <= length l)%nat.
Proof. induction l as [|c t IH]; simpl; [lia|]. destruct (isspace c); simpl; lia. Qed.

Lemma lstrip_head (l : chars) (c : ascii) :
  head (lstrip_chars l) = Some c -> isspace c = false.
Proof.
  induction l as [|d t IH]; simpl; [easy|].
  destruct (isspace d) eqn:Hd; [assumption|]. simpl. now intros [= <-].
Qed.

Lemma lstrip_space_pair (l : chars) :
  has_space_pair l = false -> has_space_pair (lstrip_chars l) = false.
Proof.
  induction l as [|c t IH]; intros Hl; simpl; [reflexivity|].
  destruct (isspace c); [|assumption].
  apply IH. destruct t; [reflexivity|]. simpl in Hl. now apply orb_false_iff in Hl as [_ ?].
Qed.

Lemma rstrip_Forall (P : ascii -> Prop) (l : chars) :
  Forall P l -> Forall P (rstrip_chars l).
Proof.
  induction 1 as [|c t Hc Ht IH]; simpl; [constructor|].
  destruct (rstrip_chars t) eqn:E.
  - destruct (isspace c); constructor; [assumption | constructor].
  - now constructor.
Qed.

Lemma rstrip_length (l : chars) : (length (rstrip_chars l) <= length l)%nat.
Proof.
  induction l as [|c t IH]; simpl; [lia|].
  destruct (rstrip_chars t); [destruct (isspace c)|]; simpl in *; lia.
Qed.

Lemma rstrip_head (l : chars) (c : ascii) :
  head (rstrip_chars l) = Some c -> head l = Some c.
Proof.
  destruct l as [|d t]; simpl; [easy|].
  destruct (rstrip_chars t); [destruct (isspace d)|]; simpl; easy.
Qed.

Lemma rstrip_last (l : chars) (c : ascii) :
  last (rstrip_chars l) = Some c -> isspace c = false.
Proof.
  induction l as [|d t IH]; simpl; [easy|].
  destruct (rstrip_chars t) as [|e t'] eqn:E.
  - destruct (isspace d) eqn:Hd; simpl; [easy|]. now intros [= <-].
  - intros H. apply IH. exact H.
Qed.

Lemma rstrip_space_pair (l : chars) :
  has_space_pair l = false -> has_space_pair (rstrip_chars l) = false.
Proof.
  induction l as [|c t IH]; intros Hl; simpl; [reflexivity|].
  assert (Ht : has_space_pair t = false).
  { destruct t; [reflexivity|]. simpl in Hl. now apply orb_false_iff in Hl as [_ ?]. }
  specialize (IH Ht).
  destruct (rstrip_chars t) as [|e t'] eqn:E.
  - now destruct (isspace c).
  - destruct t as [|d t0]; [discriminate|].
    assert (e = d) as ->.
    { pose proof (rstrip_head (d :: t0) e) as Hh. rewrite E in Hh.
      specialize (Hh eq_refl). now injection Hh. }
    simpl in Hl. apply orb_false_iff in Hl as [Hcd _].
    change (has_space_pair (c :: d :: t')) with ((isspace c && isspace d) || has_space_pair (d :: t')).
    now rewrite Hcd, IH.
Qed.

End PyFacts.

Module ReFacts.
Import Py Re.

Lemma span_len_le (p : ascii -> bool) (l : chars) : (span_len p l <= length l)%nat.
Proof. induction l as [|c t IH]; simpl; [lia|]. destruct (p c); simpl; lia. Qed.

Lemma match_at_class (p : ascii -> bool) (pr : option ascii) (c : ascii) (t : chars) :
  match_at (Cls p) pr (c :: t) =
    if p c then Some (1%nat, Match (implode [c]) None) else None.
Proof.
  unfold match_at; simpl. unfold step_char; simpl.
  destruct (p c); [|reflexivity]. simpl.
  replace (length t - length t)%nat with O by lia.
  replace (S (length t) - length t)%nat with 1%nat by lia. reflexivity.
Qed.

Lemma sub_go_class (p : ascii -> bool) (repl : chars) (pr : option ascii) (l : chars) :
  sub_go (Cls p) repl pr l O = replace_class p repl l.
Proof.
  revert pr; induction l as [|c t IH]; intros pr; [reflexivity|].
  cbn [sub_go]. rewrite match_at_class. unfold replace_class; simpl.
  destruct (p c); rewrite IH; reflexivity.
Qed.

(** A greedy loop over a class stops behind the longest run. *)
Lemma star_class_head (p : ascii -> bool) (fuel : nat) (st : state) :
  (length (rest st) <= fuel)%nat ->
  exists st' tl,
    star_loop (step_char p) true fuel st = st' :: tl
    /\ rest st' = skipn (span_len p (rest st)) (rest st)
    /\ grp st' = grp st.
Proof.
  revert st; induction fuel as [|k IH]; intros [pr l g] Hlen.
  - destruct l; [|simpl in Hlen; lia]. exists (State pr [] g), []. auto.
  - destruct l as [|c t].
    + exists (State pr [] g), []. auto.
    + cbn [star_loop].
      change (step_char p (State pr (c :: t) g))
        with (if p c then [State (Some c) t g] else []).
      destruct (p c) eqn:Hc.
      * cbn [flat_map]. unfold shorter at 1. cbn [rest].
        replace (length t <? length (c :: t))%nat with true
          by (symmetry; apply Nat.ltb_lt; simpl; lia).
        assert (Hk : (length (rest (State (Some c) t g)) <= k)%nat) by (simpl in *; lia).
        destruct (IH (State (Some c) t g) Hk) as (st' & tl & E & Hr & Hg).
        rewrite E. exists st', ((tl ++ []) ++ [State pr (c :: t) g]).
        split; [reflexivity|]. cbn [rest grp span_len] in *. rewrite Hc. auto.
      * exists (State pr (c :: t) g), []. cbn [rest grp span_len]. rewrite Hc. auto.
Qed.

Lemma match_at_plus_class (p : ascii -> bool) (pr : option ascii) (l : chars) :
  match l with
  | c :: t =>
      if p c then exists m, match_at (Plus (Cls p)) pr l = Some (S (span_len p t), m)
      else match_at (Plus (Cls p)) pr l = None
  | [] => match_at (Plus (Cls p)) pr l = None
  end.
Proof.
  destruct l as [|c t]; [reflexivity|].
  unfold match_at, Plus. cbn [ends].
  change (step_char p (State pr (c :: t) None))
    with (if p c then [State (Some c) t None] else []).
  destruct (p c) eqn:Hc; [|reflexivity].
  cbn [flat_map]. change (fun st0 => step_char p st0) with (step_char p). cbn [rest].
  assert (Hk : (length (rest (State (Some c) t None)) <= length t)%nat) by (simpl; lia).
  destruct (star_class_head p (length t) (State (Some c) t None) Hk) as (st' & tl & E & Hr & Hg).
  cbn [rest] in Hr. rewrite E. cbn [app]. rewrite Hr.
  pose proof (span_len_le p t) as Hle.
  rewrite length_skipn. simpl length.
  replace (S (length t) - (length t - span_len p t))%nat with (S (span_len p t)) by lia.
  eexists; reflexivity.
Qed.

Lemma sub_go_plus_class (p : ascii -> bool) (repl : chars) (l : chars) :
  forall pr,
    sub_go (Plus (Cls p)) repl pr l O = squeeze p repl false l
    /\ sub_go (Plus (Cls p)) repl pr l (span_len p l) = squeeze p repl true l.
Proof.
  induction l as [|c t IH]; intros pr; [split; reflexivity|].
  pose proof (match_at_plus_class p pr (c :: t)) as Hm. cbn beta iota in Hm.
  destruct (p c) eqn:Hc.
  - destruct Hm as [m Hm]. split.
    + cbn [sub_go]. rewrite Hm. cbn [squeeze]. rewrite Hc.
      f_equal. apply IH.
    + cbn [span_len]. rewrite Hc. cbn [sub_go squeeze]. rewrite Hc. apply IH.
  - assert (E : sub_go (Plus (Cls p)) repl pr (c :: t) O = squeeze p repl false (c :: t)).
    { cbn [sub_go]. rewrite Hm. cbn [squeeze]. rewrite Hc. f_equal. apply IH. }
    split; [exact E|].
    cbn [span_len]. rewrite Hc. rewrite E. cbn [squeeze]. now rewrite Hc.
Qed.

(** ** What the two substitutions of [clean_text] guarantee *)

Lemma replace_class_Forall (p : ascii -> bool) (r : ascii) (l : chars) :
  p r = false -> Forall (fun c => p c = false) (replace_class p [r] l).
Proof.
  intros Hr. unfold replace_class.
  induction l as [|c t IH]; simpl; [constructor|].
  destruct (p c) eqn:Hc; simpl; constructor; auto.
Qed.

Lemma squeeze_Forall (P : ascii -> Prop) (p : ascii -> bool) (r : ascii) (b : bool) (l : chars) :
  P r -> Forall P l -> Forall P (squeeze p [r] b l).
Proof.
  intros Hr Hl; revert b; induction Hl as [|c t Hc Ht IH]; intros b; simpl; [constructor|].
  destruct (p c); [destruct b; simpl; auto | constructor; auto].
Qed.

Lemma squeeze_class (p : ascii -> bool) (r : ascii) (b : bool) (l : chars) :
  Forall (fun c => p c = true -> c = r) (squeeze p [r] b l).
Proof.
  revert b; induction l as [|c t IH]; intros b; simpl; [constructor|].
  destruct (p c) eqn:Hc.
  - destruct b; simpl; [apply IH|]. constructor; [reflexivity | apply IH].
  - constructor; [congruence | apply IH].
Qed.

Lemma squeeze_space_pair (b : bool) (l : chars) :
  has_space_pair (squeeze isspace [" "%char] b l) = false
  /\ (b = true ->
      forall c, head (squeeze isspace [" "%char] b l) = Some c -> isspace c = false).
Proof.
  revert b; induction l as [|c t IH]; intros b; [split; [reflexivity | now intros ? ?]|].
  cbn [squeeze]. destruct (isspace c) eqn:Hc.
  - destruct (IH true) as [Hp Hh]. destruct b; cbn [app].
    + split; [assumption | intros _; now apply Hh].
    + split; [|discriminate].
      destruct (squeeze isspace [" "%char] true t) as [|d t'] eqn:E; [reflexivity|].
      change (has_space_pair (" "%char :: d :: t'))
        with ((isspace " " && isspace d) || has_space_pair (d :: t')).
      rewrite Hp, (Hh eq_refl d eq_refl). now rewrite andb_false_r.
  - destruct (IH false) as [Hp _]. split.
    + destruct (squeeze isspace [" "%char] false t) as [|d t'] eqn:E; [reflexivity|].
      change (has_space_pair (c :: d :: t'))
        with ((isspace c && isspace d) || has_space_pair (d :: t')).
      now rewrite Hc, Hp.
    + intros _ d [= <-]. exact Hc.
Qed.

End ReFacts.

(* ===================================================================== *)
(** * utils/pdf_parser.py: [clean_text] and [parse_pdf]                    *)
(* ===================================================================== *)

Module PdfParserProofs.
Import Py Re PdfParser Samples PyFacts ReFacts.


Lemma sub_special (s : string) :
  explode (Re.sub (Cls special) " " s) = replace_class special [" "%char] (explode s).
Proof. unfold Re.sub. rewrite explode_implode. apply sub_go_class. Qed.

Lemma sub_spaces (s : string) :
  explode (Re.sub (Plus (Cls isspace)) " " s) = squeeze isspace [" "%char] false (explode s).
Proof. unfold Re.sub. rewrite explode_implode. apply sub_go_plus_class. Qed.


Lemma substituted_tidy (l : chars) : tidy (substituted l).
Proof.
  unfold substituted. split.
  - apply squeeze_Forall; [reflexivity | now apply replace_class_Forall].
  - apply squeeze_class.
  - apply squeeze_space_pair.
Qed.

Lemma take_tidy (n : N) (l : chars) : tidy l -> tidy (take_chars n l).
Proof.
  intros [Ha Hs Hp]. split;
    [now apply take_chars_Forall | now apply take_chars_Forall | now apply take_chars_space_pair].
Qed.

Lemma strip_tidy (l : chars) : tidy l -> tidy (strip_chars l).
Proof.
  intros [Ha Hs Hp]. unfold strip_chars. split.
  - now apply rstrip_Forall, lstrip_Forall.
  - now apply rstrip_Forall, lstrip_Forall.
  - now apply rstrip_space_pair, lstrip_space_pair.
Qed.

Lemma strip_length (l : chars) : (length (strip_chars l) <= length l)%nat.
Proof.
  unfold strip_chars. pose proof (rstrip_length (lstrip_chars l)). pose proof (lstrip_length l). lia.
Qed.

(** [clean_text] on a non-empty string, as a function on characters. *)
Lemma clean_text_str (c : ascii) (s : string) :
  exists l,
    explode (clean_text (VStr (String c s))) = strip_chars l
    /\ tidy l /\ Z.of_nat (length l) <= 1000000.
Proof.
  cbn [clean_text value_truthy isinstance_str truthy negb orb].
  set (text2 := join " " (split _)).
  set (text4 := Re.sub (Plus (Cls isspace)) " " (Re.sub (Cls special) " " text2)).
  assert (Ht : tidy (explode text4)).
  { unfold text4. rewrite sub_spaces, sub_special. apply substituted_tidy. }
  destruct (1000000 <? len text4) eqn:Hlen.
  - exists (take_chars 1000000 (explode text4)). unfold strip, take.
    rewrite !explode_implode. split; [reflexivity|]. split; [now apply take_tidy|].
    apply (take_chars_length 1000000).
  - exists (explode text4). unfold strip. rewrite explode_implode.
    split; [reflexivity|]. split; [assumption|].
    apply Z.ltb_ge in Hlen. unfold len in Hlen. now rewrite length_explode.
Qed.

(** C6.  For every input, the result of [clean_text] contains no null
    byte and no carriage return; no two whitespace characters stand next to
    each other, and every whitespace character is the space; every
    character is a word character, whitespace or one of [. , - ( ) # + / @];
    the length is at most 1,000,000; the first and the last character are
    not whitespace; and the result is empty for an input that is not a
    string or is the empty string. *)
Theorem clean_text_normalized (v : value) :
  let out := explode (clean_text v) in
  ~ In "000"%char out
  /\ ~ In "013"%char out
  /\ has_space_pair out = false
  /\ Forall (fun c => isspace c = true -> c = " "%char) out
  /\ Forall (fun c => isword c || isspace c || one_of ".,-()#+/@" c = true) out
  /\ len (clean_text v) <= 1000000
  /\ (forall c, head out = Some c -> isspace c = false)
  /\ (forall c, last out = Some c -> isspace c = false)
  /\ (isinstance_str v = false \/ v = VStr "" -> clean_text v = "").
Proof.
  assert (Hempty : clean_text v = "" ->
    let out := explode (clean_text v) in
    ~ In "000"%char out /\ ~ In "013"%char out /\ has_space_pair out = false
    /\ Forall (fun c => isspace c = true -> c = " "%char) out
    /\ Forall (fun c => isword c || isspace c || one_of ".,-()#+/@" c = true) out
    /\ len (clean_text v) <= 1000000
    /\ (forall c, head out = Some c -> isspace c = false)
    /\ (forall c, last out = Some c -> isspace c = false)
    /\ (isinstance_str v = false \/ v = VStr "" -> clean_text v = "")).
  { intros E. rewrite E. cbv zeta.
    change (explode "") with (@nil ascii). change (len "") with 0.
    split_and ?.
    - intros [].
    - intros [].
    - reflexivity.
    - constructor.
    - constructor.
    - lia.
    - intros c [=].
    - intros c [=].
    - reflexivity. }
  assert (Hnonstr : isinstance_str v = false -> clean_text v = "").
  { intros Hi. destruct v as [| n | b | s]; try discriminate.
    - reflexivity.
    - unfold clean_text. cbn [isinstance_str negb]. now rewrite orb_true_r.
    - unfold clean_text. cbn [isinstance_str negb]. now rewrite orb_true_r. }
  destruct v as [| n | b | [|c s]];
    [apply Hempty, Hnonstr; reflexivity ..| apply Hempty; reflexivity |].
  clear Hempty Hnonstr.
  destruct (clean_text_str c s) as (l & E & Ht & Hlen).
  pose proof (strip_tidy l Ht) as [Ha Hs Hp].
  cbv zeta. rewrite E.
  split_and ?.
  - intros Hin. apply list_elem_of_In in Hin.
    rewrite Forall_forall in Ha. now specialize (Ha _ Hin).
  - intros Hin. apply list_elem_of_In in Hin.
    rewrite Forall_forall in Hs. now specialize (Hs _ Hin eq_refl).
  - exact Hp.
  - exact Hs.
  - eapply Forall_impl; [exact Ha|]. intros a Hsp. unfold special in Hsp.
    now apply negb_false_iff in Hsp.
  - rewrite <- (implode_explode (clean_text _)), E, len_implode.
    pose proof (strip_length l). lia.
  - intros a Hh. unfold strip_chars in Hh. apply rstrip_head in Hh.
    now apply lstrip_head in Hh.
  - intros a Hl. now apply rstrip_last in Hl.
  - intros [Hi | Hv]; discriminate.
Qed.

Lemma clean_text_normalized_witness : clean_text (VInt 5) = "".
Proof.
  apply (clean_text_normalized (VInt 5)). left. reflexivity.
Defined.

(** ** [parse_pdf] *)

Section ParsePdf.
Context `{PdfLibs.Extractors}.

Lemma falls_back_iff (file_content : PdfLibs.bytes) :
  falls_back file_content = true <->
  extract_text_with_pdfplumber file_content = ""
  \/ len (extract_text_with_pdfplumber file_content) < 50.
Proof.
  unfold falls_back. rewrite orb_true_iff, negb_true_iff, Z.ltb_lt.
  split; (intros [Ht | Hl]; [left | now right]).
  - now apply truthy_false.
  - now rewrite Ht.
Qed.

(** [parse_pdf] in one equation. *)
Lemma parse_pdf_eq (file_content : PdfLibs.bytes) :
  parse_pdf file_content =
    match file_content with
    | [] => ([], Raise (ValueError "Empty PDF file provided"))
    | _ =>
        (CallPdfplumber :: (if falls_back file_content then [CallPyMuPDF] else []),
         if truthy (selected file_content)
         then Ok (selected file_content)
         else Raise (ValueError
           "Could not extract text from PDF. Please ensure the PDF contains readable text."))
    end.
Proof.
  destruct file_content as [|b rest]; [reflexivity|].
  unfold parse_pdf, selected, falls_back.
  generalize (extract_text_with_pdfplumber (b :: rest)) as first.
  generalize (extract_text_with_pymupdf (b :: rest)) as second.
  intros second first.
  destruct (negb (truthy first) || (len first <? 50)).
  - destruct (truthy second); reflexivity.
  - destruct (truthy first); reflexivity.
Qed.

(** C7.  [parse_pdf] calls pdfplumber first, and PyMuPDF only when the
    first text is empty or has fewer than 50 characters; the text of
    PyMuPDF then takes the place of the first.  It raises [ValueError]
    exactly when the input is empty or the selected text is empty, and
    otherwise returns the selected text, which is not empty. *)
Theorem parse_pdf_fallback (file_content : PdfLibs.bytes) :
  let calls := fst (parse_pdf file_content) in
  let outcome := snd (parse_pdf file_content) in
  (file_content = [] -> calls = [] /\ exists msg, outcome = Raise (ValueError msg))
  /\ (file_content <> [] ->
      calls = CallPdfplumber :: (if falls_back file_content then [CallPyMuPDF] else [])
      /\ (In CallPyMuPDF calls <->
          extract_text_with_pdfplumber file_content = ""
          \/ len (extract_text_with_pdfplumber file_content) < 50)
      /\ (selected file_content = "" -> exists msg, outcome = Raise (ValueError msg))
      /\ (selected file_content <> "" -> outcome = Ok (selected file_content)))
  /\ ((exists e, outcome = Raise e) <->
      file_content = [] \/ (file_content <> [] /\ selected file_content = ""))
  /\ (forall e, outcome = Raise e -> exists msg, e = ValueError msg)
  /\ (forall text, outcome = Ok text -> text <> "" /\ text = selected file_content).
Proof.
  cbv zeta. rewrite (parse_pdf_eq file_content).
  pose proof (falls_back_iff file_content) as Hiff.
  generalize dependent (selected file_content).
  generalize dependent (falls_back file_content).
  generalize dependent (extract_text_with_pdfplumber file_content).
  intros first fb Hiff sel.
  destruct file_content as [|b rest]; cbn [fst snd].
  { split_and ?.
    - intros _. split; [reflexivity | eauto].
    - intros Hne. now contradiction Hne.
    - split; [intros _; now left | eauto].
    - intros e [= <-]. eauto.
    - intros text [=]. }
  assert (Hcalls : In CallPyMuPDF (CallPdfplumber :: (if fb then [CallPyMuPDF] else []))
                   <-> first = "" \/ len first < 50).
  { rewrite <- Hiff. destruct fb; simpl; split; auto.
    - intros [Hc | []]. discriminate.
    - discriminate. }
  destruct sel as [|c s]; cbn [truthy].
  - split_and ?.
    + intros [=].
    + intros _. split_and ?; [reflexivity | exact Hcalls | eauto | intros Hn; now contradiction Hn].
    + split; [intros _; right; split; [discriminate | reflexivity] | eauto].
    + intros e [= <-]. eauto.
    + intros text [=].
  - split_and ?.
    + intros [=].
    + intros _. split_and ?; [reflexivity | exact Hcalls | intros [=] | reflexivity].
    + split; [intros [e [=]] | intros [[=] | [_ [=]]]].
    + intros e [=].
    + intros text [= <-]. split; [discriminate | reflexivity].
Qed.
End ParsePdf.


Lemma parse_pdf_fallback_witness :
  snd (@parse_pdf short_then_long [Byte.x25]) = Ok "Jane Doe, engineer".
Proof.
  apply (@parse_pdf_fallback short_then_long [Byte.x25]);
    [discriminate | vm_compute; discriminate].
Defined.

(** The functions run. *)
Example clean_text_sample :
  clean_text (VStr "  Jane   <Doe>, C++ & SQL!  ") = "Jane Doe , C++ SQL".
Proof. vm_compute. reflexivity. Qed.

Example parse_pdf_sample :
  @parse_pdf short_then_long [Byte.x25]
  = ([CallPdfplumber; CallPyMuPDF], Ok "Jane Doe, engineer").
Proof. vm_compute. reflexivity. Qed.

End PdfParserProofs.

(* ===================================================================== *)
(** * Rounding and ratios                                                  *)
(* ===================================================================== *)

Module NumFacts.
Import Num.
Local Open Scope Q_scope.

Lemma round_half_even_proper (a b : Q) : a == b -> round_half_even a = round_half_even b.
Proof.
  intros E. unfold round_half_even.
  assert (Ef : Qfloor a = Qfloor b) by now rewrite E.
  rewrite Ef. now rewrite E.
Qed.

Lemma round2_proper (a b : Q) : a == b -> round2 a = round2 b.
Proof.
  intros E. unfold round2. f_equal. apply round_half_even_proper. now rewrite E.
Qed.

Lemma round_half_even_lower (q : Q) : 0 <= q -> (0 <= round_half_even q)%Z.
Proof.
  intros Hq. unfold round_half_even.
  assert (Hf : (0 <= Qfloor q)%Z).
  { change 0%Z with (Qfloor 0). now apply Qfloor_resp_le. }
  destruct (Qcompare _ _); [destruct (Z.even _)|..]; lia.
Qed.

Lemma round_half_even_upper (q : Q) (n : Z) :
  q <= inject_Z n -> (round_half_even q <= n)%Z.
Proof.
  intros Hq. unfold round_half_even.
  assert (Hf : (Qfloor q <= n)%Z).
  { rewrite <- (Qfloor_Z n). now apply Qfloor_resp_le. }
  destruct (Z.eq_dec (Qfloor q) n) as [E | Hne].
  - (* the floor is [n], so [q] is [n] and the remainder vanishes *)
    assert (Hq' : q == inject_Z n).
    { apply Qle_antisym; [assumption|]. rewrite <- E. apply Qfloor_le. }
    assert (Hr : Qcompare (q - inject_Z (Qfloor q)) (1 # 2) = Lt).
    { apply Qlt_alt. rewrite E, Hq'. unfold Qminus. rewrite Qplus_opp_r. reflexivity. }
    rewrite Hr. lia.
  - destruct (Qcompare _ _); [destruct (Z.even _)|..]; lia.
Qed.

Lemma round2_bounds (q : Q) : 0 <= q <= 100 -> 0 <= round2 q <= 100.
Proof.
  intros [Hlo Hhi]. unfold round2.
  assert (H0 : (0 <= round_half_even (q * 100))%Z).
  { apply round_half_even_lower. apply Qmult_le_0_compat; [assumption | discriminate]. }
  assert (H1 : (round_half_even (q * 100) <= 10000)%Z).
  { apply round_half_even_upper.
    change (inject_Z 10000) with (100 * 100).
    apply Qmult_le_compat_r; [assumption | discriminate]. }
  unfold Qle; simpl. lia.
Qed.

Lemma count_nonneg {A} (l : list A) : 0 <= count l.
Proof. unfold count, Qle; simpl. lia. Qed.

Lemma card_nonneg (s : gset string) : 0 <= card s.
Proof. unfold card, Qle; simpl. lia. Qed.

(** A capped score [min(n / d * 100, 100)] of a non-negative count. *)
Lemma capped_bounds (n d c : Q) :
  0 <= n -> 0 < d -> 0 <= c -> 0 <= Qmin (n / d * c) c <= c.
Proof.
  intros Hn Hd Hc. split; [|apply Q.le_min_r].
  apply Q.min_glb; [|assumption].
  apply Qmult_le_0_compat; [|assumption].
  apply Qle_shift_div_l; [assumption|]. now rewrite Qmult_0_l.
Qed.

(** The share of a part in a non-empty whole, as a percentage. *)
Lemma share_bounds (a b : Z) :
  (0 <= a <= b)%Z -> (0 < b)%Z -> 0 <= inject_Z a / inject_Z b * 100 <= 100.
Proof.
  intros [Ha Hab] Hb.
  assert (Hb' : 0 < inject_Z b) by (unfold Qlt; simpl; lia).
  split.
  - apply Qmult_le_0_compat; [|discriminate].
    apply Qle_shift_div_l; [assumption|]. rewrite Qmult_0_l. unfold Qle; simpl; lia.
  - change 100 with (1 * 100) at 2. apply Qmult_le_compat_r; [|discriminate].
    apply Qle_shift_div_r; [assumption|]. rewrite Qmult_1_l. unfold Qle; simpl; lia.
Qed.

Lemma nonempty_size (s : gset string) : Py.nonempty s = true -> (0 < size s)%nat.
Proof.
  unfold Py.nonempty. rewrite negb_true_iff, bool_decide_eq_false.
  intros Hne. destruct (decide (size s = 0%nat)) as [E|]; [|lia].
  apply size_empty_iff in E. exfalso. apply Hne. now apply leibniz_equiv.
Qed.

Lemma nonempty_false (s : gset string) : Py.nonempty s = false -> s = ∅.
Proof.
  unfold Py.nonempty. rewrite negb_false_iff, bool_decide_eq_true. auto.
Qed.

(** [len(a & b) / len(b) * 100] for a non-empty [b]. *)
Lemma overlap_share_bounds (a b : gset string) :
  Py.nonempty b = true -> 0 <= card (a ∩ b) / card b * 100 <= 100.
Proof.
  intros Hb. apply nonempty_size in Hb. apply share_bounds; [|lia].
  split; [lia|]. apply inj_le, subseteq_size, intersection_subseteq_r.
Qed.

End NumFacts.

(* ===================================================================== *)
(** * utils/ats_scorer.py: the weighted score                              *)
(* ===================================================================== *)

Module AtsScorerProofs.
Import Py Re Num SkillExtractor AtsScorer NumFacts.
Local Open Scope Q_scope.

(** Inequalities between rational constants. *)
Ltac q_const := split; apply Qle_bool_iff; vm_compute; reflexivity.

Section WithModel.
Context `{Spacy.Model}.

Lemma keyword_density_bounds (resume_text : string) :
  0 <= keyword_density_score resume_text <= 100.
Proof.
  unfold keyword_density_score, count_if. cbv zeta.
  set (a := Qmin (count _ / 6 * 100) 100).
  set (b := Qmin (count _ / 30 * 100) 100).
  set (c := Qmin (count _ / 10 * 100) 100).
  assert (Ha : 0 <= a <= 100) by (apply capped_bounds; [apply count_nonneg | reflexivity | discriminate]).
  assert (Hb : 0 <= b <= 100) by (apply capped_bounds; [apply count_nonneg | reflexivity | discriminate]).
  assert (Hc : 0 <= c <= 100) by (apply capped_bounds; [apply count_nonneg | reflexivity | discriminate]).
  clearbody a b c. destruct Ha, Hb, Hc. split.
  - apply Qle_shift_div_l; [reflexivity|]. rewrite Qmult_0_l.
    apply Qle_trans with (0 + 0 + 0); [discriminate|].
    repeat apply Qplus_le_compat; assumption.
  - apply Qle_shift_div_r; [reflexivity|].
    apply Qle_trans with (100 + 100 + 100); [|discriminate].
    repeat apply Qplus_le_compat; assumption.
Qed.

Lemma formatting_bounds (resume_text : string) :
  0 <= formatting_score resume_text <= 100.
Proof.
  unfold formatting_score. cbv zeta.
  generalize (Z.of_nat (length (split resume_text))) as word_count.
  generalize (existsb (fun indicator => contains indicator resume_text) bullet_indicators)
    as has_bullets.
  generalize (existsb (fun pattern => Re.found pattern (lower resume_text)) date_patterns)
    as dates_found.
  generalize (Re.found phone_pattern resume_text) as phone.
  generalize (Re.found email_pattern resume_text) as email.
  intros email phone dates_found has_bullets word_count.
  (destruct email, phone, dates_found, has_bullets;
  (destruct ((400 <=? word_count)%Z && (word_count <=? 2000)%Z)%bool;
   [|destruct (300 <? word_count)%Z]); q_const).
Qed.

Lemma action_verbs_bounds (resume_text : string) :
  0 <= action_verbs_score resume_text <= 100.
Proof.
  unfold action_verbs_score. cbv zeta.
  apply capped_bounds; [|reflexivity | discriminate].
  unfold count_action_verbs. cbv zeta.
  assert (Hfold : forall verbs (n : Z), (0 <= n)%Z ->
            (0 <= fold_left (fun count verb =>
                    count + Z.of_nat (length (findall (word_pattern verb) (lower resume_text))))
                  verbs n)%Z).
  { induction verbs as [|v vs IH]; intros n Hn; [exact Hn|]. cbn [fold_left]. apply IH. lia. }
  specialize (Hfold SkillExtractor.action_verbs 0%Z (Z.le_refl 0)).
  unfold Qle; simpl. lia.
Qed.

Lemma experience_bounds (resume_text : string) :
  0 <= experience_score resume_text <= 100.
Proof.
  unfold experience_score, count_if. cbv zeta.
  set (c := Qmin (count _ / 5 * 50) 50).
  assert (Hc : 0 <= c <= 50) by (apply capped_bounds; [apply count_nonneg | reflexivity | discriminate]).
  clearbody c. destruct Hc as [Hc0 Hc1].
  destruct (5 <=? _)%Z; [|destruct (2 <=? _)%Z].
  - split.
    + apply Qle_trans with (0 + 50 + 0); [discriminate|]. apply Qplus_le_compat; [apply Qle_refl | assumption].
    + apply Qle_trans with (0 + 50 + 50); [|discriminate]. apply Qplus_le_compat; [apply Qle_refl | assumption].
  - split.
    + apply Qle_trans with (0 + 25 + 0); [discriminate|]. apply Qplus_le_compat; [apply Qle_refl | assumption].
    + apply Qle_trans with (0 + 25 + 50); [|discriminate]. apply Qplus_le_compat; [apply Qle_refl | assumption].
  - split.
    + apply Qle_trans with (0 + 0); [discriminate|]. apply Qplus_le_compat; [apply Qle_refl | assumption].
    + apply Qle_trans with (0 + 50); [|discriminate]. apply Qplus_le_compat; [apply Qle_refl | assumption].
Qed.

Lemma skill_match_bounds (resume_text job_description : string) :
  0 <= skill_match_score resume_text job_description <= 100.
Proof.
  unfold skill_match_score. cbv zeta.
  destruct (truthy job_description); [|q_const].
  destruct (nonempty _) eqn:Hne; [|q_const].
  now apply overlap_share_bounds.
Qed.

Lemma weighted_sum_eq (kd f av ex sm : Q) :
  weighted_sum kd f av ex sm == 0.40 * kd + 0.20 * f + 0.15 * av + 0.15 * ex + 0.10 * sm.
Proof.
  unfold weighted_sum, Num.sum, weight_keyword_density, weight_formatting,
    weight_action_verbs, weight_experience, weight_skill_match.
  cbn [fold_left]. ring.
Qed.

Lemma weighted_sum_bounds (kd f av ex sm : Q) :
  0 <= kd <= 100 -> 0 <= f <= 100 -> 0 <= av <= 100 -> 0 <= ex <= 100 -> 0 <= sm <= 100 ->
  0 <= weighted_sum kd f av ex sm <= 100.
Proof.
  intros [? ?] [? ?] [? ?] [? ?] [? ?]. rewrite weighted_sum_eq. split; lra.
Qed.
End WithModel.

End AtsScorerProofs.

(* ===================================================================== *)
(** * Sorting                                                              *)
(* ===================================================================== *)

Module SortFacts.
Import Py.

(** ** [sorted(list(s))] *)

Lemma sorted_set_perm (s : gset string) : sorted_set s ≡ₚ elements s.
Proof. apply merge_sort_Permutation. Qed.

Lemma sorted_set_elem (s : gset string) (x : string) : x ∈ sorted_set s <-> x ∈ s.
Proof. rewrite sorted_set_perm. apply elem_of_elements. Qed.

Lemma sorted_set_NoDup (s : gset string) : NoDup (sorted_set s).
Proof. rewrite sorted_set_perm. apply NoDup_elements. Qed.

Lemma sorted_set_Sorted (s : gset string) : Sorted String.le (sorted_set s).
Proof. apply (Sorted_merge_sort String.le). Qed.

Lemma sorted_set_length (s : gset string) : length (sorted_set s) = size s.
Proof. now rewrite sorted_set_perm. Qed.

Lemma sorted_set_to_set (s : gset string) : set_of (sorted_set s) = s.
Proof.
  apply set_eq. intros x. unfold set_of. rewrite elem_of_list_to_set. apply sorted_set_elem.
Qed.

(** ** [sort(key=..., reverse=True)] *)

Section StableSort.
Context {A : Type} (key_lt : A -> A -> bool).
Hypothesis key_lt_asym : forall a b, key_lt a b = true -> key_lt b a = false.

Lemma insert_desc_perm (x : A) (l : list A) : insert_desc key_lt x l ≡ₚ x :: l.
Proof.
  induction l as [|y t IH]; simpl; [reflexivity|].
  destruct (key_lt x y); [|reflexivity].
  rewrite IH. apply Permutation_swap.
Qed.

Lemma sort_desc_perm (l : list A) : sort_desc key_lt l ≡ₚ l.
Proof.
  induction l as [|x t IH]; simpl; [reflexivity|].
  now rewrite insert_desc_perm, IH.
Qed.

Lemma insert_desc_HdRel (y x : A) (l : list A) :
  not_below key_lt y x -> HdRel (not_below key_lt) y l -> HdRel (not_below key_lt) y (insert_desc key_lt x l).
Proof.
  intros Hyx Hl. destruct l as [|z t]; simpl; [now constructor|].
  destruct (key_lt x z); constructor; [now inversion Hl | assumption].
Qed.

Lemma insert_desc_Sorted (x : A) (l : list A) :
  Sorted (not_below key_lt) l -> Sorted (not_below key_lt) (insert_desc key_lt x l).
Proof using key_lt_asym.
  induction 1 as [|y t Ht IH Hy]; simpl; [repeat constructor|].
  destruct (key_lt x y) eqn:E.
  - constructor; [assumption|]. apply insert_desc_HdRel; [|assumption].
    now apply key_lt_asym.
  - constructor; [now constructor | now constructor].
Qed.

Lemma sort_desc_Sorted (l : list A) : Sorted (not_below key_lt) (sort_desc key_lt l).
Proof using key_lt_asym.
  induction l as [|x t IH]; simpl; [constructor | now apply insert_desc_Sorted].
Qed.
End StableSort.

Lemma Sorted_weaken {A} (R S : A -> A -> Prop) (l : list A) :
  (forall a b, R a b -> S a b) -> Sorted R l -> Sorted S l.
Proof.
  intros HRS. induction 1 as [|x t Ht IH Hx]; constructor; [assumption|].
  destruct Hx; constructor. now apply HRS.
Qed.

Lemma Qltb_asym (a b : Q) : Num.Qltb a b = true -> Num.Qltb b a = false.
Proof.
  unfold Num.Qltb. rewrite negb_true_iff, negb_false_iff.
  intros Hba. apply Qle_bool_iff. apply Qnot_lt_le. intros Hlt.
  apply Qlt_not_le in Hlt. apply not_true_iff_false in Hba. apply Hba.
  apply Qle_bool_iff. apply Qnot_lt_le. intros Hab. apply Hlt. now apply Qlt_le_weak.
Qed.

Lemma Qltb_false (a b : Q) : Num.Qltb a b = false <-> (b <= a)%Q.
Proof. unfold Num.Qltb. rewrite negb_false_iff. apply Qle_bool_iff. Qed.

End SortFacts.

(* ===================================================================== *)
(** * utils/matcher.py                                                    *)
(* ===================================================================== *)

Module MatcherProofs.
Import Py Re Num SkillExtractor Matcher Samples NumFacts SortFacts.
Local Open Scope Q_scope.

Section WithLibraries.
Context `{Spacy.Model} `{Sklearn.Tfidf}.

(** The handler of the [try] statement returns, so [cosine_sim] has a
    value. *)
Lemma cosine_sim_value (resume_text job_description : string) :
  cosine_sim resume_text job_description
  = Ok match cosine_try resume_text job_description with
       | Ok c => c
       | Raise _ => 0.5
       end.
Proof. unfold cosine_sim, try_except. now destruct (cosine_try _ _). Qed.


(** [calculate_match_score] in one equation. *)
Lemma calculate_match_score_eq (resume_text job_description : string) :
  exists cos,
    cosine_sim resume_text job_description = Ok cos
    /\ calculate_match_score resume_text job_description
       = Ok {| match_percentage :=
                 round2 ((skill_match_rate resume_text job_description * 0.40
                          + technical_match_rate resume_text job_description * 0.30
                          + cos * 0.30) * 100);
               matched_skills :=
                 sorted_set (resume_all_skills resume_text ∩ job_all_skills job_description);
               missing_skills :=
                 sorted_set (job_all_skills job_description ∖ resume_all_skills resume_text);
               matched_technical_skills :=
                 sorted_set (resume_technical resume_text ∩ job_technical job_description);
               missing_technical_skills :=
                 sorted_set (job_technical job_description ∖ resume_technical resume_text);
               cosine_similarity := round2 (cos * 100) |}.
Proof.
  eexists. split; [apply cosine_sim_value|].
  unfold calculate_match_score. cbv zeta. rewrite cosine_sim_value. reflexivity.
Qed.


(** C9.  The matched and the missing skills are disjoint and together
    are the lower-cased skills of the job; the matched skills are among
    the lower-cased skills of the resume; the same holds for the technical
    skills; the four lists are sorted and without duplicates. *)
Theorem match_lists_partition (resume_text job_description : string) :
  exists result,
    calculate_match_score resume_text job_description = Ok result
    /\ (set_of (matched_skills result) ∩ set_of (missing_skills result) = ∅
        /\ set_of (matched_skills result) ∪ set_of (missing_skills result)
           = set_of (map lower (all_skills (extract_skills job_description)))
        /\ set_of (matched_skills result)
           ⊆ set_of (map lower (all_skills (extract_skills resume_text))))
    /\ (set_of (matched_technical_skills result)
          ∩ set_of (missing_technical_skills result) = ∅
        /\ set_of (matched_technical_skills result)
             ∪ set_of (missing_technical_skills result)
           = set_of (map lower (technical_skills (extract_skills job_description)))
        /\ set_of (matched_technical_skills result)
           ⊆ set_of (map lower (technical_skills (extract_skills resume_text))))
    /\ (Sorted String.le (matched_skills result) /\ NoDup (matched_skills result))
    /\ (Sorted String.le (missing_skills result) /\ NoDup (missing_skills result))
    /\ (Sorted String.le (matched_technical_skills result)
        /\ NoDup (matched_technical_skills result))
    /\ (Sorted String.le (missing_technical_skills result)
        /\ NoDup (missing_technical_skills result)).
Proof.
  destruct (calculate_match_score_eq resume_text job_description) as (cos & Hcos & Hres).
  eexists. split; [exact Hres|].
  cbn [matched_skills missing_skills matched_technical_skills missing_technical_skills].
  rewrite !sorted_set_to_set.
  fold (job_all_skills job_description) (resume_all_skills resume_text)
       (job_technical job_description) (resume_technical resume_text).
  generalize (job_all_skills job_description) (resume_all_skills resume_text)
             (job_technical job_description) (resume_technical resume_text).
  intros J R JT RT.
  assert (Hdisj : forall A B : gset string, (A ∩ B) ∩ (B ∖ A) = ∅).
  { intros A B. apply set_eq. intros x.
    rewrite !elem_of_intersection, elem_of_difference, elem_of_empty.
    split; [intros [[HA _] [_ HnA]]; exact (HnA HA) | intros []]. }
  assert (Hcover : forall A B : gset string, (A ∩ B) ∪ (B ∖ A) = B).
  { intros A B. apply set_eq. intros x.
    rewrite elem_of_union, elem_of_intersection, elem_of_difference.
    split; [intros [[_ HB] | [HB _]]; exact HB|].
    intros HB. destruct (decide (x ∈ A)); [left | right]; split; assumption. }
  split_and ?; try apply sorted_set_Sorted; try apply sorted_set_NoDup;
    try apply Hdisj; try apply Hcover; apply intersection_subseteq_l.
Qed.
(** The loop of [rank_resumes] returns, with one pair per resume: the
    indices count up from [idx] and every score is the match percentage
    of the resume at that place. *)
Lemma rank_loop_spec (job_description : string) (resumes : list string) (idx : Z) :
  exists scores,
    rank_loop idx resumes job_description = Ok scores
    /\ map fst scores = map (fun k => idx + Z.of_nat k)%Z (seq 0 (length resumes))
    /\ Forall (fun p =>
         exists resume result,
           resumes !! Z.to_nat (fst p - idx) = Some resume
           /\ calculate_match_score resume job_description = Ok result
           /\ snd p = match_percentage result) scores.
Proof.
  revert idx; induction resumes as [|resume more IH]; intros idx.
  { exists []. repeat split; constructor. }
  destruct (calculate_match_score_eq resume job_description) as (cos & _ & Hres).
  destruct (IH (idx + 1)%Z) as (scores & Hloop & Hfst & Hall).
  cbn [rank_loop]. rewrite Hres, Hloop. cbn [bind].
  eexists. split; [reflexivity|]. split.
  - cbn [map fst length seq]. f_equal; [lia|].
    rewrite Hfst, <- seq_shift, map_map. apply map_ext. intros k. lia.
  - constructor.
    + exists resume. eexists. cbn [fst snd].
      replace (Z.to_nat (idx - idx)) with O by lia.
      split; [reflexivity|]. split; [exact Hres | reflexivity].
    + assert (Hge : Forall (fun p => idx + 1 <= fst p)%Z scores).
      { apply Forall_forall. intros p Hp.
        apply (list_elem_of_fmap_2 fst) in Hp.
        change (fst <$> scores) with (map fst scores) in Hp. rewrite Hfst in Hp.
        apply list_elem_of_fmap in Hp as (k & -> & _). lia. }
      eapply Forall_impl; [apply Forall_and; split; [exact Hall | exact Hge]|].
      intros p [(r & result & Hl & Hr & Hs) Hp]. cbn beta in Hp.
      exists r, result. split; [|split; assumption].
      replace (Z.to_nat (fst p - idx)) with (S (Z.to_nat (fst p - (idx + 1)))) by lia.
      exact Hl.
Qed.

(** C10.  [rank_resumes] returns one pair per resume; the indices are a
    permutation of [0 .. n-1]; every score is the match percentage that
    [calculate_match_score] returns for the resume with that index; the
    pairs are in non-increasing order of score. *)
Theorem rank_resumes_sorted (resumes : list string) (job_description : string) :
  exists ranked,
    rank_resumes resumes job_description = Ok ranked
    /\ length ranked = length resumes
    /\ map fst ranked ≡ₚ map Z.of_nat (seq 0 (length resumes))
    /\ Forall (fun p =>
         exists resume result,
           resumes !! Z.to_nat (fst p) = Some resume
           /\ calculate_match_score resume job_description = Ok result
           /\ snd p = match_percentage result) ranked
    /\ Sorted (fun p q => snd q <= snd p) ranked.
Proof.
  destruct (rank_loop_spec job_description resumes 0) as (scores & Hloop & Hfst & Hall).
  unfold rank_resumes. rewrite Hloop. cbn [bind].
  set (key_lt := fun x y : Z * Q => Qltb (snd x) (snd y)).
  pose proof (sort_desc_perm key_lt scores) as Hperm.
  eexists. split; [reflexivity|]. split_and ?.
  - rewrite Hperm. rewrite <- (length_map fst scores), Hfst, length_map. apply length_seq.
  - rewrite Hperm, Hfst. reflexivity.
  - rewrite Hperm. eapply Forall_impl; [exact Hall|].
    intros p (r & result & Hl & Hr & Hs). exists r, result.
    rewrite Z.sub_0_r in Hl. auto.
  - apply (Sorted_weaken (not_below key_lt)).
    + intros p q Hpq. unfold not_below, key_lt in Hpq. now apply Qltb_false in Hpq.
    + apply sort_desc_Sorted. intros a b. apply Qltb_asym.
Qed.
End WithLibraries.



(** The functions run: two of the three skills of the job are matched, one
    of its two technical skills, and the vectorizer raises. *)
Example calculate_match_score_sample :
  @calculate_match_score plain_model failing_tfidf
    "Python developer with SQL and leadership" "We need Python, Java and leadership"
  = Ok {| match_percentage := (5667 # 100)%Q;
          matched_skills := ["leadership"; "python"];
          missing_skills := ["java"];
          matched_technical_skills := ["python"];
          missing_technical_skills := ["java"];
          cosine_similarity := (5000 # 100)%Q |}.
Proof. vm_compute. reflexivity. Qed.

Example rank_resumes_sample :
  @rank_resumes plain_model failing_tfidf
    ["Java developer"; "Python and Java developer"; "Cook"] "We need Python and Java"
  = Ok [(1%Z, (8500 # 100)%Q); (0%Z, (5000 # 100)%Q); (2%Z, (1500 # 100)%Q)].
Proof. vm_compute. reflexivity. Qed.

End MatcherProofs.

(* ===================================================================== *)
(** * utils/ai_feedback.py: the fallback                                   *)
(* ===================================================================== *)

Module AiFeedbackProofs.
Import Py Re Llm AiFeedback Samples.

Section WithEnv.
Context `{Env}.








End WithEnv.



End AiFeedbackProofs.

(* ===================================================================== *)
(** * models.py: the cascades keep every reference alive                   *)
(* ===================================================================== *)

Module ModelsProofs.
Import Models.

Ltac split3 := split; [|split].

Lemma integrity_empty : integrity empty_db.
Proof.
  repeat split; intros k x Hx; cbn in Hx; rewrite lookup_empty in Hx; discriminate.
Qed.

Lemma insert_keeps_Some {V} (m : gmap Z V) (k k' : Z) (v : V) :
  is_Some (m !! k') -> is_Some (<[k := v]> m !! k').
Proof.
  intros Hs. destruct (decide (k = k')) as [->|Hne].
  - rewrite lookup_insert_eq. eauto.
  - now rewrite lookup_insert_ne.
Qed.

(** ** Creating rows *)

Lemma add_user_integrity (u : User) (db : DB) : integrity db -> integrity (add_user u db).
Proof.
  intros (Hr & Hm & Hj). split3; [|exact Hm | exact Hj].
  intros rid r Hl. cbn in *. apply insert_keeps_Some. eapply Hr, Hl.
Qed.

Lemma register_integrity (u : User) (db : DB) : integrity db -> integrity (register u db).
Proof.
  intros Hi. unfold register. destruct (bool_decide _); [assumption|].
  now apply add_user_integrity.
Qed.

Lemma get_current_user_stored (uid : Z) (db : DB) (current_user : Z) :
  get_current_user uid db = Some current_user -> is_Some (users db !! current_user).
Proof.
  unfold get_current_user. destruct (bool_decide _) eqn:E; [|discriminate].
  intros [= <-]. now apply bool_decide_eq_true in E.
Qed.

Lemma upload_resume_integrity (uid : Z) (r : Resume) (db : DB) :
  integrity db -> integrity (upload_resume uid r db).
Proof.
  intros (Hr & Hm & Hj). unfold upload_resume.
  destruct (get_current_user uid db) as [current_user|] eqn:E; [|now repeat split].
  apply get_current_user_stored in E.
  split3; [| |exact Hj].
  - intros rid r' Hl. cbn in *.
    destruct (decide (next_id (resumes db) = rid)) as [<-|Hne].
    + rewrite lookup_insert_eq in Hl. injection Hl as <-. exact E.
    + rewrite lookup_insert_ne in Hl by assumption. eapply Hr, Hl.
  - intros mid m Hl. cbn in *. apply insert_keeps_Some. eapply Hm, Hl.
Qed.

Lemma create_job_integrity (uid : Z) (j : Job) (db : DB) :
  integrity db -> integrity (create_job uid j db).
Proof.
  intros (Hr & Hm & Hj). unfold create_job.
  destruct (get_current_user uid db); [|now repeat split].
  split3; [exact Hr | exact Hm |].
  intros mid m Hl. cbn in *. apply insert_keeps_Some. eapply Hj, Hl.
Qed.

Lemma store_job_match_integrity (m : JobMatch) (db : DB) :
  integrity db -> integrity (store_job_match m db).
Proof.
  intros (Hr & Hm & Hj). unfold store_job_match.
  destruct (bool_decide (is_Some (resumes db !! resume_id m))) eqn:E1;
    [|now repeat split].
  destruct (bool_decide (is_Some (jobs db !! job_id m))) eqn:E2; [|now repeat split].
  apply bool_decide_eq_true in E1, E2. cbn [andb].
  split3; [exact Hr | |].
  - intros mid m' Hl. cbn in *.
    destruct (decide (next_id (job_matches db) = mid)) as [<-|Hne].
    + rewrite lookup_insert_eq in Hl. injection Hl as <-. exact E1.
    + rewrite lookup_insert_ne in Hl by assumption. eapply Hm, Hl.
  - intros mid m' Hl. cbn in *.
    destruct (decide (next_id (job_matches db) = mid)) as [<-|Hne].
    + rewrite lookup_insert_eq in Hl. injection Hl as <-. exact E2.
    + rewrite lookup_insert_ne in Hl by assumption. eapply Hj, Hl.
Qed.

(** ** Deleting rows *)

Lemma session_delete_resume_integrity (rid : Z) (db : DB) :
  integrity db -> integrity (session_delete_resume rid db).
Proof.
  intros (Hr & Hm & Hj). split3.
  - intros k r Hl. cbn in *. apply lookup_delete_Some in Hl as [_ Hl]. eapply Hr, Hl.
  - intros mid m Hl. cbn in *. apply map_lookup_filter_Some in Hl as [Hl Hne]. cbn in Hne.
    rewrite lookup_delete_ne by congruence. eapply Hm, Hl.
  - intros mid m Hl. cbn in *. apply map_lookup_filter_Some in Hl as [Hl _]. eapply Hj, Hl.
Qed.

Lemma session_delete_job_integrity (jid : Z) (db : DB) :
  integrity db -> integrity (session_delete_job jid db).
Proof.
  intros (Hr & Hm & Hj). split3.
  - exact Hr.
  - intros mid m Hl. cbn in *. apply map_lookup_filter_Some in Hl as [Hl _]. eapply Hm, Hl.
  - intros mid m Hl. cbn in *. apply map_lookup_filter_Some in Hl as [Hl Hne]. cbn in Hne.
    rewrite lookup_delete_ne by congruence. eapply Hj, Hl.
Qed.

Lemma delete_resume_integrity (uid rid : Z) (db : DB) :
  integrity db -> integrity (delete_resume uid rid db).
Proof.
  intros Hi. unfold delete_resume.
  destruct (get_current_user uid db); [|assumption].
  destruct (resumes db !! rid); [|assumption].
  destruct (bool_decide _); [|assumption].
  now apply session_delete_resume_integrity.
Qed.

(** The database after the resumes with the keys [X] have been deleted
    one by one. *)
Lemma delete_resumes_fold (db : DB) (X : gset Z) :
  let db' := set_fold session_delete_resume db X in
  (integrity db -> integrity db')
  /\ users db' = users db
  /\ (forall k r, resumes db' !! k = Some r -> resumes db !! k = Some r)
  /\ (forall k, k ∈ X -> resumes db' !! k = None).
Proof.
  cbv zeta. revert X.
  apply (set_fold_ind_L (fun db' X =>
    (integrity db -> integrity db')
    /\ users db' = users db
    /\ (forall k r, resumes db' !! k = Some r -> resumes db !! k = Some r)
    /\ (forall k, k ∈ X -> resumes db' !! k = None))).
  - split_and ?; auto. intros k Hk. now apply elem_of_empty in Hk.
  - intros x X acc Hx (Hi & Hu & Hsub & Hgone). split_and ?.
    + intros Hdb. now apply session_delete_resume_integrity, Hi.
    + exact Hu.
    + intros k r Hl. cbn in Hl. apply lookup_delete_Some in Hl as [_ Hl]. now apply Hsub.
    + intros k Hk. cbn. apply lookup_delete_None.
      apply elem_of_union in Hk as [Hk | Hk]; [left; now apply elem_of_singleton in Hk | right; now apply Hgone].
Qed.

(** No resume of the user is left once the user is deleted. *)
Lemma session_delete_user_resumes (uid : Z) (db : DB) (k : Z) (r : Resume) :
  resumes (session_delete_user uid db) !! k = Some r -> user_id r <> uid.
Proof.
  unfold session_delete_user. cbv zeta. cbn [resumes].
  destruct (delete_resumes_fold db (dom (resumes_of uid db))) as (_ & _ & Hsub & Hgone).
  intros Hl Hown. pose proof (Hsub _ _ Hl) as Hdb.
  assert (Hk : k ∈ dom (resumes_of uid db)).
  { apply elem_of_dom. exists r. apply map_lookup_filter_Some. split; assumption. }
  rewrite (Hgone _ Hk) in Hl. discriminate.
Qed.

Lemma session_delete_user_integrity (uid : Z) (db : DB) :
  integrity db -> integrity (session_delete_user uid db).
Proof.
  intros Hi.
  pose proof (session_delete_user_resumes uid db) as Hnone.
  unfold session_delete_user in *. cbv zeta in *. cbn [resumes] in Hnone.
  destruct (delete_resumes_fold db (dom (resumes_of uid db))) as (Hint & Hu & _ & _).
  destruct (Hint Hi) as (Hr & Hm & Hj).
  split3; [|exact Hm | exact Hj].
  intros k r Hl. cbn in *. rewrite lookup_delete_ne by (intros E; now apply (Hnone k r Hl)).
  eapply Hr, Hl.
Qed.

Lemma step_integrity (db : DB) (o : op) : integrity db -> integrity (step db o).
Proof.
  destruct o; cbn [step];
    auto using register_integrity, upload_resume_integrity, create_job_integrity,
      store_job_match_integrity, delete_resume_integrity, session_delete_user_integrity,
      session_delete_job_integrity.
Qed.

Lemma run_integrity (ops : list op) (db : DB) : integrity db -> integrity (run ops db).
Proof.
  revert db; induction ops as [|o ops IH]; intros db Hi; [exact Hi|].
  cbn [run fold_left]. apply IH. now apply step_integrity.
Qed.

(** C8.  Deleting a user deletes the resumes of the user, deleting a
    resume deletes the matches that reference it, and so does deleting a
    job; after any sequence of operations that create or delete rows, every
    resume references a stored user and every match a stored resume and a
    stored job. *)
Theorem cascade_keeps_references (ops : list op) (db : DB) (uid rid jid : Z) :
  resumes_of uid (session_delete_user uid db) = ∅
  /\ users (session_delete_user uid db) !! uid = None
  /\ matches_of_resume rid (session_delete_resume rid db) = ∅
  /\ resumes (session_delete_resume rid db) !! rid = None
  /\ matches_of_job jid (session_delete_job jid db) = ∅
  /\ jobs (session_delete_job jid db) !! jid = None
  /\ integrity (run ops empty_db).
Proof.
  split_and ?.
  - apply map_empty. intros k. apply map_lookup_filter_None. right.
    intros r Hl. cbn. now apply (session_delete_user_resumes uid db k r).
  - unfold session_delete_user. cbn. apply lookup_delete_eq.
  - apply map_empty. intros k. apply map_lookup_filter_None. right.
    intros m Hl. cbn in *. apply map_lookup_filter_Some in Hl as [_ Hne]. exact Hne.
  - cbn. apply lookup_delete_eq.
  - apply map_empty. intros k. apply map_lookup_filter_None. right.
    intros m Hl. cbn in *. apply map_lookup_filter_Some in Hl as [_ Hne]. exact Hne.
  - cbn. apply lookup_delete_eq.
  - apply run_integrity, integrity_empty.
Qed.

End ModelsProofs.

(* ===================================================================== *)
(** * utils/skill_extractor.py: where the skills come from                 *)
(* ===================================================================== *)

Module SkillExtractorProofs.
Import Py Re SkillExtractor Samples SortFacts.

Lemma dictionary_found_elem (dictionary : list string) (text_lower s : string) :
  s ∈ dictionary_found dictionary text_lower <->
  exists skill, skill ∈ dictionary
                /\ Re.found (word_pattern skill) text_lower = true /\ s = title skill.
Proof.
  unfold dictionary_found.
  assert (Hgen : forall acc : gset string,
    s ∈ fold_left (fun found skill =>
           if Re.found (word_pattern skill) text_lower then found ∪ {[ title skill ]} else found)
         dictionary acc
    <-> s ∈ acc \/ exists skill, skill ∈ dictionary
                /\ Re.found (word_pattern skill) text_lower = true /\ s = title skill).
  { induction dictionary as [|d ds IH]; intros acc; cbn [fold_left].
    - split; [now left | intros [Ha | (k & Hk & _)]; [assumption | now apply elem_of_nil in Hk]].
    - rewrite IH. split.
      + intros [Ha | (k & Hk & Hf & Hs)].
        * destruct (Re.found (word_pattern d) text_lower) eqn:E; [|now left].
          apply elem_of_union in Ha as [Ha | Ha]; [now left|].
          apply elem_of_singleton in Ha. right. exists d. split; [left | auto].
        * right. exists k. split; [now right | auto].
      + intros [Ha | (k & Hk & Hf & Hs)].
        * left. destruct (Re.found (word_pattern d) text_lower); [|assumption].
          apply elem_of_union. now left.
        * apply elem_of_cons in Hk as [-> | Hk].
          -- left. rewrite Hf. apply elem_of_union. right. now apply elem_of_singleton.
          -- right. exists k. auto. }
  rewrite Hgen. split; [intros [Ha | Hs]; [now apply elem_of_empty in Ha | assumption] | now right].
Qed.

Lemma patterns_found_elem (technical_found : gset string) (text_lower s : string) :
  s ∈ patterns_found technical_found text_lower <->
  s ∈ technical_found
  \/ exists pattern m, pattern ∈ programming_patterns
                       /\ m ∈ findall pattern text_lower /\ s = title m.
Proof.
  unfold patterns_found. generalize programming_patterns as patterns.
  intros patterns; revert technical_found.
  assert (Hinner : forall (ms : list string) (acc : gset string),
    s ∈ fold_left (fun found m => found ∪ {[ title m ]}) ms acc
    <-> s ∈ acc \/ exists m, m ∈ ms /\ s = title m).
  { induction ms as [|m ms IH]; intros acc; cbn [fold_left].
    - split; [now left | intros [Ha | (k & Hk & _)]; [assumption | now apply elem_of_nil in Hk]].
    - rewrite IH, elem_of_union, elem_of_singleton. split.
      + intros [[Ha | ->] | (k & Hk & ->)]; [now left | right; exists m | right; exists k];
          (split; [|reflexivity]); [left | now right].
      + intros [Ha | (k & Hk & ->)]; [now left; left|].
        apply elem_of_cons in Hk as [-> | Hk]; [left; now right | right; eauto]. }
  induction patterns as [|p ps IH]; intros acc; cbn [fold_left].
  - split; [now left | intros [Ha | (p & m & Hp & _)]; [assumption | now apply elem_of_nil in Hp]].
  - rewrite IH, Hinner. split.
    + intros [[Ha | (m & Hm & ->)] | (q & m & Hq & Hm & ->)].
      * now left.
      * right. exists p, m. split; [left | auto].
      * right. exists q, m. split; [now right | auto].
    + intros [Ha | (q & m & Hq & Hm & ->)]; [now left; left|].
      apply elem_of_cons in Hq as [-> | Hq]; [left; right; eauto | right; eauto].
Qed.

Section WithModel.
Context `{Spacy.Model}.

(** Every skill that [extract_skills] returns is a dictionary entry found
    in the text or a match of one of the programming patterns. *)
Lemma extract_skills_sources (text s : string) :
  s ∈ all_skills (extract_skills text) ->
  (exists skill, skill ∈ TECHNICAL_SKILLS ++ SOFT_SKILLS ++ TOOLS
                 /\ Re.found (word_pattern skill) (lower text) = true /\ s = title skill)
  \/ (exists pattern m, pattern ∈ programming_patterns
                        /\ m ∈ findall pattern (lower text) /\ s = title m).
Proof.
  unfold extract_skills. destruct (truthy text); cbn [negb].
  2: { intros Hs. now apply elem_of_nil in Hs. }
  cbv zeta. cbn [all_skills]. rewrite sorted_set_elem, !elem_of_union.
  rewrite patterns_found_elem, !dictionary_found_elem.
  intros [[[(k & Hk & Hf & Hs) | Hp] | (k & Hk & Hf & Hs)] | (k & Hk & Hf & Hs)].
  - left. exists k. rewrite !elem_of_app. auto.
  - now right.
  - left. exists k. rewrite !elem_of_app. auto.
  - left. exists k. rewrite !elem_of_app. auto.
Qed.
End WithModel.


(** C3.  The skills that [extract_skills] returns do not depend on the
    spaCy pipeline, hence not on its noun chunks; on a text whose noun chunk
    is [quantum widgets] and which names no dictionary entry, all four
    lists are empty. *)
Theorem noun_chunks_unused :
  (forall (M1 M2 : Spacy.Model) (text : string),
      @extract_skills M1 text = @extract_skills M2 text)
  /\ Spacy.noun_chunks (@Spacy.nlp chunking_model "Experienced in quantum widgets")
     = ["quantum widgets"]
  /\ @extract_skills chunking_model "Experienced in quantum widgets" = no_skills.
Proof.
  split; [|split].
  - intros M1 M2 text. unfold extract_skills. cbv zeta. reflexivity.
  - reflexivity.
  - vm_compute. reflexivity.
Qed.

(** The function runs: dictionary entries and a pattern are found, the
    noun chunk of the pipeline is not. *)
Example extract_skills_sample :
  @extract_skills chunking_model
    "Python and React developer, strong leadership, uses Excel; OOP"
  = {| all_skills := ["Excel"; "Leadership"; "Oop"; "Python"; "React"];
       technical_skills := ["Oop"; "Python"; "React"];
       soft_skills := ["Leadership"];
       tools := ["Excel"] |}.
Proof. vm_compute. reflexivity. Qed.

End SkillExtractorProofs.


(* ===================================================================== *)
(** * utils/skill_extractor.py: further properties                         *)
(* ===================================================================== *)

Module SkillExtractorExtras.
Import Py Re SkillExtractor Samples PyFacts SortFacts.

Lemma lower_char_idem (c : ascii) : lower_char (lower_char c) = lower_char c.
Proof. destruct c as [[] [] [] [] [] [] [] []]; reflexivity. Qed.

Lemma lower_idem (s : string) : lower (lower s) = lower s.
Proof.
  unfold lower. rewrite explode_implode, map_map. f_equal.
  apply map_ext. intros c. apply lower_char_idem.
Qed.

Lemma truthy_lower (s : string) : truthy (lower s) = truthy s.
Proof. now destruct s. Qed.

Lemma sorted_set_empty : sorted_set ∅ = [].
Proof. unfold sorted_set. now rewrite elements_empty. Qed.

Section WithModel.
Context `{Spacy.Model}.

(** [extract_skills] with the three sets named. *)
Lemma extract_skills_sets (text : string) :
  exists technical soft tool : gset string,
    extract_skills text
    = {| all_skills := sorted_set (technical ∪ soft ∪ tool);
         technical_skills := sorted_set technical;
         soft_skills := sorted_set soft;
         tools := sorted_set tool |}.
Proof.
  unfold extract_skills. destruct (truthy text); cbn [negb].
  - cbv zeta. eexists _, _, _. reflexivity.
  - exists ∅, ∅, ∅. rewrite !union_empty_l_L, sorted_set_empty. reflexivity.
Qed.

(** X1.  The list [all_skills] holds exactly the skills of the three
    categories, and each of the four lists is sorted and free of
    duplicates. *)
Theorem extract_skills_categories (text : string) :
  let skills := extract_skills text in
  set_of (all_skills skills)
  = set_of (technical_skills skills) ∪ set_of (soft_skills skills) ∪ set_of (tools skills)
  /\ (length (all_skills skills)
      <= length (technical_skills skills) + length (soft_skills skills)
         + length (tools skills))%nat
  /\ (Sorted String.le (all_skills skills) /\ NoDup (all_skills skills))
  /\ (Sorted String.le (technical_skills skills) /\ NoDup (technical_skills skills))
  /\ (Sorted String.le (soft_skills skills) /\ NoDup (soft_skills skills))
  /\ (Sorted String.le (tools skills) /\ NoDup (tools skills)).
Proof.
  cbv zeta. destruct (extract_skills_sets text) as (technical & soft & tool & ->).
  cbn [all_skills technical_skills soft_skills tools].
  rewrite !sorted_set_to_set, !sorted_set_length.
  split; [reflexivity|]. split.
  - pose proof (size_union_alt (technical ∪ soft) tool) as H1.
    pose proof (size_union_alt technical soft) as H2.
    pose proof (subseteq_size (tool ∖ (technical ∪ soft)) tool) as H3.
    pose proof (subseteq_size (soft ∖ technical) soft) as H4.
    assert (tool ∖ (technical ∪ soft) ⊆ tool) as H5 by apply subseteq_difference_l, reflexivity.
    assert (soft ∖ technical ⊆ soft) as H6 by apply subseteq_difference_l, reflexivity.
    specialize (H3 H5). specialize (H4 H6). lia.
  - repeat split; (apply sorted_set_Sorted || apply sorted_set_NoDup).
Qed.

End WithModel.

(** X2.  Letter case plays no part: the skills of a text are the skills of
    the text in lower case, and so is the count of action verbs. *)
Theorem skills_ignore_case `{Spacy.Model} (text : string) :
  extract_skills (lower text) = extract_skills text
  /\ count_action_verbs (lower text) = count_action_verbs text.
Proof.
  split.
  - unfold extract_skills. rewrite truthy_lower, lower_idem. cbv zeta. reflexivity.
  - unfold count_action_verbs. now rewrite lower_idem.
Qed.

End SkillExtractorExtras.


(* ===================================================================== *)
(** * utils/skill_extractor.py: [extract_keywords]                         *)
(* ===================================================================== *)

Module KeywordExtras.
Import Py Re SkillExtractor Samples Notions PyFacts SortFacts.

(** ** [Counter] *)

Lemma counter_add_keys (w : string) (c : list (string * nat)) :
  map fst (counter_add w c)
  = if bool_decide (w ∈ map fst c) then map fst c else map fst c ++ [w].
Proof.
  induction c as [|[w' n] t IH]; cbn [counter_add map fst].
  - rewrite bool_decide_eq_false_2; [reflexivity | apply not_elem_of_nil].
  - destruct (String.eqb_spec w w') as [->|Hne]; cbn [map fst].
    + rewrite bool_decide_eq_true_2; [reflexivity | left].
    + rewrite IH. destruct (bool_decide (w ∈ map fst t)) eqn:E.
      * apply bool_decide_eq_true in E.
        rewrite bool_decide_eq_true_2; [reflexivity | now right].
      * apply bool_decide_eq_false in E.
        rewrite bool_decide_eq_false_2; [reflexivity|].
        intros Hin. apply elem_of_cons in Hin as [? | ?]; congruence.
Qed.

Lemma counter_add_counted (w w' : string) (c : list (string * nat)) :
  counted (counter_add w c) w' = (counted c w' + if String.eqb w' w then 1 else 0)%nat.
Proof.
  induction c as [|[v n] t IH]; cbn [counter_add counted].
  - destruct (String.eqb w' w); reflexivity.
  - destruct (String.eqb_spec w v) as [->|Hne]; cbn [counted].
    + destruct (String.eqb w' v); lia.
    + destruct (String.eqb_spec w' v) as [->|Hne'].
      * destruct (String.eqb_spec v w); [congruence | lia].
      * exact IH.
Qed.

Lemma counted_elem (c : list (string * nat)) (w : string) (n : nat) :
  NoDup (map fst c) -> (w, n) ∈ c -> counted c w = n.
Proof.
  induction c as [|[v m] t IH]; intros Hnd Hin; [now apply elem_of_nil in Hin|].
  cbn [map fst] in Hnd. apply NoDup_cons in Hnd as [Hv Hnd]. cbn [counted].
  apply elem_of_cons in Hin as [[= -> ->] | Hin].
  - now rewrite String.eqb_refl.
  - destruct (String.eqb_spec w v) as [->|Hne]; [|now apply IH].
    exfalso. apply Hv. apply (list_elem_of_fmap_2 fst) in Hin. exact Hin.
Qed.

(** The counter after a list of words has been added to it. *)
Lemma counter_fold (words : list string) (c : list (string * nat)) :
  let c' := fold_left (fun c w => counter_add w c) words c in
  NoDup (map fst c) ->
  NoDup (map fst c')
  /\ (forall k, k ∈ map fst c' <-> k ∈ map fst c \/ k ∈ words)
  /\ (forall w, counted c' w = (counted c w + count_occ String.string_dec words w)%nat).
Proof.
  cbv zeta. revert c; induction words as [|w ws IH]; intros c Hnd; cbn [fold_left].
  - split; [assumption|]. split.
    + intros k. split; [now left | intros [? | Hk]; [assumption | now apply elem_of_nil in Hk]].
    + intros w. cbn. lia.
  - assert (Hnd' : NoDup (map fst (counter_add w c))).
    { rewrite counter_add_keys. destruct (bool_decide (w ∈ map fst c)) eqn:E; [assumption|].
      apply bool_decide_eq_false in E. apply NoDup_app. split; [assumption|].
      split; [|apply NoDup_singleton].
      intros x Hx Hx'. apply list_elem_of_singleton in Hx'. congruence. }
    destruct (IH _ Hnd') as (H1 & H2 & H3). split; [assumption|]. split.
    + intros k. rewrite H2, counter_add_keys, elem_of_cons.
      destruct (bool_decide (w ∈ map fst c)) eqn:E.
      * apply bool_decide_eq_true in E. split; [tauto|].
        intros [? | [-> | ?]]; tauto.
      * rewrite elem_of_app, list_elem_of_singleton. tauto.
    + intros v. rewrite H3, counter_add_counted. cbn [count_occ].
      destruct (String.string_dec w v) as [->|Hne].
      * rewrite String.eqb_refl. lia.
      * destruct (String.eqb_spec v w); [congruence | lia].
Qed.

Lemma Counter_spec (words : list string) :
  NoDup (map fst (Counter words))
  /\ (forall k, k ∈ map fst (Counter words) <-> k ∈ words)
  /\ (forall w n, (w, n) ∈ Counter words -> n = count_occ String.string_dec words w).
Proof.
  destruct (counter_fold words [] (NoDup_nil_2 : NoDup (map fst []))) as (H1 & H2 & H3).
  fold (Counter words) in H1, H2, H3. split; [assumption|]. split.
  - intros k. rewrite H2. split; [intros [Hk | ?]; [now apply elem_of_nil in Hk | assumption] | now right].
  - intros w n Hin. rewrite <- (counted_elem _ _ _ H1 Hin). apply H3.
Qed.

(** ** [most_common] *)

Lemma Sorted_firstn {A} (R : A -> A -> Prop) (n : nat) (l : list A) :
  Sorted R l -> Sorted R (firstn n l).
Proof.
  intros Hs; revert n; induction Hs as [|x t Ht IH Hx]; intros [|n]; cbn; try constructor.
  - apply IH.
  - destruct Hx; destruct n; cbn; constructor. assumption.
Qed.

Lemma most_common_spec (n : nat) (c : list (string * nat)) :
  NoDup (map fst c) ->
  let top := most_common n c in
  length top = Nat.min n (length c)
  /\ NoDup (map fst top)
  /\ top ⊆ c
  /\ Sorted (fun a b => (snd b <= snd a)%nat) top.
Proof.
  intros Hnd. cbv zeta. unfold most_common.
  set (key_lt := fun x y : string * nat => (snd x <? snd y)%nat).
  pose proof (sort_desc_perm key_lt c) as Hperm.
  split_and ?.
  - rewrite length_firstn. now rewrite Hperm.
  - change (NoDup (fst <$> firstn n (sort_desc key_lt c))).
    rewrite fmap_take. apply (sublist_NoDup _ (fst <$> sort_desc key_lt c)); [|apply sublist_take].
    rewrite Hperm. exact Hnd.
  - intros x Hx. rewrite <- Hperm.
    apply elem_of_take in Hx as (i & Hi & _). eapply list_elem_of_lookup_2, Hi.
  - apply Sorted_firstn. apply (Sorted_weaken (not_below key_lt)).
    + intros a b Hab. unfold not_below, key_lt in Hab. apply Nat.ltb_ge in Hab. exact Hab.
    + apply sort_desc_Sorted. intros a b Hab. unfold key_lt in *.
      apply Nat.ltb_lt in Hab. apply Nat.ltb_ge. lia.
Qed.

Lemma Sorted_map_fst (freq : string -> nat) (l : list (string * nat)) :
  Forall (fun p => snd p = freq (fst p)) l ->
  Sorted (fun a b => (snd b <= snd a)%nat) l ->
  Sorted (fun a b => (freq b <= freq a)%nat) (map fst l).
Proof.
  intros Hall Hs; induction Hs as [|x t Ht IH Hx]; cbn; [constructor|].
  apply Forall_cons in Hall as [Hx' Hall]. constructor; [now apply IH|].
  destruct Hx as [|y t' Hxy]; cbn; constructor.
  apply Forall_cons in Hall as [Hy _]. now rewrite <- Hx', <- Hy.
Qed.

Section WithModel.
Context `{Spacy.Model}.

(** [extract_keywords] past its guard. *)
Lemma extract_keywords_eq (text : string) :
  extract_keywords text
  = if negb (truthy text) || (len (strip text) <? 10) then []
    else map fst (most_common 50 (Counter (keyword_candidates text))).
Proof. reflexivity. Qed.

(** X3.  [extract_keywords] returns at most 50 keywords, without
    duplicates, each of them the lower-cased text of a noun or proper noun
    that is no stop word and has more than two characters, the more frequent
    first; a text of fewer than 10 characters after stripping has none, and
    a longer text has all its candidates up to the limit of 50. *)
Theorem extract_keywords_spec (text : string) :
  let keywords := extract_keywords text in
  let candidates := keyword_candidates text in
  (length keywords <= 50)%nat
  /\ NoDup keywords
  /\ keywords ⊆ candidates
  /\ Sorted (fun a b => (count_occ String.string_dec candidates b
                         <= count_occ String.string_dec candidates a)%nat) keywords
  /\ (len (strip text) < 10 -> keywords = [])
  /\ (10 <= len (strip text) ->
      length keywords = Nat.min 50 (size (set_of candidates))).
Proof.
  cbv zeta. rewrite extract_keywords_eq.
  destruct (Counter_spec (keyword_candidates text)) as (Hnd & Hkeys & Hcount).
  destruct (most_common_spec 50 _ Hnd) as (Hlen & Hnd' & Hsub & Hsorted).
  destruct (negb (truthy text) || (len (strip text) <? 10)) eqn:Hguard.
  - split_and ?.
    + cbn. lia.
    + constructor.
    + intros x Hx. now apply elem_of_nil in Hx.
    + constructor.
    + reflexivity.
    + intros Hlong. apply orb_true_iff in Hguard as [Ht | Hl].
      * apply negb_true_iff, truthy_false in Ht. subst text.
        change (len (strip "")) with 0 in Hlong. lia.
      * apply Z.ltb_lt in Hl. lia.
  - apply orb_false_iff in Hguard as [_ Hl]. apply Z.ltb_ge in Hl.
    split_and ?.
    + rewrite length_map, Hlen. lia.
    + exact Hnd'.
    + intros k Hk. apply list_elem_of_fmap in Hk as ([w n] & -> & Hin).
      apply Hkeys. apply Hsub in Hin. apply (list_elem_of_fmap_2 fst) in Hin. exact Hin.
    + apply Sorted_map_fst; [|exact Hsorted].
      apply Forall_forall. intros [w n] Hin. cbn. apply Hcount, Hsub, Hin.
    + intros Hshort. lia.
    + intros _. rewrite length_map, Hlen. f_equal.
      rewrite <- (length_map fst (Counter _)).
      rewrite <- (size_list_to_set (C := gset string) _ Hnd).
      f_equal. apply set_eq. intros k. unfold set_of.
      rewrite !elem_of_list_to_set. apply Hkeys.
Qed.
End WithModel.

(** A pipeline that tags every word as a noun. *)
Lemma extract_keywords_spec_witness :
  @extract_keywords nouns_model "ab cd" = [].
Proof.
  apply (@extract_keywords_spec nouns_model "ab cd"). vm_compute. reflexivity.
Defined.

End KeywordExtras.


(* ===================================================================== *)
(** * utils/ats_scorer.py: the part of the job description                 *)
(* ===================================================================== *)

Module AtsScorerExtras.
Import Py Re Num SkillExtractor AtsScorer Samples NumFacts AtsScorerProofs.
Local Open Scope Q_scope.

Lemma round_half_even_at_least (q : Q) (n : Z) :
  inject_Z n <= q -> (n <= round_half_even q)%Z.
Proof.
  intros Hq. unfold round_half_even.
  assert (Hf : (n <= Qfloor q)%Z).
  { rewrite <- (Qfloor_Z n). now apply Qfloor_resp_le. }
  destruct (Qcompare _ _); [destruct (Z.even _)|..]; lia.
Qed.

(** Rounding to two decimals keeps a value between two bounds that have
    two decimals themselves. *)
Lemma round2_between (q : Q) (a b : Z) :
  a # 100 <= q <= b # 100 -> a # 100 <= round2 q <= b # 100.
Proof.
  intros [Hlo Hhi]. unfold round2.
  assert (H0 : (a <= round_half_even (q * 100))%Z).
  { apply round_half_even_at_least.
    apply Qle_trans with ((a # 100) * 100).
    - unfold Qle; simpl. lia.
    - apply Qmult_le_compat_r; [assumption | discriminate]. }
  assert (H1 : (round_half_even (q * 100) <= b)%Z).
  { apply round_half_even_upper.
    apply Qle_trans with ((b # 100) * 100).
    - apply Qmult_le_compat_r; [assumption | discriminate].
    - unfold Qle; simpl. lia. }
  unfold Qle; simpl. lia.
Qed.

Section WithModel.
Context `{Spacy.Model}.

Lemma skill_match_without_job (resume_text : string) :
  skill_match_score resume_text "" = 50.
Proof. reflexivity. Qed.

Lemma skill_match_without_skills (resume_text job_description : string) :
  all_skills (extract_skills job_description) = [] ->
  skill_match_score resume_text job_description = 50.
Proof.
  intros Hnone. unfold skill_match_score. cbv zeta. rewrite Hnone.
  destruct (truthy job_description); reflexivity.
Qed.

(** X4.  Without a job description the skill match counts as 50, so the
    overall score lies between 5 and 95. *)
Theorem ats_score_without_job (resume_text : string) :
  let scores := calculate_ats_score resume_text "" in
  skill_match scores == 50
  /\ 5 <= overall_score scores <= 95.
Proof.
  cbv zeta. unfold calculate_ats_score. cbv zeta. cbn [skill_match overall_score].
  rewrite skill_match_without_job. split; [reflexivity|].
  pose proof (keyword_density_bounds resume_text) as [? ?].
  pose proof (formatting_bounds resume_text) as [? ?].
  pose proof (action_verbs_bounds resume_text) as [? ?].
  pose proof (experience_bounds resume_text) as [? ?].
  destruct (round2_between
              (weighted_sum (keyword_density_score resume_text) (formatting_score resume_text)
                 (action_verbs_score resume_text) (experience_score resume_text) 50)
              500 9500) as [Hlo Hhi].
  { rewrite weighted_sum_eq. split; lra. }
  split; [apply Qle_trans with (500 # 100) | apply Qle_trans with (9500 # 100)];
    (assumption || discriminate).
Qed.

(** X5.  A job description in which no skill is found scores like no job
    description at all. *)
Theorem ats_score_job_without_skills (resume_text job_description : string) :
  all_skills (extract_skills job_description) = [] ->
  calculate_ats_score resume_text job_description = calculate_ats_score resume_text "".
Proof.
  intros Hnone. unfold calculate_ats_score. cbv zeta.
  now rewrite (skill_match_without_skills _ _ Hnone), skill_match_without_job.
Qed.

(** X25.  Each of the five component scores that [calculate_ats_score]
    returns lies between 0 and 100, and so does the overall score, with
    or without a job description. *)
Theorem ats_scores_in_range (resume_text job_description : string) :
  let scores := calculate_ats_score resume_text job_description in
  0 <= overall_score scores <= 100
  /\ 0 <= keyword_density scores <= 100
  /\ 0 <= formatting scores <= 100
  /\ 0 <= action_verbs scores <= 100
  /\ 0 <= experience scores <= 100
  /\ 0 <= skill_match scores <= 100.
Proof.
  cbv zeta.
  pose proof (keyword_density_bounds resume_text) as Hkd.
  pose proof (formatting_bounds resume_text) as Hf.
  pose proof (action_verbs_bounds resume_text) as Hav.
  pose proof (experience_bounds resume_text) as Hex.
  pose proof (skill_match_bounds resume_text job_description) as Hsm.
  unfold calculate_ats_score. cbv zeta.
  cbn [overall_score keyword_density formatting action_verbs experience skill_match].
  split; [now apply round2_bounds, weighted_sum_bounds|].
  split_and ?; now apply round2_bounds.
Qed.
End WithModel.

Lemma ats_score_job_without_skills_witness :
  @calculate_ats_score plain_model "Python developer" "We are hiring"
  = @calculate_ats_score plain_model "Python developer" "".
Proof.
  apply (@ats_score_job_without_skills plain_model "Python developer" "We are hiring").
  vm_compute. reflexivity.
Defined.

End AtsScorerExtras.


(* ===================================================================== *)
(** * utils/matcher.py: further properties                                 *)
(* ===================================================================== *)

Module MatcherExtras.
Import Py Re Num SkillExtractor Matcher Samples NumFacts SortFacts MatcherProofs
  SkillExtractorExtras AtsScorerExtras.
Local Open Scope Q_scope.

Lemma ratio_bounds (a b : gset string) :
  nonempty b = true -> 0 <= card (a ∩ b) / card b <= 1.
Proof.
  intros Hb. apply nonempty_size in Hb. unfold card.
  assert (Hle : (size (a ∩ b) <= size b)%nat) by apply subseteq_size, intersection_subseteq_r.
  assert (Hb' : 0 < inject_Z (Z.of_nat (size b))) by (unfold Qlt; simpl; lia).
  split.
  - apply Qle_shift_div_l; [assumption|]. rewrite Qmult_0_l. unfold Qle; simpl; lia.
  - apply Qle_shift_div_r; [assumption|]. rewrite Qmult_1_l. unfold Qle; simpl; lia.
Qed.

Section WithLibraries.
Context `{Spacy.Model} `{Sklearn.Tfidf}.

Lemma skill_match_rate_bounds (resume_text job_description : string) :
  0 <= skill_match_rate resume_text job_description <= 1.
Proof.
  unfold skill_match_rate. cbv zeta.
  destruct (nonempty _) eqn:E; [now apply ratio_bounds | split; discriminate].
Qed.

Lemma technical_match_rate_bounds (resume_text job_description : string) :
  0 <= technical_match_rate resume_text job_description <= 1.
Proof.
  unfold technical_match_rate. cbv zeta.
  destruct (nonempty _) eqn:E; [now apply ratio_bounds | split; discriminate].
Qed.

(** X6.  When the similarity that the vectorizer returns lies between 0
    and 1, the match percentage and the reported similarity lie between 0
    and 100. *)
Theorem match_percentage_bounds (resume_text job_description : string) :
  (forall c, Sklearn.tfidf_cosine resume_text job_description = Ok c -> 0 <= c <= 1) ->
  exists result,
    calculate_match_score resume_text job_description = Ok result
    /\ 0 <= match_percentage result <= 100
    /\ 0 <= cosine_similarity result <= 100.
Proof.
  intros Hcos.
  destruct (calculate_match_score_eq resume_text job_description) as (cos & Hc & Hres).
  assert (Hb : 0 <= cos <= 1).
  { rewrite cosine_sim_value in Hc. injection Hc as <-. unfold cosine_try.
    destruct (_ && _)%bool; [|split; discriminate].
    destruct (Sklearn.tfidf_cosine resume_text job_description) as [c|e] eqn:E; cbn [bind].
    - now apply Hcos.
    - split; discriminate. }
  pose proof (skill_match_rate_bounds resume_text job_description) as [? ?].
  pose proof (technical_match_rate_bounds resume_text job_description) as [? ?].
  destruct Hb. eexists. split; [exact Hres|].
  cbn [match_percentage cosine_similarity].
  split; apply round2_bounds; split; lra.
Qed.

(** The technical skills are among all skills, before and after
    lower-casing. *)
Lemma technical_among_all (text : string) :
  set_of (map lower (technical_skills (extract_skills text)))
  ⊆ set_of (map lower (all_skills (extract_skills text))).
Proof.
  destruct (extract_skills_sets text) as (technical & soft & tool & ->).
  cbn [technical_skills all_skills].
  intros x. unfold set_of. rewrite !elem_of_list_to_set.
  intros Hx. apply list_elem_of_fmap in Hx as (s & -> & Hs).
  apply list_elem_of_fmap_2. apply sorted_set_elem.
  apply elem_of_union_l, elem_of_union_l. now apply sorted_set_elem.
Qed.

(** X7.  A text matched against itself has no missing skills: the matched
    skills are all the skills of the text, and the same holds for the
    technical skills. *)
Theorem match_against_itself (text : string) :
  exists result,
    calculate_match_score text text = Ok result
    /\ missing_skills result = []
    /\ missing_technical_skills result = []
    /\ set_of (matched_skills result) = set_of (map lower (all_skills (extract_skills text)))
    /\ set_of (matched_technical_skills result)
       = set_of (map lower (technical_skills (extract_skills text))).
Proof.
  destruct (calculate_match_score_eq text text) as (cos & _ & Hres).
  eexists. split; [exact Hres|].
  cbn [missing_skills missing_technical_skills matched_skills matched_technical_skills].
  rewrite !sorted_set_to_set.
  unfold resume_all_skills, job_all_skills, resume_technical, job_technical.
  rewrite !difference_diag_L, !intersection_idemp_L, sorted_set_empty. auto.
Qed.

(** X8.  Every matched technical skill is a matched skill, and no missing
    skill is a skill of the resume. *)
Theorem matched_technical_among_matched (resume_text job_description : string) :
  exists result,
    calculate_match_score resume_text job_description = Ok result
    /\ set_of (matched_technical_skills result) ⊆ set_of (matched_skills result)
    /\ (length (matched_technical_skills result) <= length (matched_skills result))%nat
    /\ set_of (missing_skills result)
         ∩ set_of (map lower (all_skills (extract_skills resume_text))) = ∅
    /\ set_of (missing_technical_skills result)
         ∩ set_of (map lower (technical_skills (extract_skills resume_text))) = ∅.
Proof.
  destruct (calculate_match_score_eq resume_text job_description) as (cos & _ & Hres).
  eexists. split; [exact Hres|].
  clear Hres.
  cbn [missing_skills missing_technical_skills matched_skills matched_technical_skills].
  rewrite !sorted_set_to_set, !sorted_set_length.
  pose proof (technical_among_all resume_text) as Hr.
  pose proof (technical_among_all job_description) as Hj.
  fold (resume_all_skills resume_text) (resume_technical resume_text) in Hr |- *.
  fold (job_all_skills job_description) (job_technical job_description) in Hj.
  generalize dependent (resume_all_skills resume_text).
  generalize dependent (resume_technical resume_text).
  generalize dependent (job_all_skills job_description).
  generalize dependent (job_technical job_description).
  intros JT J Hj RT R Hr.
  assert (Hsub : RT ∩ JT ⊆ R ∩ J).
  { intros x Hx. apply elem_of_intersection in Hx as [? ?].
    apply elem_of_intersection. split; [now apply Hr | now apply Hj]. }
  split; [exact Hsub|]. split; [now apply subseteq_size|].
  split; apply set_eq; intros x;
    rewrite elem_of_intersection, elem_of_difference, elem_of_empty;
    (split; [intros [[_ Hn] Hx]; exact (Hn Hx) | intros []]).
Qed.
End WithLibraries.

Lemma match_percentage_bounds_witness :
  exists result,
    @calculate_match_score plain_model quarter_tfidf
      "Python developer, five years" "We need a Python developer" = Ok result
    /\ 0 <= match_percentage result <= 100
    /\ 0 <= cosine_similarity result <= 100.
Proof.
  apply (@match_percentage_bounds plain_model quarter_tfidf).
  intros c [= <-]. split; discriminate.
Defined.

End MatcherExtras.


(* ===================================================================== *)
(** * utils/matcher.py: ties in [rank_resumes]                             *)
(* ===================================================================== *)

Module RankExtras.
Import Py Re Num SkillExtractor Matcher Samples Notions NumFacts SortFacts MatcherProofs.
Local Open Scope Q_scope.

Lemma score_lt_true (x y : Z * Q) : score_lt x y = true -> snd x < snd y.
Proof.
  unfold score_lt, Qltb. rewrite negb_true_iff. intros Hb.
  apply Qnot_le_lt. intros Hle. apply Qle_bool_iff in Hle. congruence.
Qed.

Lemma score_lt_false (x y : Z * Q) : score_lt x y = false -> snd y <= snd x.
Proof. unfold score_lt. apply Qltb_false. Qed.

Lemma ranks_before_intro (x z : Z * Q) :
  snd z <= snd x -> (fst x < fst z)%Z -> ranks_before x z.
Proof.
  intros Hle Hlt. destruct (Qlt_le_dec (snd z) (snd x)) as [Hs | Hs]; [now left|].
  right. split; [now apply Qle_antisym | assumption].
Qed.

Lemma ranks_before_le (y z : Z * Q) : ranks_before y z -> snd z <= snd y.
Proof.
  intros [Hlt | [Heq _]]; [now apply Qlt_le_weak | rewrite Heq; apply Qle_refl].
Qed.

Lemma insert_desc_stable (x : Z * Q) (l : list (Z * Q)) :
  StronglySorted ranks_before l ->
  Forall (fun y => (fst x < fst y)%Z) l ->
  StronglySorted ranks_before (insert_desc score_lt x l).
Proof.
  induction 1 as [|y t Ht IH Hy]; intros Hx; cbn [insert_desc].
  - repeat constructor.
  - apply Forall_cons in Hx as [Hxy Hxt].
    destruct (score_lt x y) eqn:E.
    + constructor; [now apply IH|].
      rewrite (insert_desc_perm score_lt x t). constructor; [|assumption].
      left. now apply score_lt_true.
    + apply score_lt_false in E. constructor; [now constructor|].
      constructor; [now apply ranks_before_intro|].
      apply Forall_forall. intros z Hz.
      rewrite Forall_forall in Hy, Hxt.
      apply ranks_before_intro; [|now apply Hxt].
      apply Qle_trans with (snd y); [now apply ranks_before_le, Hy | assumption].
Qed.

Lemma sort_desc_stable (l : list (Z * Q)) :
  StronglySorted (fun p q => (fst p < fst q)%Z) l ->
  StronglySorted ranks_before (sort_desc score_lt l).
Proof.
  induction 1 as [|x t Ht IH Hx]; cbn [sort_desc fold_right]; [constructor|].
  apply insert_desc_stable; [exact IH|].
  change (fold_right (insert_desc score_lt) [] t) with (sort_desc score_lt t).
  now rewrite (sort_desc_perm score_lt t).
Qed.

Section WithLibraries.
Context `{Spacy.Model} `{Sklearn.Tfidf}.

Lemma rank_loop_increasing (job_description : string) (resumes : list string) (idx : Z) :
  exists scores,
    rank_loop idx resumes job_description = Ok scores
    /\ Forall (fun p => (idx <= fst p)%Z) scores
    /\ StronglySorted (fun p q => (fst p < fst q)%Z) scores.
Proof.
  revert idx; induction resumes as [|resume more IH]; intros idx.
  { exists []. repeat split; constructor. }
  destruct (calculate_match_score_eq resume job_description) as (cos & _ & Hres).
  destruct (IH (idx + 1)%Z) as (scores & Hloop & Hge & Hinc).
  cbn [rank_loop]. rewrite Hres, Hloop. cbn [bind].
  eexists. split; [reflexivity|]. split.
  - constructor; [cbn; lia|]. eapply Forall_impl; [exact Hge|]. cbn. intros p Hp. lia.
  - constructor; [exact Hinc|]. eapply Forall_impl; [exact Hge|]. cbn. intros p Hp. lia.
Qed.

(** X9.  [rank_resumes] breaks ties by position: of two resumes with the
    same score the one that came first in the input stands first, and a
    resume with a higher score stands before one with a lower score. *)
Theorem rank_resumes_stable (resumes : list string) (job_description : string) :
  exists ranked,
    rank_resumes resumes job_description = Ok ranked
    /\ StronglySorted ranks_before ranked.
Proof.
  destruct (rank_loop_increasing job_description resumes 0) as (scores & Hloop & _ & Hinc).
  unfold rank_resumes. rewrite Hloop. cbn [bind].
  eexists. split; [reflexivity|]. now apply sort_desc_stable.
Qed.
End WithLibraries.

End RankExtras.


(* ===================================================================== *)
(** * utils/ai_feedback.py: what comes back                                *)
(* ===================================================================== *)

Module AiFeedbackExtras.
Import Py Re Llm AiFeedback Samples AiFeedbackProofs.

Section WithEnv.
Context `{Env}.

(** X10.  [get_ai_feedback] never raises: when the configured provider
    returns a value, that value is returned, and in every other case the
    default feedback is. *)
Theorem get_ai_feedback_returns (resume_text : string) (extracted_skills : list string)
    (job_description : string) (missing_skills : option (list string)) :
  let missing := default [] missing_skills in
  let prompt := make_prompt resume_text extracted_skills job_description missing in
  let answer := get_ai_feedback resume_text extracted_skills job_description missing_skills in
  (exists feedback, answer = Ok feedback)
  /\ (forall feedback,
        AI_PROVIDER = "openai" -> get_openai_feedback prompt = Ok feedback ->
        answer = Ok feedback)
  /\ (forall feedback,
        AI_PROVIDER = "gemini" -> get_gemini_feedback prompt = Ok feedback ->
        answer = Ok feedback)
  /\ ((AI_PROVIDER = "openai" /\ exists e, get_openai_feedback prompt = Raise e)
      \/ (AI_PROVIDER = "gemini" /\ exists e, get_gemini_feedback prompt = Raise e)
      \/ (AI_PROVIDER <> "openai" /\ AI_PROVIDER <> "gemini") ->
      answer = Ok (get_default_feedback extracted_skills missing)).
Proof.
  cbv zeta. unfold get_ai_feedback. cbv zeta.
  generalize (make_prompt resume_text extracted_skills job_description
                (default [] missing_skills)) as prompt.
  intros prompt.
  destruct (String.eqb_spec AI_PROVIDER "openai") as [Ho | Ho].
  - assert (Hg : AI_PROVIDER <> "gemini") by (rewrite Ho; discriminate).
    destruct (get_openai_feedback prompt) as [v | e]; cbn [try_except].
    + split; [eauto|]. split; [now intros feedback _ [= <-]|].
      split; [intros feedback Hp; contradiction|].
      intros [[_ [e He]] | [[Hp _] | [Hp _]]]; [discriminate | contradiction..].
    + split; [eauto|]. split; [intros feedback _ Hv; discriminate|].
      split; [intros feedback Hp; contradiction | reflexivity].
  - destruct (String.eqb_spec AI_PROVIDER "gemini") as [Hg | Hg].
    + destruct (get_gemini_feedback prompt) as [v | e]; cbn [try_except].
      * split; [eauto|]. split; [intros feedback Hp; contradiction|].
        split; [now intros feedback _ [= <-]|].
        intros [[Hp _] | [[_ [e He]] | [_ Hp]]]; [contradiction | discriminate | contradiction].
      * split; [eauto|]. split; [intros feedback Hp; contradiction|].
        split; [intros feedback _ Hv; discriminate | reflexivity].
    + cbn [try_except]. split; [eauto|].
      split; [intros feedback Hp; contradiction|].
      split; [intros feedback Hp; contradiction | reflexivity].
Qed.

(** X11.  [extract_json] returns what [json.loads] makes of the candidate
    and turns a decoding error into a [ValueError]: no [JSONDecodeError]
    leaves it. *)
Theorem extract_json_errors (text : string) :
  (forall v, json_loads (json_candidate text) = Ok v -> extract_json text = Ok v)
  /\ (forall msg, json_loads (json_candidate text) = Raise (JSONDecodeError msg) ->
      extract_json text = Raise (ValueError "Could not parse AI response as JSON"))
  /\ (forall e, extract_json text = Raise e -> forall msg, e <> JSONDecodeError msg).
Proof.
  unfold extract_json. cbv zeta.
  destruct (json_loads (json_candidate text)) as [v | e]; cbn [try_except].
  - split_and ?; [intros ? [= <-]; reflexivity | intros ? [=] | intros ? [=]].
  - split_and ?; [intros ? [=] | intros msg [= ->]; reflexivity |].
    intros e' He' msg ->. destruct e; discriminate.
Qed.
End WithEnv.

Lemma get_ai_feedback_returns_witness :
  @get_ai_feedback helpful_gemini "Python developer" ["Python"] "Data engineer" None
  = Ok (Json.Obj []).
Proof.
  pose proof (@get_ai_feedback_returns helpful_gemini "Python developer" ["Python"]
                "Data engineer" None) as Hreturns.
  cbv zeta in Hreturns. destruct Hreturns as (_ & _ & Hgemini & _).
  apply Hgemini; vm_compute; reflexivity.
Defined.

Lemma extract_json_errors_witness :
  @extract_json chatty_gemini "I cannot help with that"
  = Raise (ValueError "Could not parse AI response as JSON").
Proof.
  apply (@extract_json_errors chatty_gemini "I cannot help with that") with (msg := "Expecting value").
  reflexivity.
Defined.

End AiFeedbackExtras.


(* ===================================================================== *)
(** * utils/pdf_parser.py: further properties                              *)
(* ===================================================================== *)

Module PdfParserExtras.
Import Py Re PdfParser Samples Notions PyFacts ReFacts PdfParserProofs.

(** ** [strip] leaves a stripped text alone *)

Lemma lstrip_fixed (l : chars) :
  (forall c, head l = Some c -> isspace c = false) -> lstrip_chars l = l.
Proof.
  destruct l as [|c t]; intros Hh; [reflexivity|]. cbn [lstrip_chars].
  now rewrite (Hh c eq_refl).
Qed.

Lemma rstrip_fixed (l : chars) :
  (forall c, last l = Some c -> isspace c = false) -> rstrip_chars l = l.
Proof.
  induction l as [|c t IH]; intros Hl; [reflexivity|]. cbn [rstrip_chars].
  destruct t as [|d t'].
  - cbn [rstrip_chars]. now rewrite (Hl c eq_refl).
  - rewrite IH; [reflexivity|]. intros a Ha. apply Hl. rewrite last_cons. now rewrite Ha.
Qed.

Lemma strip_fixed (l : chars) :
  (forall c, head l = Some c -> isspace c = false) ->
  (forall c, last l = Some c -> isspace c = false) ->
  strip_chars l = l.
Proof. intros Hh Hl. unfold strip_chars. rewrite (lstrip_fixed l Hh). now apply rstrip_fixed. Qed.

Lemma strip_ends (l : chars) :
  (forall c, head (strip_chars l) = Some c -> isspace c = false)
  /\ (forall c, last (strip_chars l) = Some c -> isspace c = false).
Proof.
  unfold strip_chars. split.
  - intros c Hc. apply rstrip_head in Hc. now apply lstrip_head in Hc.
  - intros c Hc. now apply rstrip_last in Hc.
Qed.

Lemma strip_idem (s : string) : strip (strip s) = strip s.
Proof.
  unfold strip. rewrite explode_implode. f_equal.
  destruct (strip_ends (explode s)). now apply strip_fixed.
Qed.

(** ** The extractors return stripped text *)

Section WithLibraries.
Context `{PdfLibs.Extractors}.

Lemma pdfplumber_stripped (file_content : PdfLibs.bytes) :
  strip (extract_text_with_pdfplumber file_content) = extract_text_with_pdfplumber file_content.
Proof.
  unfold extract_text_with_pdfplumber.
  destruct (PdfLibs.pdfplumber_pages file_content); [apply strip_idem | reflexivity].
Qed.

Lemma pymupdf_stripped (file_content : PdfLibs.bytes) :
  strip (extract_text_with_pymupdf file_content) = extract_text_with_pymupdf file_content.
Proof.
  unfold extract_text_with_pymupdf.
  destruct (PdfLibs.fitz_pages file_content); [apply strip_idem | reflexivity].
Qed.

(** X12.  The text that [parse_pdf] returns is not empty and is stripped:
    it neither begins nor ends with whitespace. *)
Theorem parse_pdf_text_stripped (file_content : PdfLibs.bytes) (text : string) :
  snd (parse_pdf file_content) = Ok text ->
  text <> ""
  /\ strip text = text
  /\ (forall c, head (explode text) = Some c -> isspace c = false)
  /\ (forall c, last (explode text) = Some c -> isspace c = false).
Proof.
  rewrite parse_pdf_eq. destruct file_content as [|b rest]; [discriminate|].
  cbn [snd]. destruct (truthy (selected (b :: rest))) eqn:Ht; [|discriminate].
  intros [= <-].
  assert (Hs : strip (selected (b :: rest)) = selected (b :: rest)).
  { unfold selected. destruct (falls_back _); [apply pymupdf_stripped | apply pdfplumber_stripped]. }
  split; [intros E; rewrite E in Ht; discriminate|].
  split; [exact Hs|].
  rewrite <- Hs. unfold strip. rewrite explode_implode. apply strip_ends.
Qed.
End WithLibraries.

Lemma parse_pdf_text_stripped_witness :
  strip "Jane Doe, engineer" = "Jane Doe, engineer".
Proof.
  apply (@parse_pdf_text_stripped short_then_long [Byte.x25] "Jane Doe, engineer").
  vm_compute. reflexivity.
Defined.

End PdfParserExtras.


(* ===================================================================== *)
(** * utils/pdf_parser.py: [clean_text] applied twice, and its length      *)
(* ===================================================================== *)

Module CleanTextExtras.
Import Py Re PdfParser Samples Notions PyFacts ReFacts PdfParserProofs PdfParserExtras.

Lemma map_explode_implode (ls : list chars) : map explode (map implode ls) = ls.
Proof.
  rewrite map_map. induction ls as [|l t IH]; cbn [map]; [reflexivity|].
  now rewrite explode_implode, IH.
Qed.

(** [clean_text] on a non-empty string is [clean_chars] on its
    characters. *)
Lemma clean_text_chars (c : ascii) (s : string) :
  explode (clean_text (VStr (String c s))) = clean_chars (explode (String c s)).
Proof.
  cbn [clean_text value_truthy isinstance_str truthy negb orb].
  unfold clean_chars, truncate, strip, take, join, split.
  rewrite !explode_implode.
  set (l1 := replace_char "013" " " (replace_char "000" " " (explode (String c s)))).
  rewrite map_explode_implode.
  change (explode " ") with [" "%char].
  set (text2 := implode (join_chars [" "%char] (split_chars l1))).
  rewrite sub_spaces, sub_special. unfold text2. rewrite explode_implode.
  set (l4 := squeeze isspace [" "%char] false _).
  assert (Hlen : len (Re.sub (Plus (Cls isspace)) " "
                        (Re.sub (Cls special) " " (implode (join_chars [" "%char] (split_chars l1)))))
                 = Z.of_nat (length l4)).
  { rewrite <- (implode_explode (Re.sub (Plus _) _ _)), len_implode.
    now rewrite sub_spaces, sub_special, explode_implode. }
  rewrite Hlen. destruct (1000000 <? Z.of_nat (length l4)).
  - rewrite ?explode_implode, ?sub_spaces, ?sub_special, ?explode_implode. reflexivity.
  - rewrite ?explode_implode, ?sub_spaces, ?sub_special, ?explode_implode. reflexivity.
Qed.

(** ** The steps on a text that is clean already *)

Lemma replace_char_absent (old new : ascii) (l : chars) :
  ~ In old l -> replace_char old new l = l.
Proof.
  unfold replace_char. induction l as [|c t IH]; intros Hn; cbn [map]; [reflexivity|].
  destruct (Ascii.eqb_spec c old) as [->|Hne].
  - exfalso. apply Hn. now left.
  - rewrite IH; [reflexivity|]. intros Hin. apply Hn. now right.
Qed.

Lemma join_cons (sep p : chars) (rest : list chars) :
  rest <> [] -> join_chars sep (p :: rest) = p ++ sep ++ join_chars sep rest.
Proof. destruct rest; [congruence | reflexivity]. Qed.

Lemma space_pair_tail (c : ascii) (t : chars) :
  has_space_pair (c :: t) = false -> has_space_pair t = false.
Proof.
  destruct t as [|d t']; [reflexivity|]. cbn [has_space_pair].
  intros Hp. now apply orb_false_iff in Hp as [_ ?].
Qed.

Lemma join_split_go (l cur : chars) :
  Forall (fun c => isspace c = true -> c = " "%char) l ->
  has_space_pair l = false ->
  (forall c, last l = Some c -> isspace c = false) ->
  (cur = [] -> forall c, head l = Some c -> isspace c = false) ->
  join_chars [" "%char] (split_go cur l) = rev cur ++ l.
Proof.
  revert cur; induction l as [|c t IH]; intros cur Hsp Hpair Hlast Hhead.
  - cbn [split_go]. destruct cur; [reflexivity|]. cbn [join_chars]. now rewrite app_nil_r.
  - apply Forall_cons in Hsp as [Hc Hsp]. pose proof (space_pair_tail _ _ Hpair) as Hpt.
    assert (Hlast_t : forall a, last t = Some a -> isspace a = false).
    { intros a Ha. apply Hlast. rewrite last_cons. now rewrite Ha. }
    cbn [split_go]. destruct (isspace c) eqn:Ec.
    + destruct cur as [|k cur'].
      { specialize (Hhead eq_refl c eq_refl). congruence. }
      destruct t as [|d t'].
      { specialize (Hlast c eq_refl). congruence. }
      assert (Hd : isspace d = false).
      { cbn [has_space_pair] in Hpair. apply orb_false_iff in Hpair as [Hcd _].
        rewrite Ec in Hcd. exact Hcd. }
      assert (IHt : join_chars [" "%char] (split_go [] (d :: t')) = d :: t').
      { apply (IH []); try assumption. intros _ a [= <-]. exact Hd. }
      rewrite join_cons.
      * rewrite IHt, (Hc eq_refl). reflexivity.
      * intros E. rewrite E in IHt. discriminate.
    + rewrite IH; try assumption.
      * cbn [rev]. now rewrite <- app_assoc.
      * discriminate.
Qed.

Lemma replace_class_fixed (p : ascii -> bool) (repl l : chars) :
  Forall (fun c => p c = false) l -> replace_class p repl l = l.
Proof.
  unfold replace_class. induction 1 as [|c t Hc Ht IH]; cbn [flat_map]; [reflexivity|].
  now rewrite Hc, IH.
Qed.

Lemma squeeze_fixed (l : chars) :
  Forall (fun c => isspace c = true -> c = " "%char) l ->
  has_space_pair l = false ->
  squeeze isspace [" "%char] false l = l
  /\ ((forall c, head l = Some c -> isspace c = false) ->
      squeeze isspace [" "%char] true l = l).
Proof.
  induction 1 as [|c t Hc Ht IH]; intros Hpair; [split; reflexivity|].
  pose proof (space_pair_tail _ _ Hpair) as Hpt. destruct (IH Hpt) as [IH1 IH2].
  cbn [squeeze]. destruct (isspace c) eqn:Ec.
  - split.
    + cbn [app]. rewrite (Hc eq_refl). f_equal. apply IH2.
      intros d Hd. destruct t as [|d' t']; [discriminate|]. injection Hd as ->.
      cbn [has_space_pair] in Hpair. apply orb_false_iff in Hpair as [Hcd _].
      rewrite Ec in Hcd. exact Hcd.
    + intros Hh. specialize (Hh c eq_refl). congruence.
  - split; [now rewrite IH1 | intros _; now rewrite IH1].
Qed.

(** A text that is tidy, stripped and short enough is a fixed point of
    the steps. *)
Lemma clean_chars_fixed (l : chars) :
  tidy l ->
  (forall c, head l = Some c -> isspace c = false) ->
  (forall c, last l = Some c -> isspace c = false) ->
  Z.of_nat (length l) <= 1000000 ->
  clean_chars l = l.
Proof.
  intros [Ha Hs Hp] Hh Hl Hlen. unfold clean_chars.
  assert (H0 : ~ In "000"%char l).
  { intros Hin. apply list_elem_of_In in Hin. rewrite Forall_forall in Ha.
    now specialize (Ha _ Hin). }
  assert (H13 : ~ In "013"%char l).
  { intros Hin. apply list_elem_of_In in Hin. rewrite Forall_forall in Hs.
    now specialize (Hs _ Hin eq_refl). }
  rewrite (replace_char_absent _ _ l H0), (replace_char_absent _ _ l H13).
  unfold split_chars. rewrite (join_split_go l []); try assumption; [|intros _; exact Hh].
  cbn [rev app]. rewrite (replace_class_fixed _ _ l Ha).
  destruct (squeeze_fixed l Hs Hp) as [-> _].
  unfold truncate. apply Z.ltb_ge in Hlen. rewrite Hlen.
  now apply strip_fixed.
Qed.

(** X13.  Cleaning is idempotent: a cleaned text is left as it is when it
    is cleaned again. *)
Theorem clean_text_idempotent (v : value) :
  clean_text (VStr (clean_text v)) = clean_text v.
Proof.
  destruct (clean_text v) as [|c s] eqn:E; [reflexivity|].
  assert (Hnonempty : exists c0 s0, v = VStr (String c0 s0)).
  { destruct v as [| n | b | [|c0 s0]]; try discriminate; eauto.
    - unfold clean_text in E. cbn [isinstance_str negb] in E. rewrite orb_true_r in E. discriminate.
    - unfold clean_text in E. cbn [isinstance_str negb] in E. rewrite orb_true_r in E. discriminate. }
  destruct Hnonempty as (c0 & s0 & ->).
  destruct (clean_text_str c0 s0) as (l & El & Ht & Hlen).
  rewrite E in El.
  rewrite <- (implode_explode (clean_text (VStr (String c s)))), clean_text_chars.
  rewrite <- (implode_explode (String c s)) at 2. f_equal.
  rewrite El. destruct (strip_ends l) as [Hh Hl].
  apply clean_chars_fixed; try assumption.
  - now apply strip_tidy.
  - pose proof (strip_length l). lia.
Qed.

(** ** The length *)

Lemma join_length (sep p : chars) (rest : list chars) :
  (length (join_chars sep (p :: rest))
   <= length p + length sep + length (join_chars sep rest))%nat.
Proof.
  destruct rest as [|q rest']; [simpl; lia|].
  rewrite join_cons by discriminate. rewrite !length_app. lia.
Qed.

Lemma join_split_length (l cur : chars) :
  (length (join_chars [" "%char] (split_go cur l)) <= length cur + length l)%nat.
Proof.
  revert cur; induction l as [|c t IH]; intros cur; cbn [split_go].
  - destruct cur as [|k cur']; [simpl; lia|]. cbn [join_chars]. rewrite length_rev. lia.
  - rewrite length_cons. destruct (isspace c).
    + destruct cur as [|k cur'].
      * specialize (IH []). rewrite length_nil in *. lia.
      * specialize (IH []). rewrite length_nil in IH.
        eapply Nat.le_trans; [apply join_length|].
        rewrite length_rev, ?length_cons, ?length_nil. lia.
    + specialize (IH (c :: cur)). rewrite length_cons in IH. lia.
Qed.

Lemma replace_class_length (p : ascii -> bool) (r : ascii) (l : chars) :
  length (replace_class p [r] l) = length l.
Proof.
  unfold replace_class. induction l as [|c t IH]; cbn [flat_map]; [reflexivity|].
  destruct (p c); simpl; now rewrite IH.
Qed.

Lemma squeeze_length (p : ascii -> bool) (r : ascii) (b : bool) (l : chars) :
  (length (squeeze p [r] b l) <= length l)%nat.
Proof.
  revert b; induction l as [|c t IH]; intros b; cbn [squeeze]; [simpl; lia|].
  destruct (p c); [destruct b|]; simpl;
    [specialize (IH true) | specialize (IH true) | specialize (IH false)]; lia.
Qed.

Lemma take_chars_shorter (n : N) (l : chars) : (length (take_chars n l) <= length l)%nat.
Proof.
  revert n; induction l as [|c t IH]; intros n; cbn [take_chars]; [simpl; lia|].
  destruct (n =? 0)%N; simpl; [lia|]. specialize (IH (N.pred n)). lia.
Qed.

Lemma clean_chars_length (l : chars) : (length (clean_chars l) <= length l)%nat.
Proof.
  unfold clean_chars.
  set (l1 := replace_char "013" " " (replace_char "000" " " l)).
  assert (H1 : length l1 = length l) by (unfold l1, replace_char; now rewrite !length_map).
  pose proof (join_split_length l1 []) as H2. fold (split_chars l1) in H2.
  set (l2 := join_chars [" "%char] (split_chars l1)) in *.
  pose proof (replace_class_length special " " l2) as H3.
  set (l3 := replace_class special [" "%char] l2) in *.
  pose proof (squeeze_length isspace " " false l3) as H4.
  set (l4 := squeeze isspace [" "%char] false l3) in *.
  assert (H5 : (length (truncate l4) <= length l4)%nat).
  { unfold truncate. destruct (_ <? _); [apply take_chars_shorter | lia]. }
  pose proof (strip_length (truncate l4)) as H6.
  rewrite length_nil in H2. lia.
Qed.

(** X14.  Cleaning never makes a text longer. *)
Theorem clean_text_not_longer (s : string) : len (clean_text (VStr s)) <= len s.
Proof.
  destruct s as [|c s]; [vm_compute; discriminate|].
  rewrite <- (implode_explode (clean_text _)), clean_text_chars, len_implode.
  rewrite <- (implode_explode (String c s)) at 2. rewrite len_implode.
  apply inj_le, clean_chars_length.
Qed.

End CleanTextExtras.


(* ===================================================================== *)
(** * models.py and the routes: further properties                         *)
(* ===================================================================== *)

Module ModelsExtras.
Import Models Samples Notions ModelsProofs.

(** ** New keys *)

Lemma max_key_bound (X : gset Z) (k : Z) : k ∈ X -> k <= set_fold Z.max 0 X.
Proof.
  revert k. apply (set_fold_ind_L (fun acc X => forall k, k ∈ X -> k <= acc)).
  - intros k Hk. now apply elem_of_empty in Hk.
  - intros x Y acc Hx IH k Hk. apply elem_of_union in Hk as [Hk | Hk].
    + apply elem_of_singleton in Hk. lia.
    + specialize (IH k Hk). lia.
Qed.

Lemma next_id_fresh {V} (table : gmap Z V) : table !! next_id table = None.
Proof.
  apply not_elem_of_dom. intros Hin. apply max_key_bound in Hin. unfold next_id in Hin. lia.
Qed.

(** ** Emails *)

Lemma delete_resumes_users (db : DB) (X : gset Z) :
  users (set_fold session_delete_resume db X) = users db.
Proof. apply (delete_resumes_fold db X). Qed.

Lemma step_emails_unique (db : DB) (o : op) : emails_unique db -> emails_unique (step db o).
Proof.
  intros Hu. destruct o as [u | uid r | uid j | m | uid rid | uid | jid]; cbn [step].
  - unfold register. destruct (bool_decide _) eqn:E; [assumption|].
    apply bool_decide_eq_false in E.
    intros k1 k2 u1 u2 H1 H2 He. cbn in H1, H2.
    destruct (decide (next_id (users db) = k1)) as [<-|N1];
      destruct (decide (next_id (users db) = k2)) as [<-|N2]; [reflexivity|..].
    + rewrite lookup_insert_eq in H1. rewrite lookup_insert_ne in H2 by assumption.
      injection H1 as <-. exfalso. apply E. exists k2, u2. split; [assumption | congruence].
    + rewrite lookup_insert_eq in H2. rewrite lookup_insert_ne in H1 by assumption.
      injection H2 as <-. exfalso. apply E. exists k1, u1. split; [assumption | congruence].
    + rewrite lookup_insert_ne in H1, H2 by assumption. eapply Hu; eassumption.
  - unfold upload_resume. now destruct (get_current_user uid db).
  - unfold create_job. now destruct (get_current_user uid db).
  - unfold store_job_match. now destruct (_ && _).
  - unfold delete_resume. destruct (get_current_user uid db); [|assumption].
    destruct (resumes db !! rid); [|assumption]. now destruct (bool_decide _).
  - intros k1 k2 u1 u2 H1 H2 He. unfold session_delete_user in H1, H2. cbn in H1, H2.
    rewrite delete_resumes_users in H1, H2.
    apply lookup_delete_Some in H1 as [_ H1]. apply lookup_delete_Some in H2 as [_ H2].
    eapply Hu; eassumption.
  - assumption.
Qed.

(** X15.  Registration keeps emails unique: after any sequence of
    operations no two stored users have the same email. *)
Theorem registered_emails_unique (ops : list op) : emails_unique (run ops empty_db).
Proof.
  assert (Hgen : forall db, emails_unique db -> emails_unique (run ops db)).
  { induction ops as [|o ops IH]; intros db Hu; [exact Hu|].
    cbn [run fold_left]. apply IH. now apply step_emails_unique. }
  apply Hgen. intros k1 k2 u1 u2 H1. cbn in H1. rewrite lookup_empty in H1. discriminate.
Qed.

(** ** Deleting *)

(** X16.  [delete_resume] removes nothing but the resume that was asked
    for, and that one only for its owner: every resume of another user and
    every other resume stays, and users and jobs are untouched. *)
Theorem delete_resume_only_own (uid rid : Z) (db : DB) (k : Z) (r : Resume) :
  resumes db !! k = Some r ->
  user_id r <> uid \/ k <> rid ->
  resumes (delete_resume uid rid db) !! k = Some r
  /\ users (delete_resume uid rid db) = users db
  /\ jobs (delete_resume uid rid db) = jobs db.
Proof.
  intros Hk Hother. unfold delete_resume, get_current_user.
  destruct (bool_decide (is_Some (users db !! uid))); [|auto].
  destruct (resumes db !! rid) as [resume|] eqn:Hrid; [|auto].
  destruct (bool_decide (user_id resume = uid)) eqn:Hown; [|auto].
  apply bool_decide_eq_true in Hown. cbn. split; [|auto].
  rewrite lookup_delete_ne; [assumption|].
  intros <-. destruct Hother as [Hne | Hne]; [|congruence].
  rewrite Hk in Hrid. injection Hrid as <-. congruence.
Qed.

Lemma delete_resume_only_own_witness :
  is_Some (resumes (delete_resume 1 2 two_users) !! 2).
Proof.
  assert (E : exists r, resumes two_users !! 2 = Some r /\ user_id r <> 1).
  { eexists. split; [vm_compute; reflexivity | vm_compute; discriminate]. }
  destruct E as (r & Hrow & Hother). exists r.
  apply (delete_resume_only_own 1 2 two_users 2 r Hrow). now left.
Defined.

(** The database after [session.delete(user)], table by table. *)
Lemma delete_resumes_tables (db : DB) (X : gset Z) :
  let db' := set_fold session_delete_resume db X in
  resumes db' = filter (fun kr => kr.1 ∉ X) (resumes db)
  /\ job_matches db' = filter (fun km => resume_id km.2 ∉ X) (job_matches db)
  /\ jobs db' = jobs db.
Proof.
  cbv zeta. revert X.
  apply (set_fold_ind_L (fun db' X =>
    resumes db' = filter (fun kr => kr.1 ∉ X) (resumes db)
    /\ job_matches db' = filter (fun km => resume_id km.2 ∉ X) (job_matches db)
    /\ jobs db' = jobs db)).
  - split_and ?; [| |reflexivity].
    + symmetry. apply map_filter_id. intros i x _. apply not_elem_of_empty.
    + symmetry. apply map_filter_id. intros i x _. apply not_elem_of_empty.
  - intros x X acc Hx (Hr & Hm & Hj). cbn [session_delete_resume resumes job_matches jobs].
    split_and ?; [| |exact Hj].
    + rewrite Hr. apply map_eq. intros i.
      destruct (decide (i = x)) as [->|Hne].
      * rewrite lookup_delete_eq. symmetry. apply map_lookup_filter_None. right.
        intros r _ Hn. apply Hn. cbn. apply elem_of_union_l. now apply elem_of_singleton.
      * rewrite lookup_delete_ne by congruence.
        destruct (resumes db !! i) as [r|] eqn:E.
        -- destruct (decide (i ∈ X)) as [Hi | Hi].
           ++ transitivity (@None Resume); [|symmetry];
                apply map_lookup_filter_None; right; intros r' _ Hn; apply Hn; cbn;
                [assumption | now apply elem_of_union_r].
           ++ transitivity (Some r); [|symmetry];
                apply map_lookup_filter_Some; (split; [assumption|]); cbn; [assumption|].
              intros Hin. apply elem_of_union in Hin as [Hin | Hin]; [|contradiction].
              apply elem_of_singleton in Hin. congruence.
        -- transitivity (@None Resume); [|symmetry];
             apply map_lookup_filter_None; now left.
    + rewrite Hm. apply map_eq. intros i.
      destruct (job_matches db !! i) as [m|] eqn:E.
      * destruct (decide (resume_id m ∈ {[x]} ∪ X)) as [Hi | Hi].
        -- transitivity (@None JobMatch); [|symmetry].
           ++ apply map_lookup_filter_None. right. intros m' Hm' Hn. cbn in Hn.
              apply map_lookup_filter_Some in Hm' as [Hm' Hx']. cbn in Hx'.
              rewrite E in Hm'. injection Hm' as <-.
              apply elem_of_union in Hi as [Hi | Hi]; [|contradiction].
              apply elem_of_singleton in Hi. contradiction.
           ++ apply map_lookup_filter_None. right. intros m' Hm' Hn. cbn in Hn.
              rewrite E in Hm'. injection Hm' as <-. contradiction.
        -- transitivity (Some m); [|symmetry].
           ++ apply map_lookup_filter_Some. split.
              ** apply map_lookup_filter_Some. split; [assumption|]. cbn.
                 intros Hin. apply Hi. now apply elem_of_union_r.
              ** cbn. intros Heq. apply Hi. apply elem_of_union_l. now apply elem_of_singleton.
           ++ apply map_lookup_filter_Some. split; [assumption | exact Hi].
      * transitivity (@None JobMatch); [|symmetry].
        -- apply map_lookup_filter_None. left. apply map_lookup_filter_None. now left.
        -- apply map_lookup_filter_None. now left.
Qed.

(** X17.  Deleting a user removes the user, the resumes of the user and
    the matches of those resumes, and nothing else: the resumes of other
    users, the matches of their resumes and all jobs stay. *)
Theorem delete_user_removes_exactly (uid : Z) (db : DB) :
  let db' := session_delete_user uid db in
  users db' = delete uid (users db)
  /\ resumes db' = filter (fun kr => user_id kr.2 <> uid) (resumes db)
  /\ job_matches db'
     = filter (fun km => resume_id km.2 ∉ dom (resumes_of uid db)) (job_matches db)
  /\ jobs db' = jobs db.
Proof.
  cbv zeta. unfold session_delete_user. cbv zeta. cbn [users resumes job_matches jobs].
  destruct (delete_resumes_tables db (dom (resumes_of uid db))) as (Hr & Hm & Hj).
  rewrite delete_resumes_users. split; [reflexivity|]. split; [|split; assumption].
  rewrite Hr. apply map_filter_ext. intros i r Hi. cbn. unfold resumes_of.
  rewrite elem_of_dom. split.
  - intros Hn Hown. apply Hn. exists r. apply map_lookup_filter_Some. split; assumption.
  - intros Hne [r' Hr']. apply map_lookup_filter_Some in Hr' as [Hr' Hown]. cbn in Hown.
    rewrite Hi in Hr'. injection Hr' as <-. contradiction.
Qed.

End ModelsExtras.


(* ===================================================================== *)
(** * resume.py: properties of the routes                                  *)
(* ===================================================================== *)

Module ResumeRoutesProofs.
Import Py PdfLibs PdfParser Models ResumeRoutes Samples NumFacts AtsScorerProofs
  ModelsProofs ModelsExtras.

Lemma get_current_user_eq (uid : Z) (db : DB) (current_user : Z) :
  get_current_user uid db = Some current_user ->
  current_user = uid /\ is_Some (users db !! uid).
Proof.
  unfold get_current_user. destruct (bool_decide _) eqn:E; [|discriminate].
  intros [= <-]. split; [reflexivity | now apply bool_decide_eq_true in E].
Qed.

Lemma query_resume_Some (rid uid : Z) (db : DB) (r : Resume) :
  query_resume rid uid db = Some r <-> resumes db !! rid = Some r /\ user_id r = uid.
Proof.
  unfold query_resume. destruct (resumes db !! rid) as [resume|]; [|split; [discriminate | now intros [? _]]].
  destruct (bool_decide (user_id resume = uid)) eqn:E.
  - apply bool_decide_eq_true in E. split; [intros [= <-]; auto | now intros [? _]].
  - apply bool_decide_eq_false in E. split; [discriminate|].
    intros [[= <-] Hown]. contradiction.
Qed.

Section WithLibraries.
Context `{Spacy.Model} `{Extractors}.

(** The analysis that [upload_resume] and [analyze_resume] store for a
    text. *)
Lemma overall_score_bounds (text : string) :
  (0 <= AtsScorer.overall_score (AtsScorer.calculate_ats_score text "") <= 100)%Q.
Proof.
  unfold AtsScorer.calculate_ats_score. cbv zeta. cbn [AtsScorer.overall_score].
  apply round2_bounds, weighted_sum_bounds.
  - apply keyword_density_bounds.
  - apply formatting_bounds.
  - apply action_verbs_bounds.
  - apply experience_bounds.
  - apply skill_match_bounds.
Qed.

Lemma upload_try_row (fn : string) (content : bytes) (uid : Z) (row : Resume) :
  upload_try fn content uid = inr row ->
  Z.of_nat (length content) <= 10485760
  /\ exists text,
       snd (parse_pdf content) = Ok text
       /\ 100 <= len (clean_text (VStr text))
       /\ row = {| user_id := uid; filename := fn; raw_text := clean_text (VStr text);
                   extracted_skills :=
                     SkillExtractor.all_skills (SkillExtractor.extract_skills (clean_text (VStr text)));
                   technical_skills :=
                     SkillExtractor.technical_skills (SkillExtractor.extract_skills (clean_text (VStr text)));
                   soft_skills :=
                     SkillExtractor.soft_skills (SkillExtractor.extract_skills (clean_text (VStr text)));
                   tools :=
                     SkillExtractor.tools (SkillExtractor.extract_skills (clean_text (VStr text)));
                   ats_score :=
                     AtsScorer.overall_score (AtsScorer.calculate_ats_score (clean_text (VStr text)) "") |}.
Proof.
  unfold upload_try. cbv zeta.
  change (10 * 1024 * 1024) with 10485760.
  destruct (10485760 <? Z.of_nat (length content)) eqn:Esize; [discriminate|].
  apply Z.ltb_ge in Esize.
  destruct (snd (parse_pdf content)) as [text|e]; [|discriminate].
  remember (clean_text (VStr text)) as cleaned eqn:Hcleaned.
  destruct (len cleaned <? 100) eqn:Elen; [discriminate|].
  apply Z.ltb_ge in Elen. intros [= <-].
  split; [assumption|]. exists text.
  split; [reflexivity|]. rewrite <- Hcleaned. split; [assumption | reflexivity].
Qed.
Lemma upload_try_raised (fn : string) (content : bytes) (uid : Z) (r : raised) :
  upload_try fn content uid = inl r ->
  (10485760 < Z.of_nat (length content) /\ exists d, r = Http {| status_code := 413; detail := d |})
  \/ (Z.of_nat (length content) <= 10485760
      /\ ((exists e, r = Exn e) \/ exists d, r = Http {| status_code := 400; detail := d |})).
Proof.
  unfold upload_try. cbv zeta.
  change (10 * 1024 * 1024) with 10485760.
  destruct (10485760 <? Z.of_nat (length content)) eqn:Esize.
  - apply Z.ltb_lt in Esize. intros [= <-]. left. eauto.
  - apply Z.ltb_ge in Esize. intros Hr. right. split; [assumption|].
    destruct (snd (parse_pdf content)) as [text|e].
    + remember (clean_text (VStr text)) as cleaned eqn:Hcleaned.
      destruct (len cleaned <? 100); [|discriminate].
      injection Hr as <-. right. eauto.
    + injection Hr as <-. left. eauto.
Qed.

(** X18.  A resume that [upload_resume] returns was uploaded by a stored
    user under a name that ends in [.pdf] and with at most 10 MB; its
    text is the cleaned text of the PDF and has at least 100 characters;
    its skills and its score are those of that text, the score between 0
    and 100; and it is stored under a key that was free. *)
Theorem upload_resume_stores_analysis (fn : string) (content : bytes) (uid : Z) (db : DB)
    (rid : Z) (row : Resume) (db' : DB) :
  ResumeRoutes.upload_resume fn content uid db = (Returned (rid, row), db') ->
  (is_Some (users db !! uid) /\ endswith ".pdf" fn = true
   /\ Z.of_nat (length content) <= 10485760)
  /\ (exists text, snd (parse_pdf content) = Ok text /\ raw_text row = clean_text (VStr text))
  /\ 100 <= len (raw_text row)
  /\ (user_id row = uid /\ filename row = fn)
  /\ (extracted_skills row
        = SkillExtractor.all_skills (SkillExtractor.extract_skills (raw_text row))
      /\ technical_skills row
        = SkillExtractor.technical_skills (SkillExtractor.extract_skills (raw_text row))
      /\ soft_skills row
        = SkillExtractor.soft_skills (SkillExtractor.extract_skills (raw_text row))
      /\ tools row = SkillExtractor.tools (SkillExtractor.extract_skills (raw_text row)))
  /\ (ats_score row
        = AtsScorer.overall_score (AtsScorer.calculate_ats_score (raw_text row) "")
      /\ (0 <= ats_score row <= 100)%Q)
  /\ (resumes db !! rid = None /\ resumes db' !! rid = Some row
      /\ db' = Models.upload_resume uid row db).
Proof.
  unfold ResumeRoutes.upload_resume.
  destruct (get_current_user uid db) as [current_user|] eqn:Euser; [|discriminate].
  destruct (get_current_user_eq _ _ _ Euser) as [-> Hstored].
  destruct (endswith ".pdf" fn) eqn:Epdf; cbn [negb]; [|discriminate].
  destruct (upload_try fn content uid) as [[e|[e|e|e]]|new_resume] eqn:Etry; try discriminate.
  intros [= <- <- <-].
  apply upload_try_row in Etry as (Hsize & text & Hparse & Hlen & ->).
  remember (clean_text (VStr text)) as cleaned eqn:Hcleaned.
  cbn [user_id filename raw_text extracted_skills technical_skills soft_skills tools ats_score].
  split; [auto|]. split; [exists text; auto|]. split; [assumption|].
  split; [auto|]. split; [auto|]. split; [split; [reflexivity | apply overall_score_bounds]|].
  split; [apply next_id_fresh|]. split; [apply lookup_insert_eq|].
  unfold Models.upload_resume. rewrite Euser. reflexivity.
Qed.

(** X19.  An upload that is refused leaves the database as it was; the
    status is 400, 413 or 500, and it is 413 exactly when the name ends in
    [.pdf] and the file has more than 10 MB. *)
Theorem upload_resume_refused (fn : string) (content : bytes) (uid : Z) (db : DB)
    (e : HTTPException) (db' : DB) :
  ResumeRoutes.upload_resume fn content uid db = (Failed e, db') ->
  db' = db
  /\ (status_code e = 400 \/ status_code e = 413 \/ status_code e = 500)
  /\ (status_code e = 413
      <-> endswith ".pdf" fn = true /\ 10485760 < Z.of_nat (length content)).
Proof.
  unfold ResumeRoutes.upload_resume.
  destruct (get_current_user uid db) as [current_user|] eqn:Euser; [|discriminate].
  destruct (endswith ".pdf" fn) eqn:Epdf; cbn [negb].
  - destruct (upload_try fn content current_user) as [r|new_resume] eqn:Etry.
    + apply upload_try_raised in Etry as [(Hsize & d & ->) | (Hsize & [(x & ->) | (d & ->)])].
      * intros [= <- <-]. cbn [status_code]. split; [reflexivity|]. split; [auto|].
        split; auto.
      * destruct x as [m|m|m]; intros [= <- <-]; cbn [status_code];
          (split; [reflexivity|]); (split; [auto|]); (split; [discriminate | lia]).
      * intros [= <- <-]. cbn [status_code].
        split; [reflexivity|]. split; [auto|]. split; [discriminate | lia].
    + discriminate.
  - intros [= <- <-]. cbn [status_code]. split; [reflexivity|]. split; [auto|].
    split; [discriminate | intros [? _]; discriminate].
Qed.

(** X20.  Re-analysing a resume a second time changes nothing and gives
    the same answer; the route touches no other row, and of the resume it
    keeps the owner, the file name and the text. *)
Theorem analyze_resume_idempotent (rid uid : Z) (db : DB) :
  let out := analyze_resume rid uid db in
  analyze_resume rid uid (snd out) = out
  /\ (users (snd out) = users db /\ jobs (snd out) = jobs db
      /\ job_matches (snd out) = job_matches db)
  /\ delete rid (resumes (snd out)) = delete rid (resumes db)
  /\ dom (resumes (snd out)) = dom (resumes db)
  /\ (fun r => (user_id r, filename r, raw_text r)) <$> resumes (snd out) !! rid
     = (fun r => (user_id r, filename r, raw_text r)) <$> resumes db !! rid.
Proof.
  cbv zeta. destruct (analyze_resume rid uid db) as [answer db'] eqn:Eout. cbn [snd].
  unfold analyze_resume in Eout.
  destruct (get_current_user uid db) as [current_user|] eqn:Euser.
  2:{ injection Eout as <- <-. unfold analyze_resume. rewrite Euser. auto 10. }
  destruct (query_resume rid current_user db) as [resume|] eqn:Equery.
  2:{ injection Eout as <- <-. unfold analyze_resume. rewrite Euser, Equery. auto 10. }
  cbv zeta in Eout. injection Eout as <- <-. cbn [users jobs job_matches resumes].
  apply query_resume_Some in Equery as [Hrow Hown].
  remember (raw_text resume) as text eqn:Htext.
  split.
  - assert (Huser : forall rs,
             get_current_user uid {| users := users db; resumes := rs; jobs := jobs db;
                                     job_matches := job_matches db |} = Some current_user)
      by (intros rs; exact Euser).
    unfold analyze_resume. rewrite Huser.
    unfold query_resume. cbn [resumes]. rewrite lookup_insert_eq. cbn [user_id].
    rewrite bool_decide_eq_true_2 by assumption.
    cbv zeta. cbn [user_id filename raw_text users jobs job_matches resumes].
    rewrite insert_insert_eq. reflexivity.
  - split; [auto|]. split; [apply delete_insert_eq|].
    split; [apply dom_insert_lookup_L; eauto|].
    rewrite lookup_insert_eq, Hrow. cbn. now rewrite Htext.
Qed.

(** X21.  Re-analysing a resume right after its upload changes nothing:
    the stored analysis is the one that [analyze_resume] computes, and
    [get_resume] returns the stored row. *)
Theorem upload_then_analyze (fn : string) (content : bytes) (uid : Z) (db : DB)
    (rid : Z) (row : Resume) (db' : DB) :
  ResumeRoutes.upload_resume fn content uid db = (Returned (rid, row), db') ->
  analyze_resume rid uid db'
  = (Returned (row, AtsScorer.calculate_ats_score (raw_text row) ""), db')
  /\ get_resume rid uid db' = Returned row.
Proof.
  unfold ResumeRoutes.upload_resume.
  destruct (get_current_user uid db) as [current_user|] eqn:Euser; [|discriminate].
  destruct (get_current_user_eq _ _ _ Euser) as [-> Hstored].
  destruct (endswith ".pdf" fn) eqn:Epdf; cbn [negb]; [|discriminate].
  destruct (upload_try fn content uid) as [[e|[e|e|e]]|new_resume] eqn:Etry; try discriminate.
  intros [= <- <- <-].
  apply upload_try_row in Etry as (Hsize & text & Hparse & Hlen & ->).
  remember (clean_text (VStr text)) as cleaned eqn:Hcleaned.
  assert (Huser : forall r, get_current_user uid (add_resume r db) = Some uid)
    by (intros r; exact Euser).
  unfold analyze_resume, get_resume. rewrite !Huser.
  unfold query_resume, add_resume. cbn [resumes]. rewrite lookup_insert_eq. cbn [user_id].
  rewrite bool_decide_eq_true_2 by reflexivity.
  split; [|reflexivity].
  cbv zeta. cbn [user_id filename raw_text users jobs job_matches resumes].
  rewrite insert_insert_eq. reflexivity.
Qed.

(** X22.  A resume that a user can read belongs to that user, and another
    user can neither read it, nor list it, nor re-analyse it, nor delete
    it. *)
Theorem resume_private_to_owner (rid uid other : Z) (db : DB) (r : Resume) :
  get_resume rid uid db = Returned r ->
  other <> uid ->
  user_id r = uid
  /\ (get_resume rid other db = Unauthorized \/ get_resume rid other db = Failed not_found)
  /\ resumes_of other db !! rid = None
  /\ snd (analyze_resume rid other db) = db
  /\ Models.delete_resume other rid db = db.
Proof.
  unfold get_resume at 1.
  destruct (get_current_user uid db) as [current_user|] eqn:Euser; [|discriminate].
  destruct (get_current_user_eq _ _ _ Euser) as [-> _].
  destruct (query_resume rid uid db) as [resume|] eqn:Equery; [|discriminate].
  intros [= ->] Hother.
  apply query_resume_Some in Equery as [Hrow Hown].
  assert (Hnone : forall u, u = other -> query_resume rid u db = None).
  { intros u ->. unfold query_resume. rewrite Hrow.
    rewrite bool_decide_eq_false_2 by congruence. reflexivity. }
  split; [assumption|]. split; [|split; [|split]].
  - unfold get_resume. destruct (get_current_user other db) as [u|] eqn:Eo; [|now left].
    destruct (get_current_user_eq _ _ _ Eo) as [-> _]. rewrite Hnone by reflexivity. now right.
  - unfold resumes_of. apply map_lookup_filter_None. right.
    intros r' Hr'. cbn. rewrite Hrow in Hr'. injection Hr' as <-. congruence.
  - unfold analyze_resume. destruct (get_current_user other db) as [u|] eqn:Eo; [|reflexivity].
    destruct (get_current_user_eq _ _ _ Eo) as [-> _]. rewrite Hnone by reflexivity. reflexivity.
  - unfold Models.delete_resume. destruct (get_current_user other db) as [u|] eqn:Eo; [|reflexivity].
    destruct (get_current_user_eq _ _ _ Eo) as [-> _]. rewrite Hrow.
    rewrite bool_decide_eq_false_2 by congruence. reflexivity.
Qed.

(** X23.  After its owner has deleted a resume, [get_resume] answers 404
    for it, the list of the owner holds the other resumes as before, and
    no match of the resume is left. *)
Theorem deleted_resume_is_gone (rid uid : Z) (db : DB) (r : Resume) :
  get_resume rid uid db = Returned r ->
  let db' := Models.delete_resume uid rid db in
  get_resume rid uid db' = Failed not_found
  /\ get_user_resumes uid db' = Returned (delete rid (resumes_of uid db))
  /\ matches_of_resume rid db' = ∅.
Proof.
  unfold get_resume at 1.
  destruct (get_current_user uid db) as [current_user|] eqn:Euser; [|discriminate].
  destruct (get_current_user_eq _ _ _ Euser) as [-> _].
  destruct (query_resume rid uid db) as [resume|] eqn:Equery; [|discriminate].
  intros [= ->]. cbv zeta.
  apply query_resume_Some in Equery as [Hrow Hown].
  unfold Models.delete_resume. rewrite Euser, Hrow.
  rewrite bool_decide_eq_true_2 by assumption.
  assert (Huser : get_current_user uid (session_delete_resume rid db) = Some uid)
    by exact Euser.
  unfold get_resume, get_user_resumes. rewrite !Huser.
  split; [|split].
  - unfold query_resume, session_delete_resume. cbn [resumes].
    now rewrite lookup_delete_eq.
  - unfold resumes_of, session_delete_resume. cbn [resumes].
    now rewrite map_filter_delete.
  - unfold matches_of_resume, session_delete_resume. cbn [job_matches].
    apply map_empty. intros k. apply map_lookup_filter_None. right.
    intros m Hm Heq. apply map_lookup_filter_Some in Hm as [_ Hne]. contradiction.
Qed.
End WithLibraries.

Lemma upload_resume_stores_analysis_witness :
  exists rid row db',
    @ResumeRoutes.upload_resume plain_model one_page "cv.pdf" [Byte.x25] 1 two_users
    = (Returned (rid, row), db')
    /\ 100 <= len (raw_text row) /\ (0 <= ats_score row <= 100)%Q
    /\ resumes db' !! rid = Some row.
Proof.
  assert (E : exists rid row db',
             @ResumeRoutes.upload_resume plain_model one_page "cv.pdf" [Byte.x25] 1 two_users
             = (Returned (rid, row), db')).
  { eexists _, _, _. vm_compute. reflexivity. }
  destruct E as (rid & row & db' & E). exists rid, row, db'. split; [exact E|].
  destruct (@upload_resume_stores_analysis plain_model one_page _ _ _ _ _ _ _ E)
    as (_ & _ & Hlen & _ & _ & [_ Hscore] & _ & Hrow & _).
  auto.
Defined.

Lemma upload_resume_refused_witness :
  exists e,
    @ResumeRoutes.upload_resume plain_model one_page "cv.docx" [Byte.x25] 1 two_users
    = (Failed e, two_users)
    /\ (status_code e = 413
        <-> endswith ".pdf" "cv.docx" = true /\ 10485760 < Z.of_nat (length [Byte.x25])).
Proof.
  assert (E : exists e,
             @ResumeRoutes.upload_resume plain_model one_page "cv.docx" [Byte.x25] 1 two_users
             = (Failed e, two_users)).
  { eexists. vm_compute. reflexivity. }
  destruct E as (e & E). exists e. split; [exact E|].
  apply (@upload_resume_refused plain_model one_page _ _ _ _ _ _ E).
Defined.

Lemma upload_then_analyze_witness :
  exists rid row db',
    @ResumeRoutes.upload_resume plain_model one_page "cv.pdf" [Byte.x25] 1 two_users
    = (Returned (rid, row), db')
    /\ @get_resume rid 1 db' = Returned row.
Proof.
  assert (E : exists rid row db',
             @ResumeRoutes.upload_resume plain_model one_page "cv.pdf" [Byte.x25] 1 two_users
             = (Returned (rid, row), db')).
  { eexists _, _, _. vm_compute. reflexivity. }
  destruct E as (rid & row & db' & E). exists rid, row, db'. split; [exact E|].
  apply (@upload_then_analyze plain_model one_page _ _ _ _ _ _ _ E).
Defined.

Lemma resume_private_to_owner_witness : Models.delete_resume 2 1 two_users = two_users.
Proof.
  assert (E : exists r, get_resume 1 1 two_users = Returned r).
  { eexists. vm_compute. reflexivity. }
  destruct E as (r & E).
  destruct (@resume_private_to_owner plain_model 1 1 2 two_users r E) as (_ & _ & _ & _ & Hdel);
    [lia | exact Hdel].
Defined.

Lemma deleted_resume_is_gone_witness :
  get_resume 1 1 (Models.delete_resume 1 1 two_users) = Failed not_found.
Proof.
  assert (E : exists r, get_resume 1 1 two_users = Returned r).
  { eexists. vm_compute. reflexivity. }
  destruct E as (r & E).
  apply (deleted_resume_is_gone 1 1 two_users r E).
Defined.

End ResumeRoutesProofs.


(* ===================================================================== *)
(** * skill_extractor.py: counting action verbs                            *)
(* ===================================================================== *)

Module ActionVerbExtras.
Import Py Re SkillExtractor AtsScorer SkillExtractorExtras.

(** X24.  Action verbs are counted without regard to case: a text and its
    lower-case form have the same count and the same action verb score,
    and the count is never negative. *)
Theorem action_verbs_ignore_case (text : string) :
  count_action_verbs (lower text) = count_action_verbs text
  /\ 0 <= count_action_verbs text
  /\ action_verbs_score (lower text) = action_verbs_score text.
Proof.
  assert (Hcount : count_action_verbs (lower text) = count_action_verbs text).
  { unfold count_action_verbs. cbv zeta. now rewrite lower_idem. }
  split; [exact Hcount|]. split.
  - unfold count_action_verbs. cbv zeta.
    generalize (lower text) as text_lower. intros text_lower.
    assert (Hfold : forall verbs count, 0 <= count ->
              0 <= fold_left
                     (fun count verb =>
                        count + Z.of_nat (length (findall (word_pattern verb) text_lower)))
                     verbs count).
    { induction verbs as [|verb verbs IH]; intros count Hc; [exact Hc|].
      cbn [fold_left]. apply IH. lia. }
    apply Hfold. lia.
  - unfold action_verbs_score. cbv zeta. now rewrite Hcount.
Qed.

End ActionVerbExtras.
